(** * CogniHub retrieval and ranking engine: routing, reranking, extraction

    A shallow embedding of
    - [cognihub/services/rag_routing.py]  ([_json_obj_from_text], [route_rag]),
    - [cognihub/services/rerank.py]       ([_extract_json_array], [rerank_results]),
    - [cognihub/services/retrieval.py]    ([KiwixRetrievalProvider.retrieve]),
    together with the statements the design document makes about them.

    Python values are modelled by the type [json] (the values [json.loads]
    can produce); Python [str] by [string], read as a sequence of code points
    below 256; Python [int] by [Z]; Python [float] by the IEEE binary64 data of
    [spec_float]; [dict[str, Any]] by [gmap string json]; objects that the
    code copies or updates in place live in an explicit heap. *)

From Stdlib Require Import ZArith Ascii String List Bool Lia Sorted.
From Stdlib Require Import Floats.SpecFloat.
From stdpp Require Import base option list gmap strings fin_maps pretty.

Local Open Scope string_scope.
Local Open Scope Z_scope.

(* ===================================================================== *)
(** * Python values and builtins *)
(* ===================================================================== *)

Module Py.

(** Values produced by [json.loads]: None, bool, int, float, str, list and
    dict.  A dict keeps its keys in insertion order, each key once. *)
#[local] Unset Elimination Schemes.
Inductive json : Type :=
| JNull : json
| JBool : bool -> json
| JInt : Z -> json
| JFloat : spec_float -> json
| JStr : string -> json
| JArr : list json -> json
| JObj : list (string * json) -> json.
#[local] Set Elimination Schemes.

(** Outcome of a statement that may raise.  One exceptional outcome is
    enough wherever the class of the exception plays no role: under an
    [except Exception], and in a function that catches nothing. *)
Inductive exn (A : Type) : Type :=
| Ok : A -> exn A
| Raise : exn A.
Arguments Ok {A} _.
Arguments Raise {A}.

(** Outcome of [json.loads] and of the steps of its scanner, where the class
    matters: [rag_routing.py] catches [json.JSONDecodeError] only.
    [OtherError] is an exception of any other class, such as the
    [RecursionError] of a deeply nested text or the [ValueError] of an integer
    literal longer than [sys.int_max_str_digits]. *)
Inductive decoded (A : Type) : Type :=
| Decoded : A -> decoded A
| JSONDecodeError : decoded A
| OtherError : decoded A.
Arguments Decoded {A} _.
Arguments JSONDecodeError {A}.
Arguments OtherError {A}.

Definition exn_bind {A B} (m : exn A) (k : A -> exn B) : exn B :=
  match m with Ok a => k a | Raise => Raise end.

Definition dquote : ascii := "034"%char.
Definition backslash : ascii := "092"%char.

(** [str.isspace] on one code point below 256. *)
Definition isspace (c : ascii) : bool :=
  let n := nat_of_ascii c in
  ((9 <=? n)%nat && (n <=? 13)%nat) || ((28 <=? n)%nat && (n <=? 32)%nat)
  || (n =? 133)%nat || (n =? 160)%nat.

Fixpoint lstrip (s : string) : string :=
  match s with
  | String c r => if isspace c then lstrip r else s
  | EmptyString => EmptyString
  end.

(** [rstrip] walks from the right: a character is kept when it is not a
    space or when something is kept after it. *)
Fixpoint rstrip (s : string) : string :=
  match s with
  | EmptyString => EmptyString
  | String c r =>
      match rstrip r with
      | EmptyString => if isspace c then EmptyString else String c EmptyString
      | r' => String c r'
      end
  end.

(** [s.strip()] *)
Definition strip (s : string) : string := rstrip (lstrip s).

(** [len(s)] *)
Definition len (s : string) : Z := Z.of_nat (String.length s).

(** [s[:n]] and [s[n:]] for [n >= 0]. *)
Fixpoint str_take (n : nat) (s : string) : string :=
  match n, s with
  | S n', String c r => String c (str_take n' r)
  | _, _ => EmptyString
  end.

Fixpoint str_drop (n : nat) (s : string) : string :=
  match n, s with
  | S n', String _ r => str_drop n' r
  | _, _ => s
  end.

(** [s[i : j + 1]] for [0 <= i <= j]. *)
Definition slice_incl (i j : nat) (s : string) : string :=
  str_take (S j - i) (str_drop i s).

(** [s.find(c)]: least index holding [c]. *)
Fixpoint find (c : ascii) (s : string) : option nat :=
  match s with
  | EmptyString => None
  | String d r => if Ascii.eqb d c then Some O else S <$> find c r
  end.

(** [s.rfind(c)]: greatest index holding [c]. *)
Fixpoint rfind (c : ascii) (s : string) : option nat :=
  match s with
  | EmptyString => None
  | String d r =>
      match rfind c r with
      | Some k => Some (S k)
      | None => if Ascii.eqb d c then Some O else None
      end
  end.

(** Python truthiness, as used by [x or y] and [if not x]. *)
Definition float_is_zero (f : spec_float) : bool :=
  match f with S754_zero _ => true | _ => false end.

Definition truthy (v : json) : bool :=
  match v with
  | JNull => false
  | JBool b => b
  | JInt z => negb (z =? 0)
  | JFloat f => negb (float_is_zero f)
  | JStr s => negb (String.eqb s "")
  | JArr l => match l with [] => false | _ => true end
  | JObj l => match l with [] => false | _ => true end
  end.

(** [d.get(key)] on a dict value: [None] when the key is absent. *)
Fixpoint assoc_get (key : string) (l : list (string * json)) : option json :=
  match l with
  | [] => None
  | (k, v) :: r => if String.eqb k key then Some v else assoc_get key r
  end.

(** [d[key] = v]: an existing key keeps its position, a new one goes last. *)
Fixpoint assoc_set (key : string) (v : json) (l : list (string * json))
  : list (string * json) :=
  match l with
  | [] => [(key, v)]
  | (k, w) :: r =>
      if String.eqb k key then (k, v) :: r else (k, w) :: assoc_set key v r
  end.

(** [x.get(key)] for an arbitrary value [x]: only dicts have [get]; on any
    other value the attribute lookup raises [AttributeError].  An absent key
    yields Python [None]. *)
Definition py_get (x : json) (key : string) : exn json :=
  match x with
  | JObj l => Ok (default JNull (assoc_get key l))
  | _ => Raise
  end.

(** [x or y] *)
Definition py_or (x y : json) : json := if truthy x then x else y.

(** ** [int(x)] *)

Definition digit_of (c : ascii) : option Z :=
  let n := nat_of_ascii c in
  if ((48 <=? n)%nat && (n <=? 57)%nat)%bool then Some (Z.of_nat n - 48) else None.

(** Decimal digits with single underscores between digits, as [int] accepts
    them; [prev] tells whether the previous character was a digit. *)
Fixpoint int_digits (s : string) (acc : Z) (prev : bool) : option Z :=
  match s with
  | EmptyString => if prev then Some acc else None
  | String c r =>
      match digit_of c with
      | Some d => int_digits r (10 * acc + d) true
      | None => if (Ascii.eqb c "_" && prev)%bool then int_digits r acc false else None
      end
  end.

(** The blanks [int] skips around a literal: the ASCII ones and, above 127,
    the code points [str.isspace] accepts.  The separators 28 to 31 are not
    among them. *)
Definition int_space (c : ascii) : bool :=
  let n := nat_of_ascii c in
  ((9 <=? n)%nat && (n <=? 13)%nat) || (n =? 32)%nat
  || (n =? 133)%nat || (n =? 160)%nat.

Fixpoint int_lstrip (s : string) : string :=
  match s with
  | String c r => if int_space c then int_lstrip r else s
  | EmptyString => EmptyString
  end.

Fixpoint int_rstrip (s : string) : string :=
  match s with
  | EmptyString => EmptyString
  | String c r =>
      match int_rstrip r with
      | EmptyString => if int_space c then EmptyString else String c EmptyString
      | r' => String c r'
      end
  end.

(** [sys.int_max_str_digits], at its default. *)
Definition int_max_str_digits : Z := 4300.

(** The number of decimal digits of a literal. *)
Fixpoint count_digits (s : string) : Z :=
  match s with
  | String c r =>
      (match digit_of c with Some _ => 1 | None => 0 end) + count_digits r
  | EmptyString => 0
  end.

(** [int(s)] for a string: surrounding blanks, an optional sign, digits; a
    literal of more than [int_max_str_digits] digits raises. *)
Definition int_of_str (s : string) : option Z :=
  let t := int_rstrip (int_lstrip s) in
  if int_max_str_digits <? count_digits t then None
  else
    match t with
    | String "-" r => Z.opp <$> int_digits r 0 false
    | String "+" r => int_digits r 0 false
    | t => int_digits t 0 false
    end.

(** [int(f)] for a float: truncation towards zero; infinities and NaN raise. *)
Definition int_of_float (f : spec_float) : option Z :=
  match f with
  | S754_zero _ => Some 0
  | S754_finite s m e =>
      let a := if 0 <=? e then Zpos m * 2 ^ e else Zpos m / 2 ^ (- e) in
      Some (if s then - a else a)
  | S754_infinity _ | S754_nan => None
  end.

(** [int(x)]; [None] stands for the [TypeError], [ValueError] or
    [OverflowError] that Python raises. *)
Definition py_int (x : json) : option Z :=
  match x with
  | JBool b => Some (if b then 1 else 0)
  | JInt z => Some z
  | JFloat f => int_of_float f
  | JStr s => int_of_str s
  | JNull | JArr _ | JObj _ => None
  end.

End Py.

(* ===================================================================== *)
(** * The decoder [json.loads] *)
(* ===================================================================== *)

(** A model of CPython's [json.loads] ([json/decoder.py], [json/scanner.py])
    on texts over code points below 256.  It tells apart the two ways in
    which the decoder fails on such a text: [JSONDecodeError] for a syntax
    error, and the [ValueError] that [int] raises on an integer literal of
    more than [int_max_str_digits] digits, here [OtherError]; whichever the
    scanner meets first decides.  Two things lie outside the model: an
    escape [\uXXXX] denoting a code point of 256 or more, which the alphabet
    cannot hold and which is rejected, and the interpreter's recursion limit,
    beyond which CPython raises [RecursionError].  The statements that hold
    for every decoder do not depend on either. *)
Module Json.
Import Py.

Definition is_ws (c : ascii) : bool :=
  (Ascii.eqb c " " || Ascii.eqb c "009" || Ascii.eqb c "010" || Ascii.eqb c "013")%bool.

Fixpoint skip_ws (s : string) : string :=
  match s with
  | String c r => if is_ws c then skip_ws r else s
  | EmptyString => EmptyString
  end.

Fixpoint strip_prefix (p s : string) : option string :=
  match p, s with
  | EmptyString, _ => Some s
  | String a p', String b s' => if Ascii.eqb a b then strip_prefix p' s' else None
  | String _ _, EmptyString => None
  end.

Definition hex_of (c : ascii) : option nat :=
  let n := nat_of_ascii c in
  if ((48 <=? n) && (n <=? 57))%nat then Some (n - 48)%nat
  else if ((65 <=? n) && (n <=? 70))%nat then Some (n - 55)%nat
  else if ((97 <=? n) && (n <=? 102))%nat then Some (n - 87)%nat
  else None.

(** The one-character escapes of [BACKSLASH]. *)
Definition unescape (c : ascii) : option ascii :=
  if Ascii.eqb c dquote then Some dquote
  else if Ascii.eqb c backslash then Some backslash
  else if Ascii.eqb c "/" then Some "/"%char
  else if Ascii.eqb c "b" then Some "008"%char
  else if Ascii.eqb c "f" then Some "012"%char
  else if Ascii.eqb c "n" then Some "010"%char
  else if Ascii.eqb c "r" then Some "013"%char
  else if Ascii.eqb c "t" then Some "009"%char
  else None.

(** [py_scanstring] (strict): the text after an opening quote, up to and
    including the closing quote; yields the decoded string and what follows. *)
Fixpoint scan_string (s : string) : option (string * string) :=
  match s with
  | EmptyString => None
  | String c r =>
      if Ascii.eqb c dquote then Some (EmptyString, r)
      else if Ascii.eqb c backslash then
        match r with
        | EmptyString => None
        | String e r1 =>
            if Ascii.eqb e "u" then
              match r1 with
              | String h1 (String h2 (String h3 (String h4 r2))) =>
                  match hex_of h1, hex_of h2, hex_of h3, hex_of h4 with
                  | Some a, Some b, Some c3, Some d =>
                      let code := (((a * 16 + b) * 16 + c3) * 16 + d)%nat in
                      if (code <? 256)%nat then
                        match scan_string r2 with
                        | Some (t, rest) => Some (String (ascii_of_nat code) t, rest)
                        | None => None
                        end
                      else None
                  | _, _, _, _ => None
                  end
              | _ => None
              end
            else
              match unescape e with
              | Some ch =>
                  match scan_string r1 with
                  | Some (t, rest) => Some (String ch t, rest)
                  | None => None
                  end
              | None => None
              end
        end
      else if (nat_of_ascii c <? 32)%nat then None
      else
        match scan_string r with
        | Some (t, rest) => Some (String c t, rest)
        | None => None
        end
  end.

(** ** Numbers: [NUMBER_RE] *)

Definition is_digit (c : ascii) : bool :=
  match digit_of c with Some _ => true | None => false end.

(** The longest prefix of decimal digits and what follows it. *)
Fixpoint take_digits (s : string) : string * string :=
  match s with
  | String c r =>
      if is_digit c then let '(d, rest) := take_digits r in (String c d, rest)
      else (EmptyString, s)
  | EmptyString => (EmptyString, EmptyString)
  end.

Fixpoint digits_value (s : string) (acc : Z) : Z :=
  match s with
  | String c r => digits_value r (10 * acc + default 0 (digit_of c))
  | EmptyString => acc
  end.

(** The correctly rounded binary64 value of [m * 10 ^ e10] ([m >= 0]), as
    [float] computes it from a decimal literal. *)
Definition float_of_decimal (neg : bool) (m e10 : Z) : spec_float :=
  match m with
  | Zpos p =>
      if 0 <=? e10 then binary_round 53 1024 neg (Z.to_pos (m * 10 ^ e10)) 0
      else
        let d := 10 ^ (- e10) in
        let s := Z.max 0 (56 + Z.log2 d - Z.log2 m) in
        let n := m * 2 ^ s in
        let q := n / d in
        let r := n mod d in
        let l := if r =? 0 then loc_Exact else loc_Inexact (2 * r ?= d) in
        binary_round_aux 53 1024 neg q (- s) l
  | _ => S754_zero neg
  end.

(** The fraction [\.[0-9]+] when present. *)
Definition scan_frac (s : string) : option (string * string) :=
  match s with
  | String c r =>
      if Ascii.eqb c "." then
        match take_digits r with
        | (EmptyString, _) => None
        | (d, rest) => Some (d, rest)
        end
      else None
  | EmptyString => None
  end.

(** The exponent [[eE][-+]?[0-9]+] when present. *)
Definition scan_exp (s : string) : option (Z * string) :=
  match s with
  | String c r =>
      if (Ascii.eqb c "e" || Ascii.eqb c "E")%bool then
        let '(sgn, r1) :=
          match r with
          | String c1 r' =>
              if Ascii.eqb c1 "-" then (true, r')
              else if Ascii.eqb c1 "+" then (false, r')
              else (false, r)
          | EmptyString => (false, r)
          end in
        match take_digits r1 with
        | (EmptyString, _) => None
        | (d, rest) =>
            let v := digits_value d 0 in Some (if sgn then - v else v, rest)
        end
      else None
  | EmptyString => None
  end.

(** A match of [NUMBER_RE] at the head of [s]: an int when there is neither
    fraction nor exponent, a float otherwise.  The int is built by [int],
    which refuses more than [int_max_str_digits] digits. *)
Definition scan_number (s : string) : decoded (json * string) :=
  let '(neg, s1) :=
    match s with
    | String c r => if Ascii.eqb c "-" then (true, r) else (false, s)
    | EmptyString => (false, s)
    end in
  let int_part :=
    match s1 with
    | String c r =>
        if Ascii.eqb c "0" then Some (String c EmptyString, r)
        else if is_digit c then Some (take_digits s1)
        else None
    | EmptyString => None
    end in
  match int_part with
  | None => JSONDecodeError
  | Some (i, r1) =>
      let '(frac, r2) :=
        match scan_frac r1 with
        | Some (f, r) => (Some f, r)
        | None => (None, r1)
        end in
      let '(ex, r3) :=
        match scan_exp r2 with
        | Some (e, r) => (Some e, r)
        | None => (None, r2)
        end in
      match frac, ex with
      | None, None =>
          if int_max_str_digits <? len i then OtherError
          else
            let v := digits_value i 0 in
            Decoded (JInt (if neg then - v else v), r3)
      | _, _ =>
          let f := default EmptyString frac in
          let m := digits_value f (digits_value i 0) in
          let e := default 0 ex - Z.of_nat (String.length f) in
          Decoded (JFloat (float_of_decimal neg m e), r3)
      end
  end.

(** The literals of the scanner, tried in its order around the numbers. *)
Definition scan_atom (s : string) : decoded (json * string) :=
  match strip_prefix "null" s with
  | Some r => Decoded (JNull, r)
  | None =>
  match strip_prefix "true" s with
  | Some r => Decoded (JBool true, r)
  | None =>
  match strip_prefix "false" s with
  | Some r => Decoded (JBool false, r)
  | None =>
  match scan_number s with
  | Decoded res => Decoded res
  | OtherError => OtherError
  | JSONDecodeError =>
  match strip_prefix "NaN" s with
  | Some r => Decoded (JFloat S754_nan, r)
  | None =>
  match strip_prefix "Infinity" s with
  | Some r => Decoded (JFloat (S754_infinity false), r)
  | None =>
  match strip_prefix "-Infinity" s with
  | Some r => Decoded (JFloat (S754_infinity true), r)
  | None => JSONDecodeError
  end end end end end end end.

(** [scan_once], [JSONArray] and [JSONObject].  [fuel] bounds the number of
    values and members visited; the text length plus one always suffices. *)
Fixpoint scan_once (fuel : nat) (s : string) : decoded (json * string) :=
  match fuel with
  | O => JSONDecodeError
  | S f =>
      match s with
      | EmptyString => JSONDecodeError
      | String c r =>
          if Ascii.eqb c dquote then
            match scan_string r with
            | Some (t, rest) => Decoded (JStr t, rest)
            | None => JSONDecodeError
            end
          else if Ascii.eqb c "{" then
            match skip_ws r with
            | String c1 r1 =>
                if Ascii.eqb c1 "}" then Decoded (JObj [], r1)
                else if Ascii.eqb c1 dquote then scan_members f r1 []
                else JSONDecodeError
            | EmptyString => JSONDecodeError
            end
          else if Ascii.eqb c "[" then
            match skip_ws r with
            | String c1 r1 =>
                if Ascii.eqb c1 "]" then Decoded (JArr [], r1)
                else scan_elems f (String c1 r1) []
            | EmptyString => JSONDecodeError
            end
          else scan_atom s
      end
  end

with scan_elems (fuel : nat) (s : string) (acc : list json)
  : decoded (json * string) :=
  match fuel with
  | O => JSONDecodeError
  | S f =>
      match scan_once f s with
      | JSONDecodeError => JSONDecodeError
      | OtherError => OtherError
      | Decoded (v, rest) =>
          match skip_ws rest with
          | String c r =>
              if Ascii.eqb c "]" then Decoded (JArr (rev (v :: acc)), r)
              else if Ascii.eqb c "," then scan_elems f (skip_ws r) (v :: acc)
              else JSONDecodeError
          | EmptyString => JSONDecodeError
          end
      end
  end

with scan_members (fuel : nat) (s : string) (acc : list (string * json))
  : decoded (json * string) :=
  match fuel with
  | O => JSONDecodeError
  | S f =>
      match scan_string s with
      | None => JSONDecodeError
      | Some (key, rest) =>
          match skip_ws rest with
          | String c r =>
              if Ascii.eqb c ":" then
                match scan_once f (skip_ws r) with
                | JSONDecodeError => JSONDecodeError
                | OtherError => OtherError
                | Decoded (v, rest2) =>
                    let acc' := assoc_set key v acc in
                    match skip_ws rest2 with
                    | String c2 r2 =>
                        if Ascii.eqb c2 "}" then Decoded (JObj acc', r2)
                        else if Ascii.eqb c2 "," then
                          match skip_ws r2 with
                          | String c3 r3 =>
                              if Ascii.eqb c3 dquote then scan_members f r3 acc'
                              else JSONDecodeError
                          | EmptyString => JSONDecodeError
                          end
                        else JSONDecodeError
                    | EmptyString => JSONDecodeError
                    end
                end
              else JSONDecodeError
          | EmptyString => JSONDecodeError
          end
      end
  end.

(** [json.loads(s)]: one value between optional blanks, nothing after it. *)
Definition loads (s : string) : decoded json :=
  match scan_once (S (String.length s)) (skip_ws s) with
  | Decoded (v, rest) =>
      match skip_ws rest with
      | EmptyString => Decoded v
      | _ => JSONDecodeError
      end
  | JSONDecodeError => JSONDecodeError
  | OtherError => OtherError
  end.

End Json.

(* ===================================================================== *)
(** * The chat endpoint as seen by its two callers *)
(* ===================================================================== *)

(** [route_rag] and [rerank_results] post one request and read
    [message.content] from the reply.  The request (prompt, model, timeout)
    only feeds the transport, so the model takes the transport's outcome as
    an input: the call raised, or a reply came back with a status and a body.
    [loads] is the decoder behind [Response.json()] and [json.loads]; the
    [try] block ends in [except Exception], which catches whatever it
    raises. *)
Module Chat.
Import Py.

Inductive http_result : Type :=
| TransportError : http_result
| Response : Z -> string -> http_result.

(** [resp.raise_for_status()] passes on the 2xx codes only. *)
Definition is_success (status : Z) : bool := (200 <=? status) && (status <? 300).

Section WithDecoder.
Variable loads : string -> decoded json.

(** The body of the [try] block shared by both callers:
[[
  resp = await http.post(...)
  resp.raise_for_status()
  content = ((resp.json().get("message") or {}).get("content") or "").strip()
]] *)
Definition chat_content (r : http_result) : exn string :=
  match r with
  | TransportError => Raise
  | Response status body =>
      if is_success status then
        match loads body with
        | Decoded j =>
            exn_bind (py_get j "message") (fun msg =>
            exn_bind (py_get (py_or msg (JObj [])) "content") (fun c =>
            match py_or c (JStr "") with
            | JStr t => Ok (strip t)
            | _ => Raise
            end))
        | JSONDecodeError | OtherError => Raise
        end
      else Raise
  end.

End WithDecoder.
End Chat.

(* ===================================================================== *)
(** * rag_routing.py *)
(* ===================================================================== *)

Module RagRouting.
Import Py Chat.

Abbreviation pydict := (gmap string json).
Abbreviation heap := (gmap positive (gmap string json)).

Section WithDecoder.
Variable loads : string -> decoded json.

(** The [try] block around the decoder:
[[
  try:
      return json.loads(snippet)
  except json.JSONDecodeError:
      return None
]]
    An exception of another class is not caught and leaves the function. *)
Definition loads_or_none (snippet : string) : exn (option json) :=
  match loads snippet with
  | Decoded v => Ok (Some v)
  | JSONDecodeError => Ok None
  | OtherError => Raise
  end.

(** The inner loop [for j in range(i, min(len(s), i + max_size))], entered
    with [rest = s[j:]]; [stop] is the end of the range. *)
Fixpoint scan_span (s : string) (i : nat) (rest : string) (j : nat) (stop : Z)
    (depth : Z) (in_string escape_next : bool) : exn (option json) :=
  match rest with
  | EmptyString => Ok None
  | String c rest' =>
      if Z.of_nat j <? stop then
        if escape_next then scan_span s i rest' (S j) stop depth in_string false
        else if Ascii.eqb c backslash then
          scan_span s i rest' (S j) stop depth in_string true
        else if Ascii.eqb c dquote then
          scan_span s i rest' (S j) stop depth (negb in_string) escape_next
        else if in_string then
          scan_span s i rest' (S j) stop depth in_string escape_next
        else if Ascii.eqb c "{" then
          scan_span s i rest' (S j) stop (depth + 1) in_string escape_next
        else if Ascii.eqb c "}" then
          let depth := depth - 1 in
          if depth =? 0 then loads_or_none (slice_incl i j s)
          else scan_span s i rest' (S j) stop depth in_string escape_next
        else scan_span s i rest' (S j) stop depth in_string escape_next
      else Ok None
  end.

(** The outer loop [for i, ch in enumerate(s)], entered with [rest = s[i:]]:
    it leaves through the first opening brace. *)
Fixpoint scan_from (s : string) (rest : string) (i : nat) (max_size : Z)
  : exn (option json) :=
  match rest with
  | EmptyString => Ok None
  | String ch rest' =>
      if negb (Ascii.eqb ch "{") then scan_from s rest' (S i) max_size
      else scan_span s i rest i (Z.min (len s) (Z.of_nat i + max_size))
             0 false false
  end.

Definition _json_obj_from_text (text : string) (max_size : Z)
  : exn (option json) :=
  let s := text in
  if (String.eqb s "" || (max_size <? len s))%bool then Ok None
  else scan_from s s 0 max_size.

(** ** Dict objects on the heap

    [defaults] is a dict that the caller keeps a reference to; [dict(defaults)]
    allocates a new dict, and [out[key] = v] updates a dict in place. *)

Definition loc := positive.

(** Heap-passing computations; [None] is a reference to no dict, which a
    well-typed caller never passes. *)
Definition M (A : Type) : Type := heap -> option (A * heap).

Definition ret {A} (a : A) : M A := fun h => Some (a, h).

Definition bind {A B} (m : M A) (k : A -> M B) : M B :=
  fun h => match m h with Some (a, h') => k a h' | None => None end.

Notation "x <~ m ;; k" := (bind m (fun x => k))
  (at level 100, m at next level, right associativity).
Notation "m ;;; k" := (bind m (fun _ => k))
  (at level 100, right associativity).

(** [dict(d)]: a shallow copy at a location the heap does not use yet. *)
Definition dict_copy (l : loc) : M loc :=
  fun h =>
    match h !! l with
    | Some d => let l' := fresh (dom h) in Some (l', <[l' := d]> h)
    | None => None
    end.

(** [d[key] = v] *)
Definition dict_setitem (l : loc) (key : string) (v : json) : M unit :=
  fun h =>
    match h !! l with
    | Some d => Some (tt, <[l := <[key := v]> d]> h)
    | None => None
    end.

(** [for x in xs: body(x)] *)
Fixpoint for_each {A} (xs : list A) (body : A -> M unit) : M unit :=
  match xs with
  | [] => ret tt
  | x :: r => body x ;;; for_each r body
  end.

Definition bool_keys : list string := ["use_docs"; "use_web"; "use_kiwix"].

Definition str_keys : list string :=
  ["doc_group"; "doc_source"; "doc_query"; "web_query"; "kiwix_query"].

(** [obj.get(key)] on the decoded object. *)
Definition obj_get (obj : list (string * json)) (key : string) : json :=
  default JNull (assoc_get key obj).

(** Body of the first loop:
[[
  if isinstance(obj.get(key), bool):
      out[key] = bool(obj.get(key))
]] *)
Definition merge_bool (obj : list (string * json)) (out : loc) (key : string)
  : M unit :=
  match obj_get obj key with
  | JBool b => dict_setitem out key (JBool b)
  | _ => ret tt
  end.

(** Body of the second loop:
[[
  val = obj.get(key)
  if isinstance(val, str):
      v = val.strip()
      out[key] = v if v else None
  elif val is None:
      out[key] = None
]] *)
Definition merge_str (obj : list (string * json)) (out : loc) (key : string)
  : M unit :=
  match obj_get obj key with
  | JStr val =>
      let v := strip val in
      dict_setitem out key (if String.eqb v "" then JNull else JStr v)
  | JNull => dict_setitem out key JNull
  | _ => ret tt
  end.

(** [return dict(defaults)] *)
Definition return_copy (defaults : loc) : M (exn loc) :=
  out <~ dict_copy defaults ;; ret (Ok out).

(** [route_rag(http=..., query=query, defaults=defaults)], with [resp] the
    outcome of the chat request and [max_size] the value of
    [config.config.max_json_parse_size].  The chat request sits in a [try]
    block with [except Exception]; the call of [_json_obj_from_text] comes
    after that block, so what it raises leaves [route_rag] as well. *)
Definition route_rag (query : string) (defaults : loc) (resp : http_result)
    (max_size : Z) : M (exn loc) :=
  let q := strip query in
  if String.eqb q "" then return_copy defaults
  else
    match chat_content loads resp with
    | Raise => return_copy defaults
    | Ok content =>
        match _json_obj_from_text content max_size with
        | Raise => ret Raise
        | Ok (Some (JObj obj)) =>
            out <~ dict_copy defaults ;;
            for_each bool_keys (merge_bool obj out) ;;;
            for_each str_keys (merge_str obj out) ;;;
            ret (Ok out)
        | Ok _ => return_copy defaults
        end
    end.

End WithDecoder.

(** The value, if any, that a round of each loop assigns to [key]. *)
Definition bool_update (obj : list (string * json)) (key : string) : option json :=
  match obj_get obj key with JBool b => Some (JBool b) | _ => None end.

Definition str_update (obj : list (string * json)) (key : string) : option json :=
  match obj_get obj key with
  | JStr val => Some (if String.eqb (strip val) "" then JNull else JStr (strip val))
  | JNull => Some JNull
  | _ => None
  end.

End RagRouting.

(* ===================================================================== *)
(** * retrieval.py *)
(* ===================================================================== *)

Module Retrieval.
Import Py.

Record RetrievalResult : Type := mkResult {
  source_type : string;
  ref_id : string;
  chunk_id : Z;
  title : option string;
  url : option string;
  domain : option string;
  score : spec_float;
  text : string;
  meta : gmap string json
}.

(** ** Small builtins used by the Kiwix provider *)

(** [a or b] on optional strings: [None] and the empty string are falsy. *)
Definition or_str (a b : option string) : option string :=
  match a with
  | Some (String _ _) => a
  | _ => b
  end.

(** [str(a or "")] *)
Definition str_or_empty (a : option string) : string :=
  match a with Some s => s | None => EmptyString end.

(** [s.rstrip(c)] for a one-character set. *)
Fixpoint rstrip_char (c : ascii) (s : string) : string :=
  match s with
  | EmptyString => EmptyString
  | String d r =>
      match rstrip_char c r with
      | EmptyString => if Ascii.eqb d c then EmptyString else String d EmptyString
      | r' => String d r'
      end
  end.

Fixpoint is_prefix (p s : string) : bool :=
  match p, s with
  | EmptyString, _ => true
  | String a p', String b s' => Ascii.eqb a b && is_prefix p' s'
  | String _ _, EmptyString => false
  end.

(** [s.replace(old, "")] for a non-empty [old]: occurrences are removed from
    left to right; [skip] counts the characters of a match still to drop. *)
Fixpoint remove_all (old : string) (skip : nat) (s : string) : string :=
  match s with
  | EmptyString => EmptyString
  | String c r =>
      match skip with
      | S k => remove_all old k r
      | O =>
          if is_prefix old s then remove_all old (String.length old - 1) r
          else String c (remove_all old O r)
      end
  end.

(** [xs[:k]] for a Python int [k]: a negative bound counts from the end. *)
Definition py_take {A} (k : Z) (xs : list A) : list A :=
  if 0 <=? k then take (Z.to_nat k) xs
  else take (length xs - Z.to_nat (- k)) xs.

(** [items.sort(key=lambda x: x.score, reverse=True)]: a stable sort into
    descending score order; equal scores keep their original order.  [x] is
    placed in front of a list whose elements all came after it.  This is the
    order [list.sort] produces whenever no score is NaN; with a NaN among
    the scores [<] is no total preorder any more, and the order Python
    returns then depends on the steps of its merge sort, which this
    definition does not follow. *)
Fixpoint insert_desc (x : RetrievalResult) (l : list RetrievalResult)
  : list RetrievalResult :=
  match l with
  | [] => [x]
  | y :: r =>
      if SFltb (score x) (score y) then y :: insert_desc x r else x :: y :: r
  end.

Definition sort_desc (l : list RetrievalResult) : list RetrievalResult :=
  foldr insert_desc [] l.

(** ** The Kiwix provider *)

(** What [kiwix.search] lists and what [kiwix.fetch_page] returns: dicts
    read only through [get] on these keys. *)
Record SearchItem : Type := mkItem {
  item_title : option string;
  item_path : option string;
  item_url : option string
}.

Record Page : Type := mkPage {
  page_url : option string;
  page_text : option string
}.

(** An entry of [pages_meta]. *)
Record PageMeta : Type := mkMeta {
  pm_title : option string;
  pm_path : option string;
  pm_url : option string;
  pm_domain : string;
  pm_text : string
}.

(** A row returned by [ragstore.retrieve]. *)
Record Hit : Type := mkHit {
  hit_chunk_id : Z;
  hit_title : option string;
  hit_filename : option string;
  hit_path : option string;
  hit_score : option spec_float;
  hit_text : option string;
  hit_doc_id : json;
  hit_chunk_index : json
}.

(** Keyword arguments of [ragstore.add_document] as the provider passes them. *)
Record DocArgs : Type := mkDocArgs {
  da_filename : string;
  da_text : string;
  da_embed_model : string;
  da_source : string;
  da_title : string;
  da_path : string;
  da_meta_json : string;
  da_group_name : string
}.

Definition opt_json (a : option string) : json :=
  match a with Some s => JStr s | None => JNull end.

(** [KiwixRetrievalProvider.__init__]: [(base_url or "").rstrip("/")] *)
Definition init_base_url (base_url : option string) : string :=
  rstrip_char "/" (str_or_empty base_url).

Section Kiwix.

(** The collaborators of the provider, none of which is part of this file's
    sources: the Kiwix client, the embedding service, the document store and
    two library functions. *)
Variables embedding array store : Type.
Variable kiwix_search : string -> string -> Z -> list SearchItem.
Variable kiwix_fetch_page : string -> string -> option Page.
Variable embed_texts : list string -> string -> list embedding.
Variable embedding_to_array : embedding -> array.
Variable cosine : array -> array -> spec_float.
Variable DEFAULT_EMBED_MODEL : string.
Variable add_document : store -> DocArgs -> Z * store.
Variable ragstore_retrieve : store -> string -> Z -> list Z -> string -> list Hit.
Variable json_dumps : json -> string.
(** [int(hashlib.sha256(url.encode(...)).hexdigest()[:12], 16)] *)
Variable url_hash : string -> Z.

(** The embedding contract of section 6: one vector per input text. *)
Definition one_vector_per_text : Prop :=
  forall texts model, length (embed_texts texts model) = length texts.

(** [item.get("path") or item.get("url") or ""] *)
Definition item_fetch_path (item : SearchItem) : string :=
  str_or_empty (or_str (or_str (item_path item) (item_url item)) (Some EmptyString)).

(** One round of the transient loop: [None] is the [continue]. *)
Definition transient_page (base_url domain : string) (item : SearchItem)
  : option PageMeta :=
  match kiwix_fetch_page base_url (item_fetch_path item) with
  | None => None
  | Some page =>
      Some {| pm_title := or_str (item_title item) (item_path item);
              pm_path := item_path item;
              pm_url := page_url page;
              pm_domain := domain;
              pm_text := str_or_empty (or_str (page_text page) (Some EmptyString)) |}
  end.

(** One round of the loop over [zip(pages_meta, embeddings)]. *)
Definition transient_item (qvec : array) (me : PageMeta * embedding)
  : RetrievalResult :=
  let '(m, emb) := me in
  let vec := embedding_to_array emb in
  let score := cosine qvec vec in
  let url := str_or_empty (or_str (pm_url m) (Some EmptyString)) in
  let chunk_id := url_hash url in
  {| source_type := "kiwix";
     ref_id := "kiwix:" +:+ pretty chunk_id;
     chunk_id := chunk_id;
     title := pm_title m;
     url := pm_url m;
     domain := Some (pm_domain m);
     score := score;
     text := str_or_empty (or_str (Some (pm_text m)) (Some EmptyString));
     meta := {[ "path" := opt_json (pm_path m) ]} |}.

(** The branch [if not persist:]. *)
Definition retrieve_transient (base_url domain q : string) (top_k : Z)
    (embed_model : string) (pages : Z) (results : list SearchItem)
  : exn (list RetrievalResult) :=
  let pages_meta := omap (transient_page base_url domain) (take (Z.to_nat pages) results) in
  match pages_meta with
  | [] => Ok []
  | _ =>
      match embed_texts [q] embed_model with
      | [] => Raise
      | query_emb :: _ =>
          let qvec := embedding_to_array query_emb in
          let texts := map pm_text pages_meta in
          let embeddings := embed_texts texts embed_model in
          let items := map (transient_item qvec) (zip pages_meta embeddings) in
          Ok (py_take top_k (sort_desc items))
      end
  end.

(** One round of the persistent loop, on the store and the list
    [ingested_doc_ids]. *)
Definition persist_page (base_url embed_model : string)
    (acc : store * list Z) (item : SearchItem) : store * list Z :=
  let '(st, ingested) := acc in
  let path := item_fetch_path item in
  match kiwix_fetch_page base_url path with
  | None => acc
  | Some page =>
      let text := strip (str_or_empty (or_str (page_text page) (Some EmptyString))) in
      if String.eqb text "" then acc
      else
        let title :=
          str_or_empty (or_str (or_str (item_title item) (Some path)) (Some "kiwix")) in
        let url := str_or_empty (or_str (page_url page) (Some EmptyString)) in
        let meta_json :=
          json_dumps (JObj [("source", JStr "kiwix"); ("path", JStr path); ("url", JStr url)]) in
        let '(doc_id, st') :=
          add_document st
            {| da_filename := "kiwix:" +:+ title;
               da_text := text;
               da_embed_model := embed_model;
               da_source := "kiwix";
               da_title := title;
               da_path := str_or_empty (or_str (Some url) (Some path));
               da_meta_json := meta_json;
               da_group_name := "kiwix" |} in
        (st', (ingested ++ [doc_id])%list)
  end.

(** One round of the loop over [hits]. *)
Definition persistent_item (domain : string) (h : Hit) : RetrievalResult :=
  {| source_type := "kiwix";
     ref_id := "kiwix:" +:+ pretty (hit_chunk_id h);
     chunk_id := hit_chunk_id h;
     title := or_str (hit_title h) (hit_filename h);
     url := hit_path h;
     domain := Some domain;
     score := match hit_score h with
              | Some f => if float_is_zero f then S754_zero false else f
              | None => S754_zero false
              end;
     text := str_or_empty (or_str (hit_text h) (Some EmptyString));
     meta := {[ "path" := opt_json (hit_path h);
                "doc_id" := hit_doc_id h;
                "chunk_index" := hit_chunk_index h ]} |}.

(** The rest of [retrieve], reached when [persist] is true. *)
Definition retrieve_persistent (st : store) (base_url domain q : string)
    (top_k : Z) (embed_model : string) (pages : Z) (results : list SearchItem)
  : list RetrievalResult * store :=
  let '(st', ingested_doc_ids) :=
    fold_left (persist_page base_url embed_model) (take (Z.to_nat pages) results) (st, []) in
  match ingested_doc_ids with
  | [] => ([], st')
  | _ =>
      let hits := ragstore_retrieve st' q top_k ingested_doc_ids embed_model in
      (map (persistent_item domain) hits, st')
  end.

(** [KiwixRetrievalProvider.retrieve(query, top_k, embed_model, persist=...,
    pages=...)] on a provider whose [_base_url] is [base_url]. *)
Definition retrieve (base_url : string) (st : store) (query : string) (top_k : Z)
    (embed_model : option string) (persist : bool) (pages_kw : option Z)
  : exn (list RetrievalResult * store) :=
  if String.eqb base_url "" then Ok ([], st)
  else
    let q := strip query in
    if String.eqb q "" then Ok ([], st)
    else
      let results := kiwix_search base_url q top_k in
      match results with
      | [] => Ok ([], st)
      | _ =>
          let pages :=
            match pages_kw with
            | Some p => if p =? 0 then 4 else p
            | None => 4
            end in
          let pages := Z.max 1 (Z.min pages 10) in
          let embed_model :=
            str_or_empty (or_str embed_model (Some DEFAULT_EMBED_MODEL)) in
          let domain := remove_all "https://" 0 (remove_all "http://" 0 base_url) in
          if negb persist then
            exn_bind (retrieve_transient base_url domain q top_k embed_model pages results)
              (fun items => Ok (items, st))
          else Ok (retrieve_persistent st base_url domain q top_k embed_model pages results)
      end.

End Kiwix.
End Retrieval.

(* ===================================================================== *)
(** * rerank.py *)
(* ===================================================================== *)

Module Rerank.
Import Py Chat Retrieval.

Section WithDecoder.
Variable loads : string -> decoded json.

Definition _extract_json_array (text : string) : option (list json) :=
  let s := strip text in
  if String.eqb s "" then None
  else
    match find "[" s, rfind "]" s with
    | Some start, Some end_ =>
        if (end_ <=? start)%nat then None
        else
          let snippet := slice_incl start end_ s in
          match loads snippet with
          | Decoded (JArr val) => Some val
          | _ => None
          end
    | _, _ => None
    end.

(** [enumerate(xs, start=1)] *)
Definition enumerate1 {A} (xs : list A) : list (Z * A) :=
  imap (fun i x => (Z.of_nat i + 1, x)) xs.

(** Body of [for x in order:], on the pair of [picked] and [seen]. *)
Definition walk_step (by_id : gmap Z RetrievalResult)
    (st : list RetrievalResult * gset Z) (x : json)
  : list RetrievalResult * gset Z :=
  let '(picked, seen) := st in
  match py_int x with
  | None => st
  | Some i =>
      if decide (i ∈ seen) then st
      else
        match by_id !! i with
        | None => st
        | Some r => ((picked ++ [r])%list, seen ∪ {[ i ]})
        end
  end.

(** Body of the closing loop [for i, r in enumerate(candidates, start=1):]. *)
Definition append_unseen (seen : gset Z) (picked : list RetrievalResult)
    (ir : Z * RetrievalResult) : list RetrievalResult :=
  if decide (ir.1 ∈ seen) then picked else (picked ++ [ir.2])%list.

(** The reconciliation block, from [picked = []] to the final [return]. *)
Definition apply_order (results : list RetrievalResult) (keep_n : Z)
    (candidates : list RetrievalResult) (order : list json)
  : list RetrievalResult :=
  let by_id : gmap Z RetrievalResult := list_to_map (enumerate1 candidates) in
  let '(picked, seen) := fold_left (walk_step by_id) order ([], ∅) in
  match picked with
  | [] => results
  | _ =>
      let picked :=
        fold_left (append_unseen seen) (enumerate1 candidates) picked in
      (picked ++ drop (Z.to_nat keep_n) results)%list
  end.

(** [rerank_results(http=..., query=..., results=results, keep_n=keep_n)],
    with [resp] the outcome of the chat request. *)
Definition rerank_results (results : list RetrievalResult) (keep_n : Z)
    (resp : http_result) : exn (list RetrievalResult) :=
  match results with
  | [] => Ok []
  | _ =>
      let keep_n := Z.max 1 (Z.min keep_n (Z.of_nat (length results))) in
      let candidates := take (Z.to_nat keep_n) results in
      match chat_content loads resp with
      | Raise => Ok results
      | Ok content =>
          match _extract_json_array content with
          | None | Some [] => Ok results
          | Some order => Ok (apply_order results keep_n candidates order)
          end
      end
  end.

End WithDecoder.
End Rerank.

(* ===================================================================== *)
(** * VectorStore similarity search *)
(* ===================================================================== *)

(** [ragstore.retrieve] is exercised by
    [tests/test_ragstore_prefilter.py], but its module is not among the
    sources at hand; the definitions of this module follow section 4.1 of the
    design document. *)
Module VectorStore.

Definition fadd := SFadd 53 1024.
Definition fmul := SFmul 53 1024.
Definition fdiv := SFdiv 53 1024.
Definition fsqrt := SFsqrt 53 1024.
Definition fzero : spec_float := S754_zero false.
Definition fone : spec_float := S754_finite false 4503599627370496 (-52).

Record Chunk : Type := mkChunk {
  chunk_id : Z;
  owner_id : string;
  chunk_index : Z;
  section_label : option string;
  text : string;
  embedding : list spec_float;
  norm : spec_float
}.

(** What the store records about the owner (document or page) of a chunk. *)
Record Owner : Type := mkOwner {
  owner_group : option string;
  owner_source : option string;
  owner_weight : option spec_float
}.

Record Store : Type := mkStore {
  owners : gmap string Owner;
  chunks : list Chunk
}.

(** The optional pre-filter of a query. *)
Record Filter : Type := mkFilter {
  by_owner : option (list string);
  by_group : option string;
  by_source : option string
}.

Definition unscoped : Filter :=
  {| by_owner := None; by_group := None; by_source := None |}.

(** Modelled from the spec: the dot product of two vectors. *)
Fixpoint dot (a b : list spec_float) : spec_float :=
  match a, b with
  | x :: a', y :: b' => fadd (fmul x y) (dot a' b')
  | _, _ => fzero
  end.

(** Modelled from the spec: the Euclidean length of a vector. *)
Definition norm_of (a : list spec_float) : spec_float := fsqrt (dot a a).

(** Modelled from the spec: cosine similarity [(q.c)/(|q||c|)], which is 0 as
    soon as one of the two lengths is 0. *)
Definition cosine (q : list spec_float) (qnorm : spec_float) (c : Chunk)
  : spec_float :=
  if (Py.float_is_zero qnorm || Py.float_is_zero (norm c))%bool then fzero
  else fdiv (dot q (embedding c)) (fmul qnorm (norm c)).

(** Modelled from the spec: a chunk passes the pre-filter when every filter
    that is present accepts its owner; an absent filter, and an owner filter
    that lists nobody, accept everything. *)
Definition opt_matches (want have : option string) : bool :=
  match want with
  | None => true
  | Some w => match have with Some h => String.eqb w h | None => false end
  end.

Definition passes (st : Store) (f : Filter) (c : Chunk) : bool :=
  let o := owners st !! owner_id c in
  match by_owner f with
  | None | Some [] => true
  | Some ids => existsb (String.eqb (owner_id c)) ids
  end
  && opt_matches (by_group f) (o ≫= owner_group)
  && opt_matches (by_source f) (o ≫= owner_source).

(** Modelled from the spec: the score of a chunk, [score *= owner_weight]. *)
Definition weight_of (st : Store) (c : Chunk) : spec_float :=
  default fone (owners st !! owner_id c ≫= owner_weight).

Definition scored (st : Store) (q : list spec_float) (c : Chunk)
  : spec_float * Chunk :=
  (fmul (cosine q (norm_of q) c) (weight_of st c), c).

(** Modelled from the spec: ranking by decreasing score, ties broken by the
    lower [chunk_id]. *)
Definition ranks_before (x y : spec_float * Chunk) : bool :=
  SFltb y.1 x.1 || (negb (SFltb x.1 y.1) && (chunk_id x.2 <=? chunk_id y.2)).

Fixpoint insert_ranked (x : spec_float * Chunk) (l : list (spec_float * Chunk))
  : list (spec_float * Chunk) :=
  match l with
  | [] => [x]
  | y :: r => if ranks_before x y then x :: y :: r else y :: insert_ranked x r
  end.

Definition rank (l : list (spec_float * Chunk)) : list (spec_float * Chunk) :=
  foldr insert_ranked [] l.

(** Modelled from the spec: [top_k] clamped to [[1, 200]]. *)
Definition clamp_top_k (top_k : Z) : Z := Z.max 1 (Z.min top_k 200).

(** Modelled from the spec: the similarity search of section 4.1, standing for
    [ragstore.retrieve] with the query already embedded. *)
Definition retrieve (st : Store) (q : list spec_float) (top_k : Z) (f : Filter)
  : list (spec_float * Chunk) :=
  take (Z.to_nat (clamp_top_k top_k))
       (rank (map (scored st q) (List.filter (passes st f) (chunks st)))).

End VectorStore.

(* ===================================================================== *)
(** * The design document's statements as definitions *)
(* ===================================================================== *)

(** These definitions follow the words of the design document, not the code;
    the theorems below compare the two. *)
Module Spec.
Import Py Retrieval.

(** ** Section 4.4: the balanced-span scanner *)

Record scan_state : Type := mkScan {
  depth : Z;
  in_string : bool;
  escape_next : bool
}.

Definition scan_init : scan_state :=
  {| depth := 0; in_string := false; escape_next := false |}.

(** One character read by the scanner for the delimiters [o] and [c]: an
    escape is consumed by the next character, a backslash sets it, an
    unescaped double quote toggles the string flag, and the depth moves only
    outside strings. *)
Definition scan_step (o c : ascii) (st : scan_state) (ch : ascii) : scan_state :=
  if escape_next st then mkScan (depth st) (in_string st) false
  else if Ascii.eqb ch backslash then mkScan (depth st) (in_string st) true
  else if Ascii.eqb ch dquote then mkScan (depth st) (negb (in_string st)) false
  else if in_string st then st
  else if Ascii.eqb ch o then mkScan (depth st + 1) false false
  else if Ascii.eqb ch c then mkScan (depth st - 1) false false
  else st.

(** The state after a whole prefix. *)
Fixpoint scan_run (o c : ascii) (st : scan_state) (s : string) : scan_state :=
  match s with
  | EmptyString => st
  | String ch r => scan_run o c (scan_step o c st ch) r
  end.

(** [ch], read in state [st], is the delimiter that brings the depth back to
    zero. *)
Definition closes (o c : ascii) (st : scan_state) (ch : ascii) : bool :=
  negb (escape_next st) && negb (Ascii.eqb ch backslash)
  && negb (Ascii.eqb ch dquote) && negb (in_string st)
  && negb (Ascii.eqb ch o) && Ascii.eqb ch c && (depth st - 1 =? 0).

(** Started in state [st], the scanner meets at offset [k] of [rest] the
    character that closes the span. *)
Definition closes_from (o c : ascii) (st : scan_state) (rest : string) (k : nat)
  : Prop :=
  exists pre ch post,
    rest = pre +:+ String ch post /\ String.length pre = k /\
    closes o c (scan_run o c st pre) ch = true.

(** The character at offset [k] of [span] closes the span opened at offset 0. *)
Definition closes_at (o c : ascii) (span : string) (k : nat) : Prop :=
  closes_from o c scan_init span k.

Definition lbrace : ascii := "{"%char.
Definition rbrace : ascii := "}"%char.
Definition lbracket : ascii := "["%char.
Definition rbracket : ascii := "]"%char.

(** The offset of the first character of [rest] that closes the span, for
    a scanner started in state [st]; nothing when no character does. *)
Fixpoint first_close (o c : ascii) (st : scan_state) (rest : string)
  : option nat :=
  match rest with
  | EmptyString => None
  | String ch r =>
      if closes o c st ch then Some O
      else S <$> first_close o c (scan_step o c st ch) r
  end.

(** [text[i .. i + k]] is a balanced span: an opening delimiter stands at
    [i], and the scanner started there comes back to depth zero at offset
    [k] for the first time. *)
Definition balanced_at (o c : ascii) (text : string) (i k : nat) : Prop :=
  exists pre span,
    text = pre +:+ String o span /\ String.length pre = i /\
    closes_at o c (String o span) k /\
    forall k', (k' < k)%nat -> ~ closes_at o c (String o span) k'.

(** The first syntactically balanced span of [text]: a balanced span such
    that no balanced span starts before it. *)
Definition first_balanced (o c : ascii) (text : string) (i k : nat) : Prop :=
  balanced_at o c text i k
  /\ forall i' k', (i' < i)%nat -> ~ balanced_at o c text i' k'.

(** The span opened by the first opening delimiter of [text], wherever that
    character stands: [i] is the least index holding [o], and the scanner
    started there comes back to depth zero at offset [k] for the first
    time. *)
Definition first_open_span (o c : ascii) (text : string) (i k : nat) : Prop :=
  exists pre span,
    text = pre +:+ String o span /\ String.length pre = i /\
    find o pre = None /\
    closes_at o c (String o span) k /\
    forall k', (k' < k)%nat -> ~ closes_at o c (String o span) k'.

(** [i] is the least, respectively the greatest, index of [s] holding [c]. *)
Definition first_index (c : ascii) (s : string) (i : nat) : Prop :=
  exists pre post,
    s = pre +:+ String c post /\ String.length pre = i /\ find c pre = None.

Definition last_index (c : ascii) (s : string) (i : nat) : Prop :=
  exists pre post,
    s = pre +:+ String c post /\ String.length pre = i /\ find c post = None.

(** A decoded value kept only when it is a list; a decoder that raises,
    whatever it raises, gives nothing. *)
Definition as_array (v : decoded json) : option (list json) :=
  match v with
  | Decoded (JArr l) => Some l
  | _ => None
  end.

(** ** Section 4.6: the reranker's reconciliation policy *)

(** The ids of [ids] in order, each at its first mention only. *)
Fixpoint first_mentions (seen ids : list Z) : list Z :=
  match ids with
  | [] => []
  | i :: r =>
      if bool_decide (i ∈ seen) then first_mentions seen r
      else i :: first_mentions (i :: seen) r
  end.

(** An id is valid when it lies in [[1, keep_n]] and names a result. *)
Definition valid_id (keep_n : Z) (n : nat) (i : Z) : bool :=
  (1 <=? i) && (i <=? keep_n) && (i <=? Z.of_nat n).

(** The candidate with the 1-based id [i]. *)
Definition candidate_at {A} (candidates : list A) (i : Z) : option A :=
  candidates !! Z.to_nat (i - 1).

(** The reconciled order: the explicitly ranked candidates, then the
    candidates never mentioned in their original order, then the results
    beyond [keep_n]. *)
Definition reconcile (results : list RetrievalResult) (keep_n : Z)
    (order : list json) : list RetrievalResult :=
  let candidates := take (Z.to_nat keep_n) results in
  let ids := omap py_int order in
  let ranked :=
    first_mentions [] (List.filter (valid_id keep_n (length results)) ids) in
  (omap (candidate_at candidates) ranked
   ++ omap (fun ix : nat * RetrievalResult =>
              if bool_decide (Z.of_nat ix.1 + 1 ∈ ids) then None else Some ix.2)
           (imap pair candidates)
   ++ drop (Z.to_nat keep_n) results)%list.

(** ** Section 4.5: the merge of a decoded object over the defaults *)

(** The value of [key] in the decision, by the kind of the key. *)
Definition merged_field (d : gmap string json) (obj : list (string * json))
    (key : string) : option json :=
  if bool_decide (key ∈ RagRouting.bool_keys) then
    match RagRouting.obj_get obj key with
    | JBool b => Some (JBool b)
    | _ => d !! key
    end
  else if bool_decide (key ∈ RagRouting.str_keys) then
    match RagRouting.obj_get obj key with
    | JStr v => Some (if String.eqb (strip v) "" then JNull else JStr (strip v))
    | JNull => Some JNull
    | _ => d !! key
    end
  else d !! key.

End Spec.

(* ===================================================================== *)
(** * Concrete inputs *)
(* ===================================================================== *)

Module Inputs.
Import Py.

(** [s] between double quotes. *)
Definition quoted (s : string) : string :=
  String dquote (s +:+ String dquote EmptyString).

(** The two texts of section 8 for the object extractor. *)
Definition noisy_object : string :=
  "noise {" +:+ quoted "a" +:+ ": 1, " +:+ quoted "b" +:+ ": "
  +:+ quoted "x}y" +:+ "} trailing".

Definition malformed_object : string := "{" +:+ quoted "a" +:+ ": }".

(** A reply that holds two arrays. *)
Definition two_arrays : string := "[1] [2]".

(** A stray opening brace before an object. *)
Definition stray_brace : string := "{ {" +:+ quoted "a" +:+ ": 1}".

(** [n] times the character [c]. *)
Fixpoint repeated (n : nat) (c : ascii) : string :=
  match n with
  | O => EmptyString
  | S n' => String c (repeated n' c)
  end.

(** A decision whose [use_web] is an integer literal of 4301 digits, one
    more than [int] converts. *)
Definition long_integer_decision : string :=
  "{" +:+ quoted "use_web" +:+ ": " +:+ repeated 4301 "1" +:+ "}".

(** [s] with its double quotes and backslashes escaped, as inside a JSON
    string. *)
Fixpoint escaped (s : string) : string :=
  match s with
  | EmptyString => EmptyString
  | String c r =>
      if (Ascii.eqb c dquote || Ascii.eqb c backslash)%bool
      then String backslash (String c (escaped r))
      else String c (escaped r)
  end.

(** The body of a chat reply whose [message.content] is [content]. *)
Definition chat_body (content : string) : string :=
  "{" +:+ quoted "message" +:+ ": {" +:+ quoted "content" +:+ ": "
  +:+ quoted (escaped content) +:+ "}}".

Definition chat_reply (content : string) : Chat.http_result :=
  Chat.Response 200 (chat_body content).

(** A decision that only sets [use_web]. *)
Definition web_only_decision : string := "{" +:+ quoted "use_web" +:+ ": true}".

(** Three retrieved chunks, told apart by their ids. *)
Definition doc_result (n : Z) : Retrieval.RetrievalResult :=
  {| Retrieval.source_type := "doc";
     Retrieval.ref_id := "doc:" +:+ pretty n;
     Retrieval.chunk_id := n;
     Retrieval.title := None;
     Retrieval.url := None;
     Retrieval.domain := None;
     Retrieval.score := S754_zero false;
     Retrieval.text := "chunk";
     Retrieval.meta := ∅ |}.

Definition three_results : list Retrieval.RetrievalResult :=
  [doc_result 1; doc_result 2; doc_result 3].

(** ** A Kiwix site with two pages *)

Definition fminus_one : spec_float := S754_finite true 4503599627370496 (-52).

(** The embedding service of the example: the query [q] is embedded as
    [(1, 0)], every other text as [(-1, 0)]; one vector per text. *)
Definition sample_embed (texts : list string) (model : string)
  : list (list spec_float) :=
  map (fun t => if String.eqb t "q"
                then [VectorStore.fone; VectorStore.fzero]
                else [fminus_one; VectorStore.fzero]) texts.

(** Cosine similarity of two vectors, by the definition of section 4.1. *)
Definition sample_cosine (a b : list spec_float) : spec_float :=
  VectorStore.cosine a (VectorStore.norm_of a)
    {| VectorStore.chunk_id := 0; VectorStore.owner_id := EmptyString;
       VectorStore.chunk_index := 0; VectorStore.section_label := None;
       VectorStore.text := EmptyString; VectorStore.embedding := b;
       VectorStore.norm := VectorStore.norm_of b |}.

Definition sample_search (base q : string) (top_k : Z)
  : list Retrieval.SearchItem :=
  [ {| Retrieval.item_title := Some "A"; Retrieval.item_path := Some "/a";
       Retrieval.item_url := None |};
    {| Retrieval.item_title := Some "B"; Retrieval.item_path := Some "/b";
       Retrieval.item_url := None |} ].

(** Every page is served, with some text. *)
Definition fetch_all (base path : string) : option Retrieval.Page :=
  Some {| Retrieval.page_url := Some (base +:+ path);
          Retrieval.page_text := Some ("about " +:+ path) |}.

(** Only [/b] is served. *)
Definition fetch_second (base path : string) : option Retrieval.Page :=
  if String.eqb path "/b" then fetch_all base path else None.


(** A document store that numbers documents and returns no hit; a stand-in
    for the 48-bit digest of a URL; a serializer that is never looked at. *)
Definition sample_add_document (st : Z) (a : Retrieval.DocArgs) : Z * Z :=
  (st + 1, st + 1).

Definition sample_store_retrieve (st : Z) (q : string) (top_k : Z)
    (doc_ids : list Z) (model : string) : list Retrieval.Hit := [].

Fixpoint sample_url_hash_from (acc : Z) (u : string) : Z :=
  match u with
  | EmptyString => acc
  | String c r =>
      sample_url_hash_from ((acc * 257 + Z.of_nat (nat_of_ascii c)) mod 2 ^ 48) r
  end.

Definition sample_url_hash (u : string) : Z := sample_url_hash_from 0 u.

Definition sample_dumps (v : json) : string := EmptyString.

(** [KiwixRetrievalProvider("http://kiwix").retrieve(...)] on this site. *)
Definition sample_retrieve (fetch : string -> string -> option Retrieval.Page)
    (top_k : Z) (persist : bool)
  : exn (list Retrieval.RetrievalResult * Z) :=
  Retrieval.retrieve (list spec_float) (list spec_float) Z
    sample_search fetch sample_embed (fun e => e) sample_cosine "embed"
    sample_add_document sample_store_retrieve sample_dumps sample_url_hash
    (Retrieval.init_base_url (Some "http://kiwix/")) 0 "q" top_k None persist None.

(** ** The store of [test_retrieve_prefilter_unscoped_query_works]: one
    document of source [epub] in no group, with one chunk embedded as
    [(1, 0)]. *)
Definition hello_chunk : VectorStore.Chunk :=
  {| VectorStore.chunk_id := 1; VectorStore.owner_id := "1";
     VectorStore.chunk_index := 0; VectorStore.section_label := Some "s";
     VectorStore.text := "hello world";
     VectorStore.embedding := [VectorStore.fone; VectorStore.fzero];
     VectorStore.norm := VectorStore.fone |}.

Definition hello_store : VectorStore.Store :=
  {| VectorStore.owners :=
       {[ "1" := {| VectorStore.owner_group := None;
                    VectorStore.owner_source := Some "epub";
                    VectorStore.owner_weight := Some VectorStore.fone |} ]};
     VectorStore.chunks := [hello_chunk] |}.

(** A decision that rewrites the document query, with blanks around it. *)
Definition padded_decision : string :=
  "{" +:+ quoted "doc_query" +:+ ": " +:+ quoted "  tigers " +:+ "}".

(** A decision that sets [use_web] and adds a key outside the schema. *)
Definition chatty_decision : string :=
  "{" +:+ quoted "use_web" +:+ ": true, " +:+ quoted "mood" +:+ ": "
  +:+ quoted "curious" +:+ "}".

(** Defaults with all eight fields. *)
Definition full_defaults : gmap string json :=
  {[ "use_docs" := JBool true; "use_web" := JBool false;
     "use_kiwix" := JBool false; "doc_group" := JNull; "doc_source" := JNull;
     "doc_query" := JStr "cats"; "web_query" := JStr "cats";
     "kiwix_query" := JStr "cats" ]}.

(** Defaults that carry a document query. *)
Definition cats_defaults : gmap string json :=
  {[ "use_web" := JBool false; "doc_query" := JStr "cats" ]}.

End Inputs.

(* ===================================================================== *)
(** * retrieval.py: the document and web providers *)
(* ===================================================================== *)

Module Providers.
Import Py Retrieval.

(** A row returned by [ragstore.retrieve] to the document provider, read
    through the keys the provider uses. *)
Record DocHit : Type := mkDocHit {
  dh_chunk_id : Z;
  dh_title : option string;
  dh_filename : option string;
  dh_section : option string;
  dh_score : option spec_float;
  dh_text : option string;
  dh_doc_id : json;
  dh_chunk_index : json;
  dh_doc_weight : option json;
  dh_author : json;
  dh_path : json;
  dh_source : json
}.

(** A row returned by [webstore.retrieve]. *)
Record WebHit : Type := mkWebHit {
  wh_chunk_id : Z;
  wh_title : option string;
  wh_domain : option string;
  wh_url : option string;
  wh_score : option spec_float;
  wh_text : option string;
  wh_page_id : json;
  wh_chunk_index : json
}.

(** [float(h.get("score") or 0.0)] *)
Definition score_or_zero (f : option spec_float) : spec_float :=
  match f with
  | Some f => if float_is_zero f then S754_zero false else f
  | None => S754_zero false
  end.

(** [f"{x}"] for an optional string. *)
Definition format_opt (x : option string) : string :=
  match x with Some s => s | None => "None" end.

Section WithStores.

(** The two stores, which are not part of this file's sources, and the
    separator of the display title: a dash between two spaces, whose dash
    (U+2014) lies outside the alphabet of this model. *)
Variable doc_store_retrieve :
  string -> Z -> json -> json -> json -> option string -> json -> json -> list DocHit.
Variable web_store_retrieve : string -> Z -> json -> option string -> list WebHit.
Variable dash_separator : string.

(** One round of the loop of [DocRetrievalProvider.retrieve]. *)
Definition doc_item (h : DocHit) : RetrievalResult :=
  let doc_title := or_str (dh_title h) (dh_filename h) in
  let section := dh_section h in
  let display :=
    match section with
    | Some (String c r) =>
        Some (format_opt doc_title +:+ dash_separator +:+ String c r)
    | _ => doc_title
    end in
  {| source_type := "doc";
     ref_id := "doc:" +:+ pretty (dh_chunk_id h);
     chunk_id := dh_chunk_id h;
     title := display;
     url := None;
     domain := None;
     score := score_or_zero (dh_score h);
     text := str_or_empty (or_str (dh_text h) (Some EmptyString));
     meta := {[ "doc_id" := dh_doc_id h;
                "chunk_index" := dh_chunk_index h;
                "doc_weight" := default (JFloat VectorStore.fone) (dh_doc_weight h);
                "filename" := opt_json (dh_filename h);
                "title" := opt_json (dh_title h);
                "author" := dh_author h;
                "path" := dh_path h;
                "source" := dh_source h;
                "section" := opt_json (dh_section h) ]} |}.

(** [DocRetrievalProvider.retrieve(query, top_k, embed_model, doc_ids=...,
    use_mmr=..., mmr_lambda=..., group_name=..., source=...)]; an absent
    keyword argument is [None], except [mmr_lambda], which defaults to 0.75. *)
Definition doc_retrieve (query : string) (top_k : Z) (embed_model : option string)
    (doc_ids use_mmr : json) (mmr_lambda : option json) (group_name source : json)
  : list RetrievalResult :=
  let mmr_lambda :=
    default (JFloat (S754_finite false 6755399441055744 (-53))) mmr_lambda in
  let hits :=
    doc_store_retrieve query top_k doc_ids group_name source embed_model
      use_mmr mmr_lambda in
  map doc_item hits.

(** One round of the loop of [WebRetrievalProvider.retrieve]. *)
Definition web_item (h : WebHit) : RetrievalResult :=
  {| source_type := "web";
     ref_id := "web:" +:+ pretty (wh_chunk_id h);
     chunk_id := wh_chunk_id h;
     title := or_str (wh_title h) (wh_domain h);
     url := wh_url h;
     domain := wh_domain h;
     score := score_or_zero (wh_score h);
     text := str_or_empty (or_str (wh_text h) (Some EmptyString));
     meta := {[ "page_id" := wh_page_id h;
                "chunk_index" := wh_chunk_index h ]} |}.

(** [WebRetrievalProvider.retrieve(query, top_k, embed_model,
    domain_whitelist=...)] *)
Definition web_retrieve (query : string) (top_k : Z) (embed_model : option string)
    (domain_whitelist : json) : list RetrievalResult :=
  let hits := web_store_retrieve query top_k domain_whitelist embed_model in
  map web_item hits.

End WithStores.
End Providers.

(* ===================================================================== *)
(** * rerank.py: the candidate list shown to the model *)
(* ===================================================================== *)

Module RerankPrompt.
Import Py Retrieval.

(** One round of the loop [for idx, r in enumerate(candidates, start=1)]:
    the dict appended to [items]. *)
Definition candidate_item (idx : Z) (r : RetrievalResult) : list (string * json) :=
  [ ("id", JInt idx);
    ("source_type", JStr (source_type r));
    ("title", opt_json (title r));
    ("url", opt_json (url r));
    ("domain", opt_json (domain r));
    ("score", JFloat (score r));
    ("text", JStr (str_take 1200 (str_or_empty (or_str (Some (text r)) (Some EmptyString))))) ].

(** [items], as [rerank_results] builds it from [results] and [keep_n]. *)
Definition candidate_items (results : list RetrievalResult) (keep_n : Z)
  : list (list (string * json)) :=
  let keep_n := Z.max 1 (Z.min keep_n (Z.of_nat (length results))) in
  let candidates := take (Z.to_nat keep_n) results in
  map (fun ir : Z * RetrievalResult => candidate_item ir.1 ir.2)
      (Rerank.enumerate1 candidates).

End RerankPrompt.

(* ===================================================================== *)
(** * Notions used to state further properties *)
(* ===================================================================== *)

Module Facts.
Import Py Retrieval.

(** The candidates of [l], numbered from [o + 1], whose id [S] rejects. *)
Fixpoint unpicked (o : nat) (S : Z -> bool) (l : list RetrievalResult)
  : list RetrievalResult :=
  match l with
  | [] => []
  | x :: l' =>
      if S (Z.of_nat o + 1) then unpicked (Datatypes.S o) S l'
      else x :: unpicked (Datatypes.S o) S l'
  end.

(** [s] consists of blanks only. *)
Fixpoint all_space (s : string) : bool :=
  match s with
  | EmptyString => true
  | String c r => isspace c && all_space r
  end.

Definition first_char (s : string) : option ascii :=
  match s with
  | String c _ => Some c
  | EmptyString => None
  end.

Fixpoint last_char (s : string) : option ascii :=
  match s with
  | EmptyString => None
  | String c EmptyString => Some c
  | String _ r => last_char r
  end.

(** [s] neither starts nor ends with a blank. *)
Definition trimmed (s : string) : Prop :=
  (forall c, first_char s = Some c -> isspace c = false)
  /\ (forall c, last_char s = Some c -> isspace c = false).

(** The object that [route_rag] merges, if it reaches the merge at all. *)
Definition merged_object (loads : string -> decoded json) (query : string)
    (resp : Chat.http_result) (max_size : Z) : option (list (string * json)) :=
  if String.eqb (strip query) "" then None
  else
    match Chat.chat_content loads resp with
    | Raise => None
    | Ok content =>
        match RagRouting._json_obj_from_text loads content max_size with
        | Ok (Some (JObj obj)) => Some obj
        | _ => None
        end
    end.

(** A dict that is a complete route decision: the three flags are
    booleans, the five text fields are strings or null. *)
Definition route_decision (d : gmap string json) : Prop :=
  (forall key, key ∈ RagRouting.bool_keys -> exists b, d !! key = Some (JBool b))
  /\ (forall key, key ∈ RagRouting.str_keys ->
         d !! key = Some JNull \/ exists s, d !! key = Some (JStr s)).

(** The score of [x] is not below the score of [y]. *)
Definition not_below (x y : RetrievalResult) : Prop :=
  SFltb (score x) (score y) = false.

(** A result is source-qualified: its [ref_id] is its source type, a colon
    and its chunk id in decimal. *)
Definition source_qualified (r : RetrievalResult) : Prop :=
  (source_type r = "doc" \/ source_type r = "web" \/ source_type r = "kiwix")
  /\ ref_id r = source_type r +:+ ":" +:+ pretty (chunk_id r).

(** [s] consists of the character [c] only. *)
Fixpoint all_char (c : ascii) (s : string) : bool :=
  match s with
  | EmptyString => true
  | String d r => Ascii.eqb d c && all_char c r
  end.

(** The store and the ids after adding the documents [docs] in turn. *)
Fixpoint run_adds {store : Type} (add_document : store -> DocArgs -> Z * store)
    (st : store) (docs : list DocArgs) : store * list Z :=
  match docs with
  | [] => (st, [])
  | a :: docs' =>
      let '(doc_id, st1) := add_document st a in
      let '(st2, ids) := run_adds add_document st1 docs' in
      (st2, doc_id :: ids)
  end.

(** A document as the Kiwix provider ingests it. *)
Definition kiwix_document (embed_model : string) (a : DocArgs) : Prop :=
  da_group_name a = "kiwix" /\ da_source a = "kiwix"
  /\ da_embed_model a = embed_model
  /\ da_text a <> "" /\ trimmed (da_text a)
  /\ da_filename a = "kiwix:" +:+ da_title a.

(** The number of candidates [rerank_results] works on. *)
Definition clamped (results : list RetrievalResult) (keep_n : Z) : nat :=
  Z.to_nat (Z.max 1 (Z.min keep_n (Z.of_nat (length results)))).

End Facts.

(* ===================================================================== *)
(** * Concrete inputs for the providers *)
(* ===================================================================== *)

Module ProviderInputs.
Import Py Retrieval Providers.

(** A document store and a page store that each return one chunk, both
    numbered 7. *)
Definition sample_doc_store (query : string) (top_k : Z)
    (doc_ids group_name source : json) (embed_model : option string)
    (use_mmr mmr_lambda : json) : list DocHit :=
  [ {| dh_chunk_id := 7; dh_title := Some "Felidae"; dh_filename := Some "cats.epub";
       dh_section := Some "Lions"; dh_score := Some VectorStore.fone;
       dh_text := Some "about lions"; dh_doc_id := JInt 1;
       dh_chunk_index := JInt 0; dh_doc_weight := None; dh_author := JNull;
       dh_path := JNull; dh_source := JStr "epub" |} ].

Definition sample_web_store (query : string) (top_k : Z)
    (domain_whitelist : json) (embed_model : option string) : list WebHit :=
  [ {| wh_chunk_id := 7; wh_title := None; wh_domain := Some "example.org";
       wh_url := Some "http://example.org/lions"; wh_score := None;
       wh_text := Some "lions on the web"; wh_page_id := JInt 3;
       wh_chunk_index := JInt 0 |} ].

End ProviderInputs.

(* ===================================================================== *)
(** * Strings: auxiliary facts *)
(* ===================================================================== *)

Section StringFacts.
Import Py.

Lemma append_cons (c : ascii) (s t : string) :
  String c s +:+ t = String c (s +:+ t).
Proof. reflexivity. Qed.

Lemma append_nil_l (t : string) : "" +:+ t = t.
Proof. reflexivity. Qed.

Lemma append_nil_r (s : string) : s +:+ "" = s.
Proof. induction s as [|c s IH]; rewrite ?append_cons, ?append_nil_l; simpl; [reflexivity | now rewrite IH]. Qed.

Lemma append_assoc (a b c : string) : (a +:+ b) +:+ c = a +:+ (b +:+ c).
Proof. induction a as [|x a IH]; rewrite ?append_cons, ?append_nil_l; simpl; [reflexivity | now rewrite IH]. Qed.

Lemma length_append (a b : string) :
  String.length (a +:+ b) = (String.length a + String.length b)%nat.
Proof. induction a as [|x a IH]; rewrite ?append_cons, ?append_nil_l; simpl; [reflexivity | now rewrite IH]. Qed.

Lemma str_drop_append (a b : string) : str_drop (String.length a) (a +:+ b) = b.
Proof. induction a as [|x a IH]; rewrite ?append_cons, ?append_nil_l; simpl; [now destruct b | exact IH]. Qed.

Lemma str_take_append (a b : string) : str_take (String.length a) (a +:+ b) = a.
Proof. induction a as [|x a IH]; rewrite ?append_cons, ?append_nil_l; simpl; [now destruct b | now rewrite IH]. Qed.

Lemma slice_incl_append (pre span : string) (k : nat) :
  slice_incl (String.length pre) (String.length pre + k) (pre +:+ span)
  = str_take (S k) span.
Proof.
  unfold slice_incl. rewrite str_drop_append.
  replace (S (String.length pre + k) - String.length pre)%nat with (S k) by lia.
  reflexivity.
Qed.

Lemma find_append_first (c : ascii) (pre post : string) :
  find c pre = None ->
  find c (pre +:+ String c post) = Some (String.length pre).
Proof.
  induction pre as [|x pre IH]; rewrite ?append_cons, ?append_nil_l; simpl.
  - intros _. now rewrite Ascii.eqb_refl.
  - destruct (Ascii.eqb x c); [discriminate|].
    destruct (find c pre); [discriminate|]. intros _. now rewrite IH.
Qed.

Lemma find_none_append (c : ascii) (a b : string) :
  find c (a +:+ b) = None -> find c a = None /\ find c b = None.
Proof.
  induction a as [|x a IH]; rewrite ?append_cons, ?append_nil_l; simpl; [now split|].
  destruct (Ascii.eqb x c); [discriminate|].
  destruct (find c (a +:+ b)) eqn:E; [discriminate|].
  intros _. destruct (IH eq_refl) as [-> ?]. now split.
Qed.

Lemma find_some_split (c : ascii) (s : string) (i : nat) :
  find c s = Some i ->
  exists pre post, s = pre +:+ String c post /\ String.length pre = i
                   /\ find c pre = None.
Proof.
  revert i. induction s as [|x s IH]; rewrite ?append_cons, ?append_nil_l; simpl; [discriminate|]. intros i.
  destruct (Ascii.eqb x c) eqn:E.
  - apply Ascii.eqb_eq in E. subst x. intros [= <-]. now exists "", s.
  - destruct (find c s) as [j|] eqn:F; rewrite ?append_cons, ?append_nil_l; simpl; [|discriminate]. intros [= <-].
    destruct (IH j eq_refl) as (pre & post & -> & <- & Hn).
    exists (String x pre), post. rewrite ?append_cons, ?append_nil_l; simpl. rewrite E, Hn. now repeat split.
Qed.

Lemma rfind_append_last (c : ascii) (pre post : string) :
  find c post = None ->
  rfind c (pre +:+ String c post) = Some (String.length pre).
Proof.
  intros Hpost.
  assert (Hr : rfind c post = None).
  { clear pre. induction post as [|x post IH]; rewrite ?append_cons, ?append_nil_l in *; simpl in *; [reflexivity|].
    destruct (Ascii.eqb x c); [discriminate|].
    destruct (find c post); [discriminate|]. now rewrite IH. }
  induction pre as [|x pre IH]; rewrite ?append_cons, ?append_nil_l; simpl.
  - now rewrite Hr, Ascii.eqb_refl.
  - now rewrite IH.
Qed.

Lemma rfind_none_find (c : ascii) (s : string) :
  rfind c s = None <-> find c s = None.
Proof.
  induction s as [|x s IH]; rewrite ?append_cons, ?append_nil_l; simpl; [tauto|].
  destruct (rfind c s), (find c s), (Ascii.eqb x c); rewrite ?append_cons, ?append_nil_l; simpl;
    try tauto; split; try discriminate; intros _;
    try (destruct IH as [H1 H2]; (now specialize (H1 eq_refl)) || (now specialize (H2 eq_refl))).
Qed.

End StringFacts.

(* ===================================================================== *)
(** * The object extractor against the scanner of section 4.4 *)
(* ===================================================================== *)

Section ObjectExtractor.
Import Py RagRouting Spec.
Variable loads : string -> decoded json.

(** One round of the inner loop is one step of the scanner. *)
Lemma scan_span_unfold s i ch rest j stop d ins esc :
  Z.of_nat j < stop ->
  scan_span loads s i (String ch rest) j stop d ins esc =
  if closes lbrace rbrace (mkScan d ins esc) ch
  then loads_or_none loads (slice_incl i j s)
  else
    let st' := scan_step lbrace rbrace (mkScan d ins esc) ch in
    scan_span loads s i rest (S j) stop (depth st') (in_string st') (escape_next st').
Proof.
  intros Hj. cbn [scan_span].
  replace (Z.of_nat j <? stop) with true by (symmetry; apply Z.ltb_lt; lia).
  unfold closes, scan_step, lbrace, rbrace; cbn [depth in_string escape_next].
  destruct esc; [reflexivity|].
  destruct (Ascii.eqb ch backslash) eqn:E1; [reflexivity|].
  destruct (Ascii.eqb ch dquote) eqn:E2; [reflexivity|].
  destruct ins; [reflexivity|].
  destruct (Ascii.eqb ch "{") eqn:E3; [reflexivity|].
  destruct (Ascii.eqb ch "}") eqn:E4; cbn; [|reflexivity].
  destruct (d - 1 =? 0); reflexivity.
Qed.

Lemma closes_from_head o c st ch rest :
  closes_from o c st (String ch rest) 0 <-> closes o c st ch = true.
Proof.
  split.
  - intros (pre & x & post & E & L & H). destruct pre; [|discriminate].
    rewrite append_nil_l in E. injection E as -> ->. exact H.
  - intros H. exists "", ch, rest. now repeat split.
Qed.

Lemma closes_from_tail o c st ch rest k :
  closes_from o c st (String ch rest) (S k)
  <-> closes_from o c (scan_step o c st ch) rest k.
Proof.
  split.
  - intros (pre & y & post & E & L & H). destruct pre as [|x pre]; [discriminate|].
    rewrite append_cons in E. injection E as -> ->. injection L as L.
    exists pre, y, post. now repeat split.
  - intros (pre & y & post & -> & L & H).
    exists (String ch pre), y, post. rewrite append_cons. cbn. now rewrite L.
Qed.

(** [first_close] computes the first closing offset. *)
Lemma first_close_some o c : forall rest st k,
  first_close o c st rest = Some k ->
  closes_from o c st rest k
  /\ forall k', (k' < k)%nat -> ~ closes_from o c st rest k'.
Proof.
  induction rest as [|ch rest IH]; intros st k H; [discriminate|].
  cbn [first_close] in H. destruct (closes o c st ch) eqn:Hc.
  - injection H as <-. split; [now apply closes_from_head | lia].
  - destruct (first_close o c (scan_step o c st ch) rest) as [k0|] eqn:F;
      [|discriminate].
    injection H as <-. destruct (IH _ _ F) as [Hk Hmin]. split.
    + now apply closes_from_tail.
    + intros [|k'] Hlt Hk'.
      * apply closes_from_head in Hk'. congruence.
      * apply closes_from_tail in Hk'. apply (Hmin k'); [lia | exact Hk'].
Qed.

Lemma first_close_none o c : forall rest st,
  first_close o c st rest = None -> forall k, ~ closes_from o c st rest k.
Proof.
  induction rest as [|ch rest IH]; intros st H k Hk.
  - destruct Hk as (pre & y & post & E & _). destruct pre; discriminate.
  - cbn [first_close] in H. destruct (closes o c st ch) eqn:Hc; [discriminate|].
    destruct (first_close o c (scan_step o c st ch) rest) eqn:F; [discriminate|].
    destruct k as [|k].
    + apply closes_from_head in Hk. congruence.
    + apply closes_from_tail in Hk. exact (IH _ F k Hk).
Qed.

(** The loop returns the decoding of the span that ends at the first closing
    character. *)
Lemma scan_span_closes s i stop : forall rest st j k,
  Z.of_nat (j + String.length rest) <= stop ->
  closes_from lbrace rbrace st rest k ->
  (forall k', (k' < k)%nat -> ~ closes_from lbrace rbrace st rest k') ->
  scan_span loads s i rest j stop (depth st) (in_string st) (escape_next st)
  = loads_or_none loads (slice_incl i (j + k) s).
Proof.
  induction rest as [|ch rest IH]; intros st j k Hlen Hk Hmin.
  - destruct Hk as (pre & c & post & E & _). destruct pre; discriminate.
  - cbn [String.length] in Hlen. destruct st as [d ins esc].
    cbn [depth in_string escape_next].
    rewrite scan_span_unfold by lia. destruct k as [|k].
    + apply closes_from_head in Hk. rewrite Hk. now rewrite Nat.add_0_r.
    + destruct (closes lbrace rbrace (mkScan d ins esc) ch) eqn:Hc.
      * exfalso. apply (Hmin 0%nat); [lia|]. now apply closes_from_head.
      * cbv zeta. rewrite (IH _ (S j) k).
        -- f_equal. f_equal. lia.
        -- lia.
        -- now apply closes_from_tail.
        -- intros k' Hk' H. apply (Hmin (S k')); [lia|]. now apply closes_from_tail.
Qed.

(** The loop gives up when no character closes the span. *)
Lemma scan_span_open s i stop : forall rest st j,
  Z.of_nat (j + String.length rest) <= stop ->
  (forall k, ~ closes_from lbrace rbrace st rest k) ->
  scan_span loads s i rest j stop (depth st) (in_string st) (escape_next st)
  = Ok None.
Proof.
  induction rest as [|ch rest IH]; intros st j Hlen Hno; [reflexivity|].
  cbn [String.length] in Hlen. destruct st as [d ins esc].
  cbn [depth in_string escape_next].
  rewrite scan_span_unfold by lia.
  destruct (closes lbrace rbrace (mkScan d ins esc) ch) eqn:Hc.
  - exfalso. apply (Hno 0%nat). now apply closes_from_head.
  - cbv zeta. apply IH; [lia|]. intros k H. apply (Hno (S k)).
    now apply closes_from_tail.
Qed.

(** The outer loop stops at the first opening brace. *)
Lemma scan_from_first s max_size : forall pre i span,
  find lbrace pre = None ->
  scan_from loads s (pre +:+ String lbrace span) i max_size
  = scan_span loads s (i + String.length pre) (String lbrace span)
      (i + String.length pre) (Z.min (len s) (Z.of_nat (i + String.length pre) + max_size))
      0 false false.
Proof.
  induction pre as [|x pre IH]; intros i span Hn.
  - rewrite append_nil_l. cbn [scan_from String.length]. unfold lbrace.
    rewrite Ascii.eqb_refl. cbn [negb]. now rewrite Nat.add_0_r.
  - rewrite append_cons. cbn [scan_from String.length]. cbn [find] in Hn.
    unfold lbrace in *. destruct (Ascii.eqb x "{"); [discriminate|]. cbn [negb].
    destruct (find "{" pre) eqn:F; [discriminate|].
    rewrite (IH (S i) span eq_refl). now replace (S i + String.length pre)%nat
      with (i + S (String.length pre))%nat by lia.
Qed.

Lemma scan_from_none s max_size : forall rest i,
  find lbrace rest = None -> scan_from loads s rest i max_size = Ok None.
Proof.
  induction rest as [|x rest IH]; intros i Hn; [reflexivity|].
  cbn [scan_from]. cbn [find] in Hn. unfold lbrace in *.
  destruct (Ascii.eqb x "{"); [discriminate|]. cbn [negb].
  destruct (find "{" rest) eqn:F; [discriminate|]. now apply IH.
Qed.

(** Either some character closes the span, and then there is a first one, or
    none does. *)
Lemma closes_from_first_or_never : forall rest st,
  (exists k, closes_from lbrace rbrace st rest k
             /\ forall k', (k' < k)%nat -> ~ closes_from lbrace rbrace st rest k')
  \/ (forall k, ~ closes_from lbrace rbrace st rest k).
Proof.
  induction rest as [|ch rest IH]; intros st.
  - right. intros k (pre & c & post & E & _). destruct pre; discriminate.
  - destruct (closes lbrace rbrace st ch) eqn:Hc.
    + left. exists 0%nat. split; [now apply closes_from_head | lia].
    + destruct (IH (scan_step lbrace rbrace st ch)) as [(k & Hk & Hmin) | Hno].
      * left. exists (S k). split; [now apply closes_from_tail|].
        intros [|k'] Hlt H.
        -- apply closes_from_head in H. congruence.
        -- apply closes_from_tail in H. apply (Hmin k'); [lia | exact H].
      * right. intros [|k] H.
        -- apply closes_from_head in H. congruence.
        -- apply closes_from_tail in H. now apply (Hno k).
Qed.

Lemma obj_from_text_guard text max_size :
  text = "" \/ max_size < len text ->
  _json_obj_from_text loads text max_size = Ok None.
Proof.
  unfold _json_obj_from_text. intros [-> | H]; [reflexivity|].
  replace (max_size <? len text) with true by (symmetry; apply Z.ltb_lt; lia).
  now rewrite orb_true_r.
Qed.

Lemma obj_from_text_scan text max_size :
  text <> "" -> len text <= max_size ->
  _json_obj_from_text loads text max_size = scan_from loads text text 0 max_size.
Proof.
  unfold _json_obj_from_text. intros Hne Hlen.
  replace (max_size <? len text) with false by (symmetry; apply Z.ltb_ge; lia).
  destruct (String.eqb text "") eqn:E; [|reflexivity].
  apply String.eqb_eq in E. contradiction.
Qed.

(** Within the size cap, the extractor hands the decoder the span opened by
    the first brace of the text. *)
Lemma obj_from_text_balanced text max_size i k :
  len text <= max_size ->
  first_open_span lbrace rbrace text i k ->
  _json_obj_from_text loads text max_size
  = loads_or_none loads (slice_incl i (i + k) text).
Proof.
  intros Hlen (pre & span & -> & <- & Hpre & Hk & Hmin).
  rewrite obj_from_text_scan; [|now destruct pre|exact Hlen].
  rewrite scan_from_first by exact Hpre. cbn [Nat.add].
  unfold len in *. rewrite length_append in Hlen.
  rewrite (scan_span_closes _ _ _ _ scan_init _ k); [reflexivity| |exact Hk|exact Hmin].
  rewrite length_append. lia.
Qed.

(** When the first brace opens no span that closes, or there is no brace,
    the extractor returns nothing. *)
Lemma obj_from_text_unbalanced text max_size :
  (forall i k, ~ first_open_span lbrace rbrace text i k) ->
  _json_obj_from_text loads text max_size = Ok None.
Proof.
  intros Hno.
  destruct (String.eqb text "") eqn:E0.
  { apply String.eqb_eq in E0. apply obj_from_text_guard. now left. }
  destruct (Z.ltb max_size (len text)) eqn:E1.
  { apply Z.ltb_lt in E1. apply obj_from_text_guard. now right. }
  apply Z.ltb_ge in E1. apply String.eqb_neq in E0.
  rewrite obj_from_text_scan by assumption.
  destruct (find lbrace text) as [i|] eqn:F.
  - destruct (find_some_split _ _ _ F) as (pre & span & -> & <- & Hpre).
    rewrite scan_from_first by exact Hpre. cbn [Nat.add].
    destruct (closes_from_first_or_never (String lbrace span) scan_init)
      as [(k & Hk & Hmin) | Hnever].
    + exfalso. apply (Hno (String.length pre) k). now exists pre, span.
    + apply (scan_span_open _ _ _ _ scan_init); [|exact Hnever].
      unfold len in *. rewrite length_append in *. lia.
  - now apply scan_from_none.
Qed.

(** Beyond the length of the text the size cap plays no role. *)
Lemma obj_from_text_cap text m1 m2 :
  len text <= m1 -> len text <= m2 ->
  _json_obj_from_text loads text m1 = _json_obj_from_text loads text m2.
Proof.
  intros H1 H2.
  destruct (String.eqb text "") eqn:E0.
  { apply String.eqb_eq in E0. subst. reflexivity. }
  apply String.eqb_neq in E0.
  destruct (find lbrace text) as [i|] eqn:F.
  - destruct (find_some_split _ _ _ F) as (pre & span & E & <- & Hpre).
    destruct (closes_from_first_or_never (String lbrace span) scan_init)
      as [(k & Hk & Hmin) | Hnever].
    + assert (Hb : first_open_span lbrace rbrace text (String.length pre) k)
        by now exists pre, span.
      rewrite (obj_from_text_balanced _ _ _ _ H1 Hb).
      now rewrite (obj_from_text_balanced _ _ _ _ H2 Hb).
    + assert (Hno : forall i k, ~ first_open_span lbrace rbrace text i k).
      { intros i k (pre' & span' & E' & <- & Hpre' & Hk' & _).
        assert (String.length pre' = String.length pre).
        { pose proof (find_append_first lbrace pre span Hpre) as P1.
          pose proof (find_append_first lbrace pre' span' Hpre') as P2.
          rewrite <- E in P1. rewrite <- E' in P2. congruence. }
        assert (Hs : String lbrace span' = String lbrace span).
        { pose proof (str_drop_append pre' (String lbrace span')) as D1.
          pose proof (str_drop_append pre (String lbrace span)) as D2.
          rewrite <- E' in D1. rewrite <- E in D2. congruence. }
        apply (Hnever k). rewrite <- Hs. exact Hk'. }
      now rewrite !obj_from_text_unbalanced.
  - rewrite !obj_from_text_scan by assumption.
    now rewrite !scan_from_none.
Qed.

End ObjectExtractor.

(* ===================================================================== *)
(** * The array extractor *)
(* ===================================================================== *)

Section ArrayExtractor.
Import Py Rerank Spec.
Variable loads : string -> decoded json.

Lemma first_index_find c s i : first_index c s i <-> find c s = Some i.
Proof.
  split.
  - intros (pre & post & -> & <- & H). now apply find_append_first.
  - intros H. destruct (find_some_split _ _ _ H) as (pre & post & ? & ? & ?).
    now exists pre, post.
Qed.

Lemma last_index_rfind c s i : last_index c s i -> rfind c s = Some i.
Proof. intros (pre & post & -> & <- & H). now apply rfind_append_last. Qed.

(** The array extractor decodes the text between the first opening bracket
    and the last closing bracket of the stripped text. *)
Lemma extract_array_span text a b :
  first_index lbracket (strip text) a ->
  last_index rbracket (strip text) b ->
  (a < b)%nat ->
  _extract_json_array loads text
  = as_array (loads (slice_incl a b (strip text))).
Proof.
  intros Ha Hb Hab. unfold _extract_json_array.
  apply first_index_find in Ha. apply last_index_rfind in Hb.
  unfold lbracket, rbracket in *. rewrite Ha, Hb.
  destruct (String.eqb (strip text) "") eqn:E.
  { apply String.eqb_eq in E. rewrite E in Ha. discriminate. }
  replace (b <=? a)%nat with false by (symmetry; apply Nat.leb_gt; lia).
  unfold as_array. now destruct (loads _) as [[]| |].
Qed.

(** In every other case it returns nothing. *)
Lemma extract_array_none text :
  (forall a, ~ first_index lbracket (strip text) a)
  \/ (forall b, ~ last_index rbracket (strip text) b)
  \/ (exists a b, first_index lbracket (strip text) a
                  /\ last_index rbracket (strip text) b /\ (b <= a)%nat) ->
  _extract_json_array loads text = None.
Proof.
  unfold _extract_json_array. intros H.
  destruct (String.eqb (strip text) ""); [reflexivity|].
  destruct H as [H | [H | (a & b & Ha & Hb & Hab)]].
  - destruct (find "[" (strip text)) as [a|] eqn:F; [|reflexivity].
    exfalso. apply (H a). now apply first_index_find.
  - destruct (rfind "]" (strip text)) as [b|] eqn:F.
    + exfalso.
      assert (Hb : exists b', last_index rbracket (strip text) b').
      { clear -F. revert b F. induction (strip text) as [|x s IH]; intros b F.
        - discriminate.
        - cbn [rfind] in F. destruct (rfind "]" s) as [k|] eqn:R.
          + destruct (IH k eq_refl) as (b' & pre & post & -> & <- & Hp).
            exists (S (String.length pre)), (String x pre), post.
            now rewrite append_cons.
          + destruct (Ascii.eqb x "]") eqn:E; [|discriminate].
            apply Ascii.eqb_eq in E. subst x. exists 0%nat, "", s.
            rewrite append_nil_l. repeat split. now apply rfind_none_find. }
      destruct Hb as (b' & Hb'). now apply (H b').
    + now destruct (find "[" (strip text)).
  - apply first_index_find in Ha. apply last_index_rfind in Hb.
    unfold lbracket, rbracket in *. rewrite Ha, Hb.
    now replace (b <=? a)%nat with true by (symmetry; apply Nat.leb_le; lia).
Qed.

End ArrayExtractor.

(* ===================================================================== *)
(** * Claims about the extractors *)
(* ===================================================================== *)

Section ExtractorClaims.
Import Py RagRouting Rerank Spec Inputs.

(** The span opened by the first opening delimiter, when it closes, is the
    first balanced span of the text. *)
Lemma first_open_span_first_balanced o c text i k :
  first_open_span o c text i k -> first_balanced o c text i k.
Proof.
  intros (pre & span & E & L & Hpre & Hk & Hmin). split.
  - now exists pre, span.
  - intros i' k' Hi' (pre' & span' & E' & L' & _).
    assert (Hf : find o text = Some i) by (subst; now apply find_append_first).
    assert (Hlt : forall p q t, text = p +:+ String o q -> String.length p = t ->
              exists j, find o text = Some j /\ (j <= t)%nat).
    { clear. intros p. revert text. induction p as [|x p IH]; intros text q t -> <-.
      - rewrite append_nil_l. cbn [find]. rewrite Ascii.eqb_refl.
        exists 0%nat. split; [reflexivity | lia].
      - rewrite append_cons. cbn [find String.length].
        destruct (Ascii.eqb x o); [exists 0%nat; split; [reflexivity | lia]|].
        destruct (IH _ q _ eq_refl eq_refl) as (j & -> & Hj).
        exists (S j). split; [reflexivity | lia]. }
    destruct (Hlt _ _ _ E' L') as (j & Hj & Hle). rewrite Hf in Hj.
    injection Hj as <-. lia.
Qed.

(** Claim C4, as amended.  For every decoder and text: the object extractor
    returns nothing on an empty text or one longer than the size cap.
    Otherwise it looks at one span only, the one opened by the first brace
    character of the text, wherever that brace stands, and closed by the
    first brace that brings the scanner back to depth zero (braces inside
    double quotes and characters after a backslash are passed over): it
    returns the decoding of that span, nothing when the decoder rejects the
    span with [JSONDecodeError], and nothing when the text has no brace or
    the first brace opens no span that closes; no later brace is tried.
    When that span exists it is the first balanced span of the text.  The
    array extractor does not scan for balance: it decodes the stripped text
    from its first opening bracket to its last closing bracket, keeps the
    value when it is a list, and returns nothing in every other case. *)
Theorem extraction_spans (loads : string -> decoded json) (text : string) :
  (forall max_size, text = "" \/ max_size < len text ->
     _json_obj_from_text loads text max_size = Ok None)
  /\ (forall max_size i k v, len text <= max_size ->
        first_open_span lbrace rbrace text i k ->
        loads (slice_incl i (i + k) text) = Decoded v ->
        _json_obj_from_text loads text max_size = Ok (Some v))
  /\ (forall max_size i k, len text <= max_size ->
        first_open_span lbrace rbrace text i k ->
        loads (slice_incl i (i + k) text) = JSONDecodeError ->
        _json_obj_from_text loads text max_size = Ok None)
  /\ (forall max_size, (forall i k, ~ first_open_span lbrace rbrace text i k) ->
        _json_obj_from_text loads text max_size = Ok None)
  /\ (forall i k, first_open_span lbrace rbrace text i k ->
        first_balanced lbrace rbrace text i k)
  /\ (forall a b, first_index lbracket (strip text) a ->
        last_index rbracket (strip text) b -> (a < b)%nat ->
        _extract_json_array loads text
        = as_array (loads (slice_incl a b (strip text))))
  /\ ((forall a, ~ first_index lbracket (strip text) a)
      \/ (forall b, ~ last_index rbracket (strip text) b)
      \/ (exists a b, first_index lbracket (strip text) a
                      /\ last_index rbracket (strip text) b /\ (b <= a)%nat) ->
      _extract_json_array loads text = None).
Proof.
  split; [|split; [|split; [|split; [|split; [|split]]]]].
  - intros. now apply obj_from_text_guard.
  - intros max_size i k v Hlen Hspan Hv.
    rewrite (obj_from_text_balanced loads _ _ _ _ Hlen Hspan).
    unfold loads_or_none. now rewrite Hv.
  - intros max_size i k Hlen Hspan Hv.
    rewrite (obj_from_text_balanced loads _ _ _ _ Hlen Hspan).
    unfold loads_or_none. now rewrite Hv.
  - intros. now apply obj_from_text_unbalanced.
  - intros i k. apply first_open_span_first_balanced.
  - intros. now apply extract_array_span.
  - intros. now apply extract_array_none.
Qed.

(** The spans of the example texts, by running the scanner. *)
Lemma first_open_span_compute o c text pre span k :
  text = pre +:+ String o span ->
  find o pre = None ->
  first_close o c scan_init (String o span) = Some k ->
  first_open_span o c text (String.length pre) k.
Proof.
  intros E Hpre Hk. destruct (first_close_some _ _ _ _ _ Hk) as [H1 H2].
  now exists pre, span.
Qed.

Lemma two_arrays_first_span : first_balanced lbracket rbracket two_arrays 0 2.
Proof.
  apply first_open_span_first_balanced.
  now apply (first_open_span_compute _ _ _ "" "1] [2]").
Qed.

(** In [{ {"a": 1}] the first brace never closes, and the span of the second
    one is the first balanced span. *)
Lemma stray_brace_first_span : first_balanced lbrace rbrace stray_brace 2 7.
Proof.
  split.
  - destruct (first_close_some lbrace rbrace
                (String lbrace (quoted "a" +:+ ": 1}")) scan_init 7 eq_refl)
      as [H1 H2].
    now exists "{ ", (quoted "a" +:+ ": 1}").
  - intros i' k' Hi' (pre & span & E & L & Hk & _).
    destruct pre as [|x [|y pre]]; cbn [String.length] in L.
    + rewrite append_nil_l in E.
      refine (first_close_none lbrace rbrace stray_brace scan_init eq_refl k' _).
      rewrite E. exact Hk.
    + vm_compute in E. discriminate E.
    + lia.
Qed.

(** Claim C4, counterexample.  On the reply [[1] [2]] the first balanced
    bracket span is [[1]], which decodes to the list [1], yet the array
    extractor returns nothing: it hands the decoder the whole text from the
    first [[] to the last []].  On the text [{ {"a": 1}] the first balanced
    brace span is [{"a": 1}], which decodes to an object, yet the object
    extractor returns nothing: it gives up when the first brace does not
    close. *)
Lemma extractors_skip_first_balanced_span :
  (first_balanced lbracket rbracket two_arrays 0 2
   /\ Json.loads (slice_incl 0 (0 + 2) two_arrays) = Decoded (JArr [JInt 1])
   /\ _extract_json_array Json.loads two_arrays = None)
  /\ (first_balanced lbrace rbrace stray_brace 2 7
      /\ Json.loads (slice_incl 2 (2 + 7) stray_brace)
         = Decoded (JObj [("a", JInt 1)])
      /\ _json_obj_from_text Json.loads stray_brace 2000000 = Ok None).
Proof.
  split.
  - split; [exact two_arrays_first_span|]. split; now vm_compute.
  - split; [exact stray_brace_first_span|]. split; now vm_compute.
Qed.

Lemma noisy_object_first_span : first_open_span lbrace rbrace noisy_object 6 19.
Proof.
  now apply (first_open_span_compute _ _ _ "noise "
    (quoted "a" +:+ ": 1, " +:+ quoted "b" +:+ ": " +:+ quoted "x}y" +:+ "} trailing")).
Qed.

Lemma reply_array_indices :
  first_index lbracket (strip " [3, 1] ") 0
  /\ last_index rbracket (strip " [3, 1] ") 5.
Proof.
  split.
  - now exists "", "3, 1]".
  - now exists "[3, 1", "".
Qed.

(** Claim C4, witness: the object extractor on the noisy text of section 8
    and on the malformed text, and the array extractor on a reply holding
    one array. *)
Lemma extraction_spans_witness :
  (len noisy_object <= 64
   /\ first_open_span lbrace rbrace noisy_object 6 19
   /\ Json.loads (slice_incl 6 (6 + 19) noisy_object)
      = Decoded (JObj [("a", JInt 1); ("b", JStr "x}y")])
   /\ _json_obj_from_text Json.loads noisy_object 64
      = Ok (Some (JObj [("a", JInt 1); ("b", JStr "x}y")])))
  /\ (len malformed_object <= 64
      /\ first_open_span lbrace rbrace malformed_object 0 6
      /\ Json.loads (slice_incl 0 (0 + 6) malformed_object) = JSONDecodeError
      /\ _json_obj_from_text Json.loads malformed_object 64 = Ok None)
  /\ (first_index lbracket (strip " [3, 1] ") 0
      /\ last_index rbracket (strip " [3, 1] ") 5 /\ (0 < 5)%nat
      /\ _extract_json_array Json.loads " [3, 1] "
         = as_array (Json.loads (slice_incl 0 5 (strip " [3, 1] ")))).
Proof.
  pose proof (extraction_spans Json.loads noisy_object) as (_ & Hobj & _).
  pose proof (extraction_spans Json.loads malformed_object) as (_ & _ & Hbad & _).
  pose proof (extraction_spans Json.loads " [3, 1] ")
    as (_ & _ & _ & _ & _ & Harr & _).
  assert (Hlen : len noisy_object <= 64) by (vm_compute; discriminate).
  assert (Hv : Json.loads (slice_incl 6 (6 + 19) noisy_object)
               = Decoded (JObj [("a", JInt 1); ("b", JStr "x}y")]))
    by now vm_compute.
  assert (Hlen' : len malformed_object <= 64) by (vm_compute; discriminate).
  assert (Hspan' : first_open_span lbrace rbrace malformed_object 0 6)
    by now apply (first_open_span_compute _ _ _ "" (quoted "a" +:+ ": }")).
  assert (Hv' : Json.loads (slice_incl 0 (0 + 6) malformed_object) = JSONDecodeError)
    by now vm_compute.
  destruct reply_array_indices as [Ha Hb].
  assert (Hab : (0 < 5)%nat) by lia.
  split; [|split].
  - split; [exact Hlen|]. split; [exact noisy_object_first_span|].
    split; [exact Hv|].
    exact (Hobj 64 6%nat 19%nat _ Hlen noisy_object_first_span Hv).
  - split; [exact Hlen'|]. split; [exact Hspan'|]. split; [exact Hv'|].
    exact (Hbad 64 0%nat 6%nat Hlen' Hspan' Hv').
  - split; [exact Ha|]. split; [exact Hb|]. split; [exact Hab|].
    exact (Harr 0%nat 5%nat Ha Hb Hab).
Defined.

(** Claim C5.  On the text [noise {"a": 1, "b": "x}y"} trailing] the object
    extractor returns the object with ["a"] bound to 1 and ["b"] to the
    string [x}y], whenever the size cap admits the text; on the malformed
    text [{"a": }] it returns nothing, for every size cap: on these inputs
    the function returns and does not raise. *)
Theorem extractor_examples :
  (forall max_size, len noisy_object <= max_size ->
     _json_obj_from_text Json.loads noisy_object max_size
     = Ok (Some (JObj [("a", JInt 1); ("b", JStr "x}y")])))
  /\ (forall max_size,
        _json_obj_from_text Json.loads malformed_object max_size = Ok None).
Proof.
  split.
  - intros max_size H.
    rewrite (obj_from_text_cap Json.loads _ max_size (len noisy_object)) by lia.
    now vm_compute.
  - intros max_size.
    destruct (Z.ltb max_size (len malformed_object)) eqn:E.
    + apply Z.ltb_lt in E. apply obj_from_text_guard. now right.
    + apply Z.ltb_ge in E.
      rewrite (obj_from_text_cap Json.loads _ max_size (len malformed_object)) by lia.
      now vm_compute.
Qed.

(** Claim C5, witness: a cap of 2000000 characters admits the noisy text. *)
Lemma extractor_examples_witness :
  len noisy_object <= 2000000
  /\ _json_obj_from_text Json.loads noisy_object 2000000
     = Ok (Some (JObj [("a", JInt 1); ("b", JStr "x}y")])).
Proof.
  assert (H : len noisy_object <= 2000000) by (vm_compute; discriminate).
  split; [exact H|]. exact (proj1 extractor_examples 2000000 H).
Defined.

End ExtractorClaims.

(* ===================================================================== *)
(** * route_rag: heap behaviour *)
(* ===================================================================== *)

Section RouteRag.
Import Py Chat RagRouting Spec.
Variable loads : string -> decoded json.

Lemma dict_copy_spec (h : heap) (l : loc) (d : pydict) :
  h !! l = Some d ->
  dict_copy l h = Some (fresh (dom h), <[fresh (dom h) := d]> h).
Proof. intros H. unfold dict_copy. now rewrite H. Qed.

Lemma fresh_unused (h : heap) : h !! fresh (dom h) = None.
Proof. apply not_elem_of_dom, is_fresh. Qed.

(** A loop of conditional item assignments on one dict rewrites that dict
    and nothing else. *)
Lemma for_each_setitems (f : string -> option json) (body : string -> M unit)
    (out : loc) :
  (forall key, body key = match f key with
                          | Some v => dict_setitem out key v
                          | None => ret tt
                          end) ->
  forall keys (h : heap) (d : pydict),
    h !! out = Some d ->
    for_each keys body h
    = Some (tt, <[out := foldl (fun (d : pydict) key =>
                                  match f key with
                                  | Some v => <[key := v]> d
                                  | None => d
                                  end) d keys]> h).
Proof.
  intros Hbody. induction keys as [|key keys IH]; intros h d Hd.
  - cbn. unfold ret. now rewrite insert_id.
  - cbn [for_each foldl]. unfold bind. rewrite Hbody.
    destruct (f key) as [v|].
    + unfold dict_setitem. rewrite Hd.
      rewrite (IH _ (<[key := v]> d)) by apply lookup_insert_eq.
      now rewrite insert_insert_eq.
    + unfold ret. now apply IH.
Qed.

Lemma foldl_setitems_lookup (f : string -> option json) (k : string) :
  forall keys (d : pydict),
    foldl (fun (d : pydict) key =>
             match f key with Some v => <[key := v]> d | None => d end) d keys !! k
    = if bool_decide (k ∈ keys)
      then match f k with Some v => Some v | None => d !! k end
      else d !! k.
Proof.
  induction keys as [|key keys IH]; intros d; [reflexivity|].
  cbn [foldl]. rewrite IH.
  destruct (decide (k = key)) as [->|Hne].
  - rewrite (bool_decide_eq_true_2 (key ∈ key :: keys)) by left.
    destruct (f key) as [v|] eqn:E.
    + rewrite lookup_insert_eq. now destruct (bool_decide _).
    + now destruct (bool_decide _).
  - assert (Hd : (match f key with Some v => <[key := v]> d | None => d end) !! k
                 = d !! k).
    { destruct (f key); [now rewrite lookup_insert_ne|reflexivity]. }
    rewrite Hd.
    destruct (bool_decide (k ∈ keys)) eqn:B.
    + apply bool_decide_eq_true in B.
      now rewrite (bool_decide_eq_true_2 (k ∈ key :: keys)) by now right.
    + apply bool_decide_eq_false in B.
      rewrite (bool_decide_eq_false_2 (k ∈ key :: keys)); [reflexivity|].
      intros [?|?]%elem_of_cons; contradiction.
Qed.

Lemma merge_bool_update obj out key :
  merge_bool obj out key
  = match bool_update obj key with
    | Some v => dict_setitem out key v
    | None => ret tt
    end.
Proof. unfold merge_bool, bool_update. now destruct (obj_get obj key). Qed.

Lemma merge_str_update obj out key :
  merge_str obj out key
  = match str_update obj key with
    | Some v => dict_setitem out key v
    | None => ret tt
    end.
Proof. unfold merge_str, str_update. now destruct (obj_get obj key). Qed.

Lemma return_copy_spec (h : heap) (l : loc) (d : pydict) :
  h !! l = Some d ->
  return_copy l h = Some (Ok (fresh (dom h)), <[fresh (dom h) := d]> h).
Proof.
  intros H. unfold return_copy, bind. now rewrite (dict_copy_spec _ _ _ H).
Qed.

(** Every path that returns without merging returns a copy of the
    defaults. *)
Lemma route_rag_fallback q l resp max_size (h : heap) (d : pydict) :
  h !! l = Some d ->
  strip q = ""
  \/ chat_content loads resp = Raise
  \/ (exists content r,
        chat_content loads resp = Ok content
        /\ _json_obj_from_text loads content max_size = Ok r
        /\ forall obj, r <> Some (JObj obj)) ->
  route_rag loads q l resp max_size h
  = Some (Ok (fresh (dom h)), <[fresh (dom h) := d]> h).
Proof.
  intros Hd H. unfold route_rag.
  destruct (String.eqb (strip q) "") eqn:Eq; [now apply return_copy_spec|].
  destruct H as [H | [H | (content & r & Hc & Hr & Hno)]].
  - apply String.eqb_neq in Eq. contradiction.
  - rewrite H. now apply return_copy_spec.
  - rewrite Hc, Hr.
    destruct r as [[]|]; try now apply return_copy_spec.
    exfalso. now apply (Hno l0).
Qed.

(** The merging path returns a copy of the defaults updated by the two loops. *)
Lemma route_rag_merge q l resp max_size (h : heap) (d : pydict) content obj :
  h !! l = Some d ->
  strip q <> "" ->
  chat_content loads resp = Ok content ->
  _json_obj_from_text loads content max_size = Ok (Some (JObj obj)) ->
  route_rag loads q l resp max_size h
  = Some (Ok (fresh (dom h)),
          <[fresh (dom h) :=
              foldl (fun (d : pydict) key =>
                       match str_update obj key with
                       | Some v => <[key := v]> d
                       | None => d
                       end)
                (foldl (fun (d : pydict) key =>
                          match bool_update obj key with
                          | Some v => <[key := v]> d
                          | None => d
                          end) d bool_keys)
                str_keys]> h).
Proof.
  intros Hd Hq Hc Ho. unfold route_rag.
  apply String.eqb_neq in Hq. rewrite Hq, Hc, Ho.
  unfold bind at 1. rewrite (dict_copy_spec _ _ _ Hd).
  unfold bind at 1.
  rewrite (for_each_setitems (bool_update obj) _ _ (merge_bool_update obj _)
             bool_keys _ d) by apply lookup_insert_eq.
  unfold bind at 1.
  rewrite (for_each_setitems (str_update obj) _ _ (merge_str_update obj _)
             str_keys _ _ (lookup_insert_eq _ _ _)).
  unfold ret. now rewrite !insert_insert_eq.
Qed.

(** What the extractor raises leaves [route_rag], before any dict is
    allocated. *)
Lemma route_rag_raise q l resp max_size (h : heap) content :
  strip q <> "" ->
  chat_content loads resp = Ok content ->
  _json_obj_from_text loads content max_size = Raise ->
  route_rag loads q l resp max_size h = Some (Raise, h).
Proof.
  intros Hq Hc Ho. unfold route_rag.
  apply String.eqb_neq in Hq. now rewrite Hq, Hc, Ho.
Qed.

(** In every case either a new dict is returned and the heap is otherwise
    kept, or the call raises and the heap is the one it started from. *)
Lemma route_rag_allocates q l resp max_size (h : heap) (d : pydict) :
  h !! l = Some d ->
  (exists out : pydict,
     route_rag loads q l resp max_size h
     = Some (Ok (fresh (dom h)), <[fresh (dom h) := out]> h))
  \/ route_rag loads q l resp max_size h = Some (Raise, h).
Proof.
  intros Hd.
  destruct (String.eqb (strip q) "") eqn:Eq.
  { apply String.eqb_eq in Eq. left. exists d. apply route_rag_fallback; auto. }
  apply String.eqb_neq in Eq.
  destruct (chat_content loads resp) as [content|] eqn:Ec.
  2:{ left. exists d. apply route_rag_fallback; auto. }
  destruct (_json_obj_from_text loads content max_size) as [r|] eqn:Eo.
  2:{ right. eapply route_rag_raise; eauto. }
  left. destruct r as [[| | | | | |obj]|].
  all: try (exists d; apply route_rag_fallback; [exact Hd|];
            right; right; eexists content, _; split; [exact Ec|];
            split; [exact Eo|]; intros obj'; discriminate).
  eexists. eapply route_rag_merge; eauto.
Qed.

(** The call raises only through the extractor. *)
Lemma route_rag_raise_inv q l resp max_size (h h' : heap) (d : pydict) :
  h !! l = Some d ->
  route_rag loads q l resp max_size h = Some (Raise, h') ->
  strip q <> ""
  /\ exists content, chat_content loads resp = Ok content
                     /\ _json_obj_from_text loads content max_size = Raise.
Proof.
  intros Hd E.
  destruct (String.eqb (strip q) "") eqn:Eq.
  { apply String.eqb_eq in Eq.
    rewrite (route_rag_fallback q l resp max_size h d Hd) in E by now left.
    discriminate E. }
  apply String.eqb_neq in Eq. split; [exact Eq|].
  destruct (chat_content loads resp) as [content|] eqn:Ec.
  2:{ rewrite (route_rag_fallback q l resp max_size h d Hd) in E
        by (right; now left).
      discriminate E. }
  exists content. split; [reflexivity|].
  destruct (_json_obj_from_text loads content max_size) as [r|] eqn:Eo;
    [|reflexivity].
  exfalso. destruct r as [[| | | | | |obj]|].
  all: try (rewrite (route_rag_fallback q l resp max_size h d Hd) in E;
            [discriminate E|];
            right; right; eexists content, _; split; [exact Ec|];
            split; [exact Eo|]; intros obj'; discriminate).
  rewrite (route_rag_merge q l resp max_size h d content obj Hd Eq Ec Eo) in E.
  discriminate E.
Qed.

Lemma merged_field_lookup (d : pydict) obj key :
  foldl (fun (d : pydict) key =>
           match str_update obj key with Some v => <[key := v]> d | None => d end)
    (foldl (fun (d : pydict) key =>
              match bool_update obj key with Some v => <[key := v]> d | None => d end)
       d bool_keys)
    str_keys !! key
  = merged_field d obj key.
Proof.
  rewrite !foldl_setitems_lookup. unfold merged_field, bool_update, str_update.
  destruct (bool_decide (key ∈ bool_keys)) eqn:B.
  - assert (Hs : bool_decide (key ∈ str_keys) = false).
    { apply bool_decide_eq_true in B. apply bool_decide_eq_false.
      unfold bool_keys, str_keys in *.
      repeat (apply elem_of_cons in B as [-> | B];
              [intros H; repeat (apply elem_of_cons in H as [H | H];
                                 [discriminate H|]);
               now apply elem_of_nil in H|]).
      now apply elem_of_nil in B. }
    rewrite Hs. now destruct (obj_get obj key).
  - destruct (bool_decide (key ∈ str_keys)); [|reflexivity].
    now destruct (obj_get obj key).
Qed.

End RouteRag.

(* ===================================================================== *)
(** * Claims about route_rag *)
(* ===================================================================== *)

Section RouteRagClaims.
Import Py Chat RagRouting Spec Inputs.

(** The heap of a caller that holds [cats_defaults] at location 1. *)
Lemma cats_heap_lookup :
  ({[ 1%positive := cats_defaults ]} : heap) !! 1%positive = Some cats_defaults.
Proof. apply lookup_singleton_eq. Qed.

(** X20.  The failures that [route_rag] handles.  For every query and every
    defaults dict, when the transport raises, the reply has a status outside
    2xx, reading [message.content] from the reply raises, or the extractor
    returns without an object, [route_rag] returns a dict equal to the
    defaults, key for key. *)
Theorem route_rag_failure_returns_defaults
    (loads : string -> decoded json) (q : string) (l : loc) (resp : http_result)
    (max_size : Z) (h : heap) (d : pydict) :
  h !! l = Some d ->
  resp = TransportError
  \/ (exists status body, resp = Response status body /\ ~ (200 <= status < 300))
  \/ chat_content loads resp = Raise
  \/ (exists content r,
        chat_content loads resp = Ok content
        /\ _json_obj_from_text loads content max_size = Ok r
        /\ forall obj, r <> Some (JObj obj)) ->
  exists l' h',
    route_rag loads q l resp max_size h = Some (Ok l', h') /\ h' !! l' = Some d.
Proof.
  intros Hd H. exists (fresh (dom h)), (<[fresh (dom h) := d]> h).
  split; [|apply lookup_insert_eq].
  apply route_rag_fallback; [exact Hd|].
  destruct H as [-> | [(status & body & -> & Hs) | [H | H]]].
  - right. now left.
  - right. left. cbn [chat_content]. unfold is_success.
    destruct (200 <=? status) eqn:E1; [|reflexivity].
    destruct (status <? 300) eqn:E2; [|reflexivity].
    apply Z.leb_le in E1. apply Z.ltb_lt in E2. lia.
  - right. now left.
  - right. now right.
Qed.

(** X20, witness: the transport raises. *)
Lemma route_rag_failure_returns_defaults_witness :
  exists l' h',
    route_rag Json.loads "cats" 1%positive TransportError 2000000
      {[ 1%positive := cats_defaults ]} = Some (Ok l', h')
    /\ h' !! l' = Some cats_defaults.
Proof.
  apply (route_rag_failure_returns_defaults Json.loads "cats" 1%positive
           TransportError 2000000 _ cats_defaults cats_heap_lookup).
  now left.
Defined.

(** Claim C2, the failing input.  The model replies with the decision
    [{"use_web": 11...1}], an integer literal of 4301 digits.  The chat call
    succeeds and the content is read; the span handed to the decoder makes
    [json.loads] raise the [ValueError] of [int], which is no
    [JSONDecodeError]; the extractor does not catch it, and [route_rag],
    which calls the extractor after its [try] block, raises too instead of
    returning the defaults.  The heap is left as it was. *)
Theorem route_rag_raises_on_long_integer :
  chat_content Json.loads (chat_reply long_integer_decision)
  = Ok long_integer_decision
  /\ Json.loads long_integer_decision = OtherError
  /\ _json_obj_from_text Json.loads long_integer_decision 2000000 = Raise
  /\ route_rag Json.loads "cats" 1%positive (chat_reply long_integer_decision)
       2000000 {[ 1%positive := cats_defaults ]}
     = Some (Raise, {[ 1%positive := cats_defaults ]}).
Proof.
  assert (Hq : strip "cats" <> "") by (vm_compute; discriminate).
  assert (Hc : chat_content Json.loads (chat_reply long_integer_decision)
               = Ok long_integer_decision) by (vm_compute; reflexivity).
  assert (Ho : _json_obj_from_text Json.loads long_integer_decision 2000000 = Raise)
    by (vm_compute; reflexivity).
  split; [exact Hc|]. split; [vm_compute; reflexivity|]. split; [exact Ho|].
  exact (route_rag_raise Json.loads "cats" 1%positive
           (chat_reply long_integer_decision) 2000000
           {[ 1%positive := cats_defaults ]} long_integer_decision Hq Hc Ho).
Qed.

(** Claim C6, as amended.  When a JSON object is extracted from the reply,
    the decision is the defaults with these changes only: a boolean key is
    overridden exactly when the object's value for it is a boolean; a string
    key is set to the stripped string when the value is a string (to null
    when the stripped string is empty) and to null when the value is null or
    the key is absent from the object; values of any other type, and keys
    that are not recognized, change nothing. *)
Theorem route_rag_merges_fields
    (loads : string -> decoded json) (q : string) (l : loc) (resp : http_result)
    (max_size : Z) (h : heap) (d : pydict) (content : string)
    (obj : list (string * json)) :
  h !! l = Some d ->
  strip q <> "" ->
  chat_content loads resp = Ok content ->
  _json_obj_from_text loads content max_size = Ok (Some (JObj obj)) ->
  exists l' h' (out : pydict),
    route_rag loads q l resp max_size h = Some (Ok l', h')
    /\ h' !! l' = Some out
    /\ forall key, out !! key = merged_field d obj key.
Proof.
  intros Hd Hq Hc Ho.
  eexists _, _, _. split; [now apply (route_rag_merge loads q l resp max_size h d content obj)|].
  split; [apply lookup_insert_eq|].
  intros key. apply merged_field_lookup.
Qed.

Lemma web_only_reply_content :
  chat_content Json.loads (chat_reply web_only_decision) = Ok web_only_decision.
Proof. now vm_compute. Qed.

Lemma web_only_reply_object :
  _json_obj_from_text Json.loads web_only_decision 2000000
  = Ok (Some (JObj [("use_web", JBool true)])).
Proof. now vm_compute. Qed.

(** Claim C6, witness: a reply that only sets [use_web]. *)
Lemma route_rag_merges_fields_witness :
  exists l' h' (out : pydict),
    route_rag Json.loads "cats" 1%positive (chat_reply web_only_decision) 2000000
      {[ 1%positive := cats_defaults ]} = Some (Ok l', h')
    /\ h' !! l' = Some out
    /\ forall key, out !! key
                   = merged_field cats_defaults [("use_web", JBool true)] key.
Proof.
  apply (route_rag_merges_fields Json.loads "cats" 1%positive
           (chat_reply web_only_decision) 2000000 _ cats_defaults
           web_only_decision [("use_web", JBool true)] cats_heap_lookup).
  - now vm_compute.
  - exact web_only_reply_content.
  - exact web_only_reply_object.
Defined.

(** Claim C6, counterexample.  The defaults carry [doc_query = "cats"] and
    the extracted object is [{"use_web": true}], which has no [doc_query]
    field at all; the decision nevertheless holds [doc_query = None]. *)
Lemma route_rag_resets_absent_string_field :
  exists l' h' (out : pydict),
    route_rag Json.loads "cats" 1%positive (chat_reply web_only_decision) 2000000
      {[ 1%positive := cats_defaults ]} = Some (Ok l', h')
    /\ h' !! l' = Some out
    /\ assoc_get "doc_query" [("use_web", JBool true)] = None
    /\ cats_defaults !! "doc_query" = Some (JStr "cats")
    /\ out !! "doc_query" = Some JNull.
Proof.
  eexists _, _, _.
  split; [apply (route_rag_merge Json.loads "cats" 1%positive
                   (chat_reply web_only_decision) 2000000 _ cats_defaults
                   web_only_decision [("use_web", JBool true)] cats_heap_lookup);
          [now vm_compute | exact web_only_reply_content | exact web_only_reply_object]|].
  split; [apply lookup_insert_eq|].
  split; [reflexivity|]. split; [now vm_compute|].
  rewrite merged_field_lookup. now vm_compute.
Qed.

(** Claim C10.  [route_rag] never changes the defaults dict: after the
    call it reads the same, whatever the outcome.  On every return path the
    result is a newly allocated dict: its location differs from that of the
    defaults and was unused before the call, and every other location of
    the heap reads the same as before.  When the call raises, the heap is
    the one it started from. *)
Theorem route_rag_preserves_defaults
    (loads : string -> decoded json) (q : string) (l : loc) (resp : http_result)
    (max_size : Z) (h : heap) (d : pydict) :
  h !! l = Some d ->
  exists r h',
    route_rag loads q l resp max_size h = Some (r, h')
    /\ h' !! l = Some d
    /\ match r with
       | Ok l' =>
           l' <> l
           /\ h !! l' = None
           /\ forall l'', l'' <> l' -> h' !! l'' = h !! l''
       | Raise => h' = h
       end.
Proof.
  intros Hd.
  assert (Hne : forall x : positive, h !! x = None -> x <> l)
    by (intros x Hx ->; discriminate (eq_trans (eq_sym Hx) Hd)).
  destruct (route_rag_allocates loads q l resp max_size h d Hd) as [[out E] | E].
  - eexists _, _. split; [exact E|]. split.
    + rewrite lookup_insert_ne; [exact Hd|]. exact (Hne _ (fresh_unused h)).
    + split; [exact (Hne _ (fresh_unused h))|].
      split; [exact (fresh_unused h)|].
      intros l'' Hl. now rewrite lookup_insert_ne.
  - eexists _, _. split; [exact E|]. split; [exact Hd | reflexivity].
Qed.

(** Claim C10, witness: the merging path on the heap of [cats_defaults]. *)
Lemma route_rag_preserves_defaults_witness :
  exists r h',
    route_rag Json.loads "cats" 1%positive (chat_reply web_only_decision) 2000000
      {[ 1%positive := cats_defaults ]} = Some (r, h')
    /\ h' !! 1%positive = Some cats_defaults
    /\ match r with
       | Ok l' =>
           l' <> 1%positive
           /\ ({[ 1%positive := cats_defaults ]} : heap) !! l' = None
           /\ forall l'', l'' <> l' ->
                h' !! l'' = ({[ 1%positive := cats_defaults ]} : heap) !! l''
       | Raise => h' = {[ 1%positive := cats_defaults ]}
       end.
Proof.
  exact (route_rag_preserves_defaults Json.loads "cats" 1%positive
           (chat_reply web_only_decision) 2000000 _ cats_defaults cats_heap_lookup).
Defined.

End RouteRagClaims.

(* ===================================================================== *)
(** * rerank_results against the reconciliation policy *)
(* ===================================================================== *)

Section RerankCore.
Import Py Chat Retrieval Rerank Spec.
Local Open Scope list_scope.

Lemma by_id_lookup_from (cands : list RetrievalResult) : forall (o : nat) (i : Z),
  (list_to_map (imap (fun j x => (Z.of_nat (o + j) + 1, x)) cands)
     : gmap Z RetrievalResult) !! i
  = if Z.of_nat o + 1 <=? i then cands !! Z.to_nat (i - 1 - Z.of_nat o) else None.
Proof.
  induction cands as [|x cands IH]; intros o i.
  - cbn. rewrite lookup_empty. now destruct (_ <=? _).
  - rewrite imap_cons, list_to_map_cons. cbn [fst snd]. rewrite Nat.add_0_r.
    destruct (decide (i = Z.of_nat o + 1)) as [->|Hne].
    + rewrite lookup_insert_eq.
      replace (Z.of_nat o + 1 <=? Z.of_nat o + 1) with true
        by (symmetry; apply Z.leb_le; lia).
      now replace (Z.to_nat (Z.of_nat o + 1 - 1 - Z.of_nat o)) with 0%nat by lia.
    + rewrite lookup_insert_ne by congruence.
      rewrite (imap_ext _ (fun j x => (Z.of_nat (S o + j) + 1, x)))
        by (intros; cbn; do 2 f_equal; lia).
      rewrite IH.
      destruct (Z.of_nat o + 1 <=? i) eqn:E.
      * apply Z.leb_le in E.
        replace (Z.of_nat (S o) + 1 <=? i) with true
          by (symmetry; apply Z.leb_le; lia).
        replace (Z.to_nat (i - 1 - Z.of_nat o))
          with (S (Z.to_nat (i - 1 - Z.of_nat (S o)))) by lia.
        reflexivity.
      * apply Z.leb_gt in E.
        now replace (Z.of_nat (S o) + 1 <=? i) with false
          by (symmetry; apply Z.leb_gt; lia).
Qed.

(** [by_id.get(i)] is the candidate with the 1-based id [i]. *)
Lemma by_id_lookup (cands : list RetrievalResult) (i : Z) :
  (list_to_map (enumerate1 cands) : gmap Z RetrievalResult) !! i
  = if 1 <=? i then candidate_at cands i else None.
Proof.
  unfold enumerate1, candidate_at.
  rewrite (imap_ext _ (fun j x => (Z.of_nat (0 + j) + 1, x))) by reflexivity.
  rewrite by_id_lookup_from. change (Z.of_nat 0) with 0.
  now rewrite Z.add_0_l, Z.sub_0_r.
Qed.

Lemma by_id_is_some (cands : list RetrievalResult) (i : Z) :
  is_Some ((list_to_map (enumerate1 cands) : gmap Z RetrievalResult) !! i)
  <-> 1 <= i <= Z.of_nat (length cands).
Proof.
  rewrite by_id_lookup. unfold candidate_at.
  destruct (1 <=? i) eqn:E.
  - apply Z.leb_le in E. rewrite lookup_lt_is_Some. lia.
  - apply Z.leb_gt in E. split; [intros [? ?]; discriminate | lia].
Qed.

Lemma first_mentions_elem (ids : list Z) : forall seen i,
  i ∈ first_mentions seen ids <-> i ∈ ids /\ i ∉ seen.
Proof.
  induction ids as [|a ids IH]; intros seen i; cbn [first_mentions].
  - rewrite !elem_of_nil. tauto.
  - destruct (bool_decide (a ∈ seen)) eqn:B.
    + apply bool_decide_eq_true in B. rewrite IH, elem_of_cons.
      split; [tauto|]. intros [[->|?] ?]; tauto.
    + apply bool_decide_eq_false in B. rewrite !elem_of_cons, IH, elem_of_cons.
      destruct (decide (i = a)) as [->|]; tauto.
Qed.

Lemma first_mentions_all_seen (ids seen : list Z) :
  (forall i, i ∈ ids -> i ∈ seen) -> first_mentions seen ids = [].
Proof.
  revert seen. induction ids as [|a ids IH]; intros seen H; [reflexivity|].
  cbn [first_mentions].
  rewrite bool_decide_eq_true_2 by (apply H; left).
  apply IH. intros i Hi. apply H. now right.
Qed.

(** The walk over [order] picks the candidates of the valid ids at their
    first mention, and [seen] collects exactly those ids. *)
Lemma walk_fold (by_id : gmap Z RetrievalResult) (vb : Z -> bool) :
  (forall i, vb i = true <-> is_Some (by_id !! i)) ->
  forall order picked (seen : gset Z) (sl : list Z),
    (forall i, i ∈ seen <-> i ∈ sl) ->
    fold_left (walk_step by_id) order (picked, seen)
    = (picked ++ omap (fun i => by_id !! i)
                   (first_mentions sl (List.filter vb (omap py_int order))),
       seen ∪ list_to_set
                (first_mentions sl (List.filter vb (omap py_int order)))).
Proof.
  intros Hvb. induction order as [|x order IH]; intros picked seen sl Hs.
  - cbn. rewrite app_nil_r. f_equal. now rewrite (right_id_L ∅ (∪)).
  - cbn [fold_left omap list_omap]. unfold walk_step at 2.
    destruct (py_int x) as [i|]; [|now apply IH].
    cbn [List.filter].
    destruct (decide (i ∈ seen)) as [Hin|Hnin].
    + rewrite (IH picked seen sl Hs).
      destruct (vb i); [|reflexivity].
      cbn [first_mentions].
      now rewrite bool_decide_eq_true_2 by now apply Hs.
    + destruct (by_id !! i) as [r|] eqn:Hr.
      * assert (Hv : vb i = true) by (apply Hvb; now rewrite Hr).
        rewrite Hv. cbn [first_mentions].
        rewrite bool_decide_eq_false_2 by (intros H; apply Hnin; now apply Hs).
        rewrite (IH (picked ++ [r]) (seen ∪ {[i]}) (i :: sl)).
        -- cbn [omap list_omap]. rewrite Hr. rewrite <- app_assoc. cbn [app].
           f_equal. cbn [list_to_set foldr]. now rewrite (assoc_L (∪)).
        -- intros j. rewrite elem_of_union, elem_of_singleton, elem_of_cons, Hs.
           tauto.
      * assert (Hv : vb i = false).
        { destruct (vb i) eqn:E; [|reflexivity].
          apply Hvb in E. rewrite Hr in E. now destruct E. }
        rewrite Hv. now apply IH.
Qed.

Lemma append_unseen_fold (seen : gset Z) : forall l picked,
  fold_left (append_unseen seen) l picked
  = picked ++ omap (fun ir : Z * RetrievalResult =>
                      if decide (ir.1 ∈ seen) then None else Some ir.2) l.
Proof.
  induction l as [|[i r] l IH]; intros picked; cbn [fold_left omap list_omap].
  - now rewrite app_nil_r.
  - rewrite IH. unfold append_unseen. cbn [fst snd].
    destruct (decide (i ∈ seen)); [reflexivity|].
    now rewrite <- app_assoc.
Qed.

Lemma omap_imap_ext {A B C D} (g1 : B -> option D) (g2 : C -> option D) :
  forall (l : list A) (f1 : nat -> A -> B) (f2 : nat -> A -> C),
    (forall j x, l !! j = Some x -> g1 (f1 j x) = g2 (f2 j x)) ->
    omap g1 (imap f1 l) = omap g2 (imap f2 l).
Proof.
  induction l as [|a l IH]; intros f1 f2 H; [reflexivity|].
  rewrite !imap_cons. cbn [omap list_omap].
  rewrite (H 0%nat a eq_refl).
  rewrite (IH (f1 ∘ S) (f2 ∘ S)) by (intros j x Hj; apply (H (S j) x Hj)).
  reflexivity.
Qed.

Lemma omap_ext_elem {A B} (f g : A -> option B) (l : list A) :
  (forall x, x ∈ l -> f x = g x) -> omap f l = omap g l.
Proof.
  induction l as [|a l IH]; intros H; [reflexivity|].
  cbn [omap list_omap]. rewrite (H a) by left.
  rewrite IH by (intros x Hx; apply H; now right). reflexivity.
Qed.

Lemma omap_nil_all_some {A B} (f : A -> option B) (l : list A) :
  (forall x, x ∈ l -> is_Some (f x)) -> omap f l = [] -> l = [].
Proof.
  destruct l as [|a l]; [reflexivity|]. intros H.
  cbn [omap list_omap]. destruct (H a) as [b ->]; [left|]. discriminate.
Qed.

Lemma omap_imap_id {A B} (g : B -> option A) : forall (l : list A) (f : nat -> A -> B),
  (forall j x, l !! j = Some x -> g (f j x) = Some x) ->
  omap g (imap f l) = l.
Proof.
  induction l as [|a l IH]; intros f H; [reflexivity|].
  rewrite imap_cons. cbn [omap list_omap]. rewrite (H 0%nat a eq_refl).
  f_equal. apply IH. intros j x Hj. apply (H (S j) x Hj).
Qed.

Lemma filter_elem (vb : Z -> bool) (l : list Z) (i : Z) :
  i ∈ List.filter vb l <-> i ∈ l /\ vb i = true.
Proof. rewrite !list_elem_of_In. apply filter_In. Qed.

(** For a [keep_n] already within [[1, len(results)]], the reconciliation
    block computes the reconciled order of section 4.6. *)
Lemma apply_order_reconcile (results : list RetrievalResult) (keep_n : Z)
    (order : list json) :
  1 <= keep_n <= Z.of_nat (length results) ->
  apply_order results keep_n (take (Z.to_nat keep_n) results) order
  = reconcile results keep_n order.
Proof.
  intros Hk. unfold apply_order, reconcile.
  set (cands := take (Z.to_nat keep_n) results).
  set (by_id := list_to_map (enumerate1 cands) : gmap Z RetrievalResult).
  set (ids := omap py_int order).
  assert (Hlen : Z.of_nat (length cands) = keep_n).
  { unfold cands. rewrite length_take. lia. }
  assert (Hvb : forall i, valid_id keep_n (length results) i = true
                          <-> is_Some (by_id !! i)).
  { intros i. unfold by_id. rewrite by_id_is_some, Hlen. unfold valid_id.
    rewrite !andb_true_iff, !Z.leb_le. lia. }
  rewrite (walk_fold by_id _ Hvb order [] ∅ [])
    by (intros i; rewrite elem_of_nil; split; [apply not_elem_of_empty | tauto]).
  fold ids. set (fm := first_mentions [] (List.filter _ ids)).
  cbn [app].
  assert (Hfm : forall i, i ∈ fm <-> i ∈ ids /\ is_Some (by_id !! i)).
  { intros i. unfold fm. rewrite first_mentions_elem, filter_elem, Hvb.
    rewrite elem_of_nil. tauto. }
  assert (Hpicked : omap (fun i => by_id !! i) fm = omap (candidate_at cands) fm).
  { apply omap_ext_elem. intros i Hi. apply Hfm in Hi as [_ Hi].
    unfold by_id in *. apply by_id_is_some in Hi as Hr. rewrite by_id_lookup.
    now replace (1 <=? i) with true by (symmetry; apply Z.leb_le; lia). }
  assert (Hunseen :
    omap (fun ir : Z * RetrievalResult =>
            if decide (ir.1 ∈ (∅ ∪ list_to_set fm : gset Z)) then None else Some ir.2)
         (enumerate1 cands)
    = omap (fun ix : nat * RetrievalResult =>
              if bool_decide (Z.of_nat ix.1 + 1 ∈ ids) then None else Some ix.2)
           (imap pair cands)).
  { unfold enumerate1. apply omap_imap_ext. intros j x Hj. cbn [fst snd].
    assert (Hv : is_Some (by_id !! (Z.of_nat j + 1))).
    { unfold by_id. apply by_id_is_some. apply lookup_lt_Some in Hj. lia. }
    destruct (decide (Z.of_nat j + 1 ∈ (∅ ∪ list_to_set fm : gset Z))) as [H|H].
    - rewrite bool_decide_eq_true_2; [reflexivity|].
      rewrite elem_of_union, elem_of_list_to_set, Hfm in H.
      destruct H as [H|[H _]]; [now apply elem_of_empty in H | exact H].
    - rewrite bool_decide_eq_false_2; [reflexivity|].
      intros Hin. apply H. rewrite elem_of_union, elem_of_list_to_set, Hfm. now right. }
  destruct (omap (fun i => by_id !! i) fm) as [|r picked] eqn:Ep.
  - assert (fm = []) as Hnil.
    { apply (omap_nil_all_some (fun i => by_id !! i)); [|exact Ep].
      intros i Hi. now apply Hfm in Hi. }
    rewrite <- Hpicked, <- Hunseen. cbn [app]. rewrite Hnil.
    unfold enumerate1. rewrite (omap_imap_id _ cands).
    + unfold cands. now rewrite take_drop.
    + intros j x Hj. cbn [fst snd].
      destruct (decide _) as [H|H]; [|reflexivity].
      rewrite elem_of_union, elem_of_list_to_set in H.
      destruct H as [H|H]; [now apply elem_of_empty in H | now apply elem_of_nil in H].
  - rewrite append_unseen_fold, Hunseen, <- Hpicked.
    now rewrite <- app_assoc.
Qed.

(** Clamping [keep_n] into [[1, len(results)]] does not change the reconciled
    order of a non-empty result list. *)
Lemma reconcile_clamp (results : list RetrievalResult) (keep_n : Z)
    (order : list json) :
  results <> [] ->
  reconcile results (Z.max 1 (Z.min keep_n (Z.of_nat (length results)))) order
  = reconcile results keep_n order.
Proof.
  intros Hne.
  assert (Hn : 1 <= Z.of_nat (length results)) by (destruct results; [contradiction | cbn; lia]).
  destruct (Z_le_gt_dec 1 keep_n) as [H1|H1].
  - destruct (Z_le_gt_dec keep_n (Z.of_nat (length results))) as [H2|H2].
    + now replace (Z.max 1 (Z.min keep_n (Z.of_nat (length results)))) with keep_n by lia.
    + replace (Z.max 1 (Z.min keep_n (Z.of_nat (length results))))
        with (Z.of_nat (length results)) by lia.
      unfold reconcile.
      rewrite !(take_ge results), !(drop_ge results) by lia.
      rewrite (List.filter_ext (valid_id (Z.of_nat (length results)) (length results))
                 (valid_id keep_n (length results))); [reflexivity|].
      intros i. unfold valid_id.
      destruct (1 <=? i), (i <=? Z.of_nat (length results)) eqn:E2, (i <=? keep_n) eqn:E3;
        cbn; try reflexivity.
      apply Z.leb_le in E2. apply Z.leb_gt in E3. lia.
  - replace (Z.max 1 (Z.min keep_n (Z.of_nat (length results)))) with 1 by lia.
    destruct results as [|r0 rest]; [contradiction|].
    transitivity (r0 :: rest).
    + unfold reconcile. change (Z.to_nat 1) with 1%nat.
      cbn [take drop imap omap list_omap fst snd Z.of_nat Z.add].
      set (ids := omap py_int order).
      set (n := length (r0 :: rest)).
      assert (Hv : forall i, i ∈ List.filter (valid_id 1 n) ids <-> i ∈ ids /\ i = 1).
      { intros i. rewrite filter_elem. unfold valid_id, n.
        rewrite !andb_true_iff, !Z.leb_le. intuition lia. }
      destruct (List.filter (valid_id 1 n) ids) as [|a l'] eqn:Ef.
      * cbn [first_mentions omap list_omap app].
        rewrite bool_decide_eq_false_2; [reflexivity|].
        intros Hin. assert (H : 1 ∈ @nil Z) by (apply Hv; now split).
        now apply elem_of_nil in H.
      * assert (Ha : a = 1) by (apply (Hv a); left).
        subst a. cbn [first_mentions].
        rewrite bool_decide_eq_false_2 by apply not_elem_of_nil.
        rewrite first_mentions_all_seen.
        2:{ intros i Hi. assert (i = 1) as -> by (apply (Hv i); now right). left. }
        cbn [omap list_omap]. unfold candidate_at at 1.
        change (Z.to_nat (1 - 1)) with 0%nat. cbn [lookup list_lookup app].
        rewrite bool_decide_eq_true_2; [reflexivity|].
        apply (Hv 1). left.
    + unfold reconcile.
      replace (Z.to_nat keep_n) with 0%nat by lia.
      cbn [take drop imap omap list_omap app].
      rewrite (List.filter_ext _ (fun _ => false)).
      * set (ids := omap py_int order). clearbody ids.
        now induction ids.
      * intros i. unfold valid_id.
        destruct (1 <=? i) eqn:E1, (i <=? keep_n) eqn:E2; cbn; try reflexivity.
        apply Z.leb_le in E1, E2. lia.
Qed.

Lemma reconcile_empty_order (results : list RetrievalResult) (keep_n : Z) :
  reconcile results keep_n [] = results.
Proof.
  unfold reconcile. cbn [omap list_omap List.filter first_mentions app].
  rewrite (omap_imap_id _ (take (Z.to_nat keep_n) results)).
  - apply take_drop.
  - intros j x Hj. cbn [fst snd].
    now rewrite bool_decide_eq_false_2 by apply not_elem_of_nil.
Qed.

End RerankCore.

(* ===================================================================== *)
(** * Claims about rerank_results *)
(* ===================================================================== *)

Section RerankClaims.
Import Py Chat Retrieval Rerank Spec Inputs.
Local Open Scope list_scope.

(** Whenever an array is extracted, the result is the reconciled order. *)
Lemma rerank_results_reconcile (loads : string -> decoded json)
    (results : list RetrievalResult) (keep_n : Z) (resp : http_result)
    (content : string) (order : list json) :
  results <> [] ->
  chat_content loads resp = Ok content ->
  _extract_json_array loads content = Some order ->
  rerank_results loads results keep_n resp = Ok (reconcile results keep_n order).
Proof.
  intros Hne Hc He. unfold rerank_results.
  destruct results as [|r0 rest]; [contradiction|].
  set (results := r0 :: rest) in *.
  assert (Hn : 1 <= Z.of_nat (length results)) by (cbn; lia).
  rewrite Hc, He. destruct order as [|x order].
  - now rewrite reconcile_empty_order.
  - rewrite apply_order_reconcile by lia.
    now rewrite reconcile_clamp.
Qed.

(** Without a valid id the reconciled order is the input order. *)
Lemma reconcile_no_valid (results : list RetrievalResult) (keep_n : Z)
    (order : list json) :
  (forall x i, x ∈ order -> py_int x = Some i ->
     valid_id keep_n (length results) i = false) ->
  reconcile results keep_n order = results.
Proof.
  intros Hno. unfold reconcile.
  assert (Hids : forall i, i ∈ omap py_int order ->
                           valid_id keep_n (length results) i = false).
  { intros i Hi. apply list_elem_of_omap in Hi as (x & Hx & Hxi). eauto. }
  set (ids := omap py_int order) in *.
  assert (Hf : List.filter (valid_id keep_n (length results)) ids = []).
  { clearbody ids. induction ids as [|a ids IH]; [reflexivity|].
    cbn [List.filter]. rewrite (Hids a) by left.
    apply IH. intros i Hi. apply Hids. now right. }
  rewrite Hf. cbn [first_mentions omap list_omap app].
  rewrite (omap_imap_id _ (take (Z.to_nat keep_n) results)).
  - apply take_drop.
  - intros j x Hj. cbn [fst snd].
    rewrite bool_decide_eq_false_2; [reflexivity|].
    intros Hin. apply Hids in Hin. apply lookup_lt_Some in Hj.
    rewrite length_take in Hj. unfold valid_id in Hin.
    rewrite !andb_false_iff, !Z.leb_gt in Hin. lia.
Qed.

(** Claim C1.  For every non-empty result list, every [keep_n] and every
    array extracted from the reply, [rerank_results] returns the reconciled
    order: the candidates of the ids of the array in order, each once at its
    first mention, ids outside [[1, keep_n]] or naming no result being
    ignored; then the candidates the array never mentions, in their original
    order; then the results beyond [keep_n].  In particular, for the
    candidates 1, 2, 3 and the reply [[3, 1]] the order is 3, 1, 2. *)
Theorem rerank_reconciliation :
  (forall (loads : string -> decoded json) (results : list RetrievalResult)
          (keep_n : Z) (resp : http_result) (content : string)
          (order : list json),
     results <> [] ->
     chat_content loads resp = Ok content ->
     _extract_json_array loads content = Some order ->
     rerank_results loads results keep_n resp
     = Ok (reconcile results keep_n order))
  /\ rerank_results Json.loads three_results 3 (chat_reply "[3, 1]")
     = Ok [doc_result 3; doc_result 1; doc_result 2].
Proof.
  split.
  - intros. now apply (rerank_results_reconcile loads results keep_n resp content order).
  - now vm_compute.
Qed.

(** Claim C1, witness: the candidates 1, 2, 3 and the reply [[3, 1]]. *)
Lemma rerank_reconciliation_witness :
  three_results <> []
  /\ chat_content Json.loads (chat_reply "[3, 1]") = Ok "[3, 1]"
  /\ _extract_json_array Json.loads "[3, 1]" = Some [JInt 3; JInt 1]
  /\ rerank_results Json.loads three_results 3 (chat_reply "[3, 1]")
     = Ok (reconcile three_results 3 [JInt 3; JInt 1]).
Proof.
  assert (H1 : three_results <> []) by discriminate.
  assert (H2 : chat_content Json.loads (chat_reply "[3, 1]") = Ok "[3, 1]")
    by now vm_compute.
  assert (H3 : _extract_json_array Json.loads "[3, 1]" = Some [JInt 3; JInt 1])
    by now vm_compute.
  split; [exact H1|]. split; [exact H2|]. split; [exact H3|].
  exact (proj1 rerank_reconciliation Json.loads three_results 3
           (chat_reply "[3, 1]") "[3, 1]" [JInt 3; JInt 1] H1 H2 H3).
Defined.

(** Claim C3.  For every input list: when the chat call fails (the transport
    raises, the status is outside 2xx, or reading the content raises), when no
    array is extracted from the content, or when the extracted array holds no
    id of a valid candidate, [rerank_results] returns the input list itself;
    and in no case at all does it raise. *)
Theorem rerank_failure_returns_input
    (loads : string -> decoded json) (results : list RetrievalResult)
    (keep_n : Z) (resp : http_result) :
  (resp = TransportError
   \/ (exists status body, resp = Response status body /\ ~ (200 <= status < 300))
   \/ chat_content loads resp = Raise
   \/ (exists content, chat_content loads resp = Ok content
         /\ (_extract_json_array loads content = None
             \/ exists order, _extract_json_array loads content = Some order
                  /\ forall x i, x ∈ order -> py_int x = Some i ->
                       valid_id keep_n (length results) i = false)) ->
   rerank_results loads results keep_n resp = Ok results)
  /\ rerank_results loads results keep_n resp <> Raise.
Proof.
  split.
  - intros H.
    assert (Hr : chat_content loads resp = Raise
                 \/ exists content, chat_content loads resp = Ok content
                      /\ (_extract_json_array loads content = None
                          \/ exists order, _extract_json_array loads content = Some order
                               /\ forall x i, x ∈ order -> py_int x = Some i ->
                                    valid_id keep_n (length results) i = false)).
    { destruct H as [-> | [(status & body & -> & Hs) | [H | H]]];
        [now left | left | now left | now right].
      cbn [chat_content]. unfold is_success.
      destruct (200 <=? status) eqn:E1; [|reflexivity].
      destruct (status <? 300) eqn:E2; [|reflexivity].
      apply Z.leb_le in E1. apply Z.ltb_lt in E2. lia. }
    destruct results as [|r0 rest] eqn:Er; [reflexivity|]. rewrite <- Er in *.
    assert (Hne : results <> []) by (rewrite Er; discriminate).
    destruct Hr as [Hr | (content & Hc & [He | (order & He & Hno)])].
    + unfold rerank_results. rewrite Er at 1. now rewrite Hr.
    + unfold rerank_results. rewrite Er at 1. now rewrite Hc, He.
    + rewrite (rerank_results_reconcile loads results keep_n resp content order Hne Hc He).
      now rewrite reconcile_no_valid.
  - unfold rerank_results. destruct results; [discriminate|].
    destruct (chat_content loads resp); [|discriminate].
    now destruct (_extract_json_array loads s) as [[|]|].
Qed.

(** Claim C3, witness: a reply with status 503, and a reply whose array
    names no candidate. *)
Lemma rerank_failure_returns_input_witness :
  rerank_results Json.loads three_results 3 (Response 503 "busy") = Ok three_results
  /\ rerank_results Json.loads three_results 3 (chat_reply "[7, 0, null]")
     = Ok three_results.
Proof.
  split.
  - apply (rerank_failure_returns_input Json.loads three_results 3 (Response 503 "busy")).
    right. left. exists 503, "busy". split; [reflexivity | lia].
  - apply (rerank_failure_returns_input Json.loads three_results 3
             (chat_reply "[7, 0, null]")).
    right. right. right. exists "[7, 0, null]". split; [now vm_compute|].
    right. exists [JInt 7; JInt 0; JNull]. split; [now vm_compute|].
    intros x i Hx Hi.
    repeat (apply elem_of_cons in Hx as [-> | Hx];
            [cbn in Hi; try discriminate Hi; injection Hi as <-; reflexivity|]).
    now apply elem_of_nil in Hx.
Defined.

End RerankClaims.

(* ===================================================================== *)
(** * The Kiwix provider: auxiliary facts *)
(* ===================================================================== *)

Section KiwixFacts.
Import Py Retrieval.
Local Open Scope list_scope.

Lemma length_insert_desc x l : length (insert_desc x l) = S (length l).
Proof.
  induction l as [|y l IH]; [reflexivity|]. cbn [insert_desc].
  destruct (SFltb (score x) (score y)); cbn [length]; [now rewrite IH | reflexivity].
Qed.

Lemma length_sort_desc l : length (sort_desc l) = length l.
Proof.
  induction l as [|x l IH]; [reflexivity|].
  unfold sort_desc in *. cbn [foldr]. now rewrite length_insert_desc, IH.
Qed.

(** A slice [xs[:k]] with [k >= 0] has at most [k] elements. *)
Lemma length_py_take {A} (k : Z) (xs : list A) :
  0 <= k -> Z.of_nat (length (py_take k xs)) <= k
            /\ (length (py_take k xs) <= length xs)%nat.
Proof.
  intros Hk. unfold py_take.
  replace (0 <=? k) with true by (symmetry; apply Z.leb_le; lia).
  rewrite length_take. lia.
Qed.

(** A slice with a negative bound drops that many elements from the end. *)
Lemma length_py_take_neg {A} (k : Z) (xs : list A) :
  k < 0 -> length (py_take k xs) = (length xs - Z.to_nat (- k))%nat.
Proof.
  intros Hk. unfold py_take.
  replace (0 <=? k) with false by (symmetry; apply Z.leb_gt; lia).
  rewrite length_take. lia.
Qed.

Lemma length_omap_le {A B} (f : A -> option B) (l : list A) :
  (length (omap f l) <= length l)%nat.
Proof.
  induction l as [|a l IH]; [reflexivity|]. cbn [omap list_omap length].
  destruct (f a); cbn [length]; lia.
Qed.



End KiwixFacts.

(* ===================================================================== *)
(** * Claims about the Kiwix provider *)
(* ===================================================================== *)

Section KiwixClaims.
Import Py Retrieval.
Local Open Scope list_scope.

Variables embedding array store : Type.
Variable kiwix_search : string -> string -> Z -> list SearchItem.
Variable kiwix_fetch_page : string -> string -> option Page.
Variable embed_texts : list string -> string -> list embedding.
Variable embedding_to_array : embedding -> array.
Variable cosine : array -> array -> spec_float.
Variable DEFAULT_EMBED_MODEL : string.
Variable add_document : store -> DocArgs -> Z * store.
Variable ragstore_retrieve : store -> string -> Z -> list Z -> string -> list Hit.
Variable json_dumps : json -> string.
Variable url_hash : string -> Z.

Local Abbreviation transient :=
  (retrieve_transient embedding array kiwix_fetch_page embed_texts
     embedding_to_array cosine url_hash).
Local Abbreviation persistent :=
  (retrieve_persistent store kiwix_fetch_page add_document ragstore_retrieve
     json_dumps).
Local Abbreviation one_vector_per_text := (one_vector_per_text embedding embed_texts).

Lemma transient_count base domain q top_k embed_model pages results :
  one_vector_per_text -> 0 <= top_k -> 1 <= pages <= 10 ->
  exists items,
    transient base domain q top_k embed_model pages results = Ok items
    /\ Z.of_nat (length items) <= top_k /\ (length items <= 10)%nat.
Proof.
  intros Hemb Hk Hp. unfold retrieve_transient.
  set (pm := omap (transient_page kiwix_fetch_page base domain)
               (take (Z.to_nat pages) results)).
  assert (Hpm : (length pm <= 10)%nat).
  { unfold pm. etransitivity; [apply length_omap_le|]. rewrite length_take. lia. }
  destruct pm as [|m pm'] eqn:Epm.
  - exists []. cbn. repeat split; lia.
  - pose proof (Hemb [q] embed_model) as Hq.
    destruct (embed_texts [q] embed_model) as [|qe ?]; [discriminate|].
    eexists. split; [reflexivity|].
    destruct (length_py_take top_k
                (sort_desc (map (transient_item embedding array embedding_to_array
                                   cosine url_hash (embedding_to_array qe))
                              (zip (m :: pm')
                                 (embed_texts (map pm_text (m :: pm')) embed_model)))) Hk)
      as [H1 H2].
    split; [exact H1|].
    rewrite length_sort_desc, length_map, length_zip_with in H2. lia.
Qed.

(** Claim C7, as amended.  Under the embedding contract and for every
    [top_k >= 0], the transient mode of the Kiwix provider returns, without
    raising and without touching the store, at most [top_k] results and never
    more than 10 (the bound on [pages]).  The provider does not clamp
    [top_k], and nothing is promised about the sign of a score, which is the
    raw cosine value. *)
Theorem kiwix_transient_at_most_top_k
    (base_url : string) (st : store) (query : string) (top_k : Z)
    (embed_model : option string) (pages_kw : option Z) :
  one_vector_per_text ->
  0 <= top_k ->
  exists items,
    retrieve embedding array store kiwix_search kiwix_fetch_page embed_texts
      embedding_to_array cosine DEFAULT_EMBED_MODEL add_document
      ragstore_retrieve json_dumps url_hash
      base_url st query top_k embed_model false pages_kw = Ok (items, st)
    /\ Z.of_nat (length items) <= top_k
    /\ (length items <= 10)%nat.
Proof.
  intros Hemb Hk. unfold retrieve.
  destruct (String.eqb base_url ""); [exists []; cbn; repeat split; lia|].
  destruct (String.eqb (strip query) ""); [exists []; cbn; repeat split; lia|].
  destruct (kiwix_search base_url (strip query) top_k) as [|it its] eqn:Es;
    [exists []; cbn; repeat split; lia|].
  cbn [negb].
  match goal with
  | |- context [retrieve_transient _ _ _ _ _ _ _ ?b ?d ?q ?k ?m ?p ?r] =>
      destruct (transient_count b d q k m p r Hemb Hk) as (items & E & H1 & H2);
      [|rewrite E; exists items; cbn [exn_bind]; now repeat split]
  end.
  destruct pages_kw as [p|]; [destruct (p =? 0)|]; lia.
Qed.

Local Abbreviation persist_round :=
  (persist_page store kiwix_fetch_page add_document json_dumps).




End KiwixClaims.

Section KiwixExamples.
Import Py Retrieval Inputs.
Local Open Scope list_scope.

Lemma sample_embed_contract :
  one_vector_per_text (list spec_float) sample_embed.
Proof. intros texts model. apply length_map. Qed.

(** Claim C7, witness: the sample site queried with [top_k = 1]. *)
Lemma kiwix_transient_at_most_top_k_witness :
  exists items,
    sample_retrieve fetch_all 1 false = Ok (items, 0)
    /\ Z.of_nat (length items) <= 1 /\ (length items <= 10)%nat.
Proof.
  unfold sample_retrieve.
  apply (kiwix_transient_at_most_top_k (list spec_float) (list spec_float) Z
           sample_search fetch_all sample_embed (fun e => e) sample_cosine "embed"
           sample_add_document sample_store_retrieve sample_dumps sample_url_hash
           (init_base_url (Some "http://kiwix/")) 0 "q" 1 None None
           sample_embed_contract).
  lia.
Defined.

(** Claim C7, counterexample.  On the sample site, whose embedding service
    honours its contract, the transient mode called with [top_k = -1] returns
    one result, which is more than [top_k]; and called with [top_k = 1] it
    returns a result whose score is below zero, the cosine of two opposite
    vectors. *)
Lemma kiwix_transient_unclamped :
  one_vector_per_text (list spec_float) sample_embed
  /\ (exists items,
        sample_retrieve fetch_all (-1) false = Ok (items, 0)
        /\ length items = 1%nat /\ ~ (Z.of_nat (length items) <= -1))
  /\ (exists r,
        sample_retrieve fetch_all 1 false = Ok ([r], 0)
        /\ SFltb (score r) (S754_zero false) = true).
Proof.
  split; [exact sample_embed_contract|]. split.
  - eexists. split; [vm_compute; reflexivity|]. split; [reflexivity|]. cbn. lia.
  - eexists. split; [vm_compute; reflexivity|]. now vm_compute.
Qed.



End KiwixExamples.

(* ===================================================================== *)
(** * Claims about the VectorStore *)
(* ===================================================================== *)

Section VectorStoreClaims.
Import VectorStore Inputs.
Local Open Scope list_scope.

(** Claim C9.  Over a store that holds exactly one chunk, a retrieval with no
    owner, group or source filter returns that chunk, for every query vector
    and every [top_k]; so does a retrieval whose owner filter lists nobody.
    The result is a value: the search has no failing outcome. *)
Theorem unscoped_query_returns_the_chunk
    (st : Store) (c : Chunk) (q : list spec_float) (top_k : Z) :
  chunks st = [c] ->
  map snd (retrieve st q top_k unscoped) = [c]
  /\ map snd (retrieve st q top_k
                {| by_owner := Some []; by_group := None; by_source := None |})
     = [c].
Proof.
  intros Hc. unfold retrieve. rewrite Hc.
  assert (Hk : Z.to_nat (clamp_top_k top_k) = S (Z.to_nat (clamp_top_k top_k - 1)))
    by (unfold clamp_top_k; lia).
  rewrite Hk. split; cbn; now rewrite take_nil.
Qed.

(** Claim C9, witness: the store of the regression test, queried with the
    vector [(1, 0)] and [top_k = 1], returns its chunk with score 1. *)
Lemma unscoped_query_returns_the_chunk_witness :
  chunks hello_store = [hello_chunk]
  /\ map snd (retrieve hello_store [fone; fzero] 1 unscoped) = [hello_chunk]
  /\ retrieve hello_store [fone; fzero] 1 unscoped = [(fone, hello_chunk)].
Proof.
  assert (H : chunks hello_store = [hello_chunk]) by reflexivity.
  split; [exact H|]. split.
  - exact (proj1 (unscoped_query_returns_the_chunk hello_store hello_chunk
                    [fone; fzero] 1 H)).
  - now vm_compute.
Defined.

End VectorStoreClaims.

(* ===================================================================== *)
(** * Further properties of rerank_results *)
(* ===================================================================== *)

Section RerankFurther.
Import Py Chat Retrieval Rerank Spec Facts Inputs.
Local Open Scope list_scope.

Lemma unpicked_ext (S1 S2 : Z -> bool) : forall l o,
  (forall i, Z.of_nat o + 1 <= i <= Z.of_nat o + Z.of_nat (length l) -> S1 i = S2 i) ->
  unpicked o S1 l = unpicked o S2 l.
Proof.
  induction l as [|x l IH]; intros o H; [reflexivity|].
  cbn [unpicked]. rewrite (H (Z.of_nat o + 1)) by (cbn [length]; lia).
  rewrite (IH (S o)); [reflexivity|].
  intros i Hi. apply H. cbn [length]. lia.
Qed.

Lemma unpicked_none (S0 : Z -> bool) : forall l o,
  (forall i, Z.of_nat o + 1 <= i <= Z.of_nat o + Z.of_nat (length l) -> S0 i = false) ->
  unpicked o S0 l = l.
Proof.
  induction l as [|x l IH]; intros o H; [reflexivity|].
  cbn [unpicked]. rewrite (H (Z.of_nat o + 1)) by (cbn [length]; lia).
  f_equal. apply IH. intros i Hi. apply H. cbn [length]. lia.
Qed.

(** Picking one more candidate takes exactly that candidate out of the
    unpicked ones. *)
Lemma unpicked_extract (S0 : Z -> bool) : forall l o j x,
  l !! j = Some x ->
  S0 (Z.of_nat (o + j) + 1) = false ->
  unpicked o S0 l
  ≡ₚ x :: unpicked o (fun i => (i =? Z.of_nat (o + j) + 1) || S0 i) l.
Proof.
  induction l as [|a l IH]; intros o j x Hj HS; [discriminate|].
  destruct j as [|j].
  - injection Hj as ->. rewrite Nat.add_0_r in *. cbn [unpicked].
    rewrite HS, Z.eqb_refl. cbn [orb]. constructor.
    rewrite (unpicked_ext S0 (fun i => (i =? Z.of_nat o + 1) || S0 i)); [reflexivity|].
    intros i Hi. replace (i =? Z.of_nat o + 1) with false; [reflexivity|].
    symmetry. apply Z.eqb_neq. lia.
  - cbn [lookup list_lookup] in Hj. cbn [unpicked].
    replace (Z.of_nat o + 1 =? Z.of_nat (o + S j) + 1) with false
      by (symmetry; apply Z.eqb_neq; lia).
    cbn [orb].
    replace (o + S j)%nat with (S o + j)%nat in * by lia.
    destruct (S0 (Z.of_nat o + 1)).
    + now apply IH.
    + rewrite (IH (S o) j x Hj HS). apply perm_swap.
Qed.

Lemma unpicked_imap (ids : list Z) : forall l o,
  omap (fun ix : nat * RetrievalResult =>
          if bool_decide (Z.of_nat ix.1 + 1 ∈ ids) then None else Some ix.2)
       (imap (fun j x => ((o + j)%nat, x)) l)
  = unpicked o (fun i => bool_decide (i ∈ ids)) l.
Proof.
  induction l as [|x l IH]; intros o; [reflexivity|].
  rewrite imap_cons. cbn [omap list_omap unpicked fst snd].
  rewrite Nat.add_0_r.
  rewrite (imap_ext _ (fun j x => ((S o + j)%nat, x)))
    by (intros; cbn; f_equal; lia).
  rewrite IH. now destruct (bool_decide _).
Qed.

(** The candidates ranked from [ids], together with those that stay
    unpicked afterwards, are the candidates unpicked before. *)
Lemma ranked_unpicked_perm (cands : list RetrievalResult) (vb : Z -> bool) :
  (forall i, vb i = true <-> 1 <= i <= Z.of_nat (length cands)) ->
  forall ids sl,
    omap (candidate_at cands) (first_mentions sl (List.filter vb ids))
    ++ unpicked 0 (fun i => bool_decide (i ∈ sl ++ ids)) cands
    ≡ₚ unpicked 0 (fun i => bool_decide (i ∈ sl)) cands.
Proof.
  intros Hvb. induction ids as [|i ids IH]; intros sl.
  - cbn [List.filter first_mentions omap list_omap app]. now rewrite app_nil_r.
  - cbn [List.filter]. destruct (vb i) eqn:Ev.
    + cbn [first_mentions]. destruct (bool_decide (i ∈ sl)) eqn:Es.
      * apply bool_decide_eq_true in Es. rewrite <- (IH sl).
        rewrite (unpicked_ext (fun j => bool_decide (j ∈ sl ++ i :: ids))
                   (fun j => bool_decide (j ∈ sl ++ ids))); [reflexivity|].
        intros j _. apply bool_decide_ext.
        rewrite !elem_of_app, elem_of_cons. split; [|tauto].
        intros [?|[->|?]]; tauto.
      * apply bool_decide_eq_false in Es. apply Hvb in Ev.
        cbn [omap list_omap]. unfold candidate_at at 1.
        destruct (cands !! Z.to_nat (i - 1)) as [x|] eqn:Ex.
        2:{ apply lookup_ge_None in Ex. lia. }
        cbn [app].
        rewrite (unpicked_extract (fun j => bool_decide (j ∈ sl)) cands 0
                   (Z.to_nat (i - 1)) x Ex).
        2:{ apply bool_decide_eq_false.
            now replace (Z.of_nat (0 + Z.to_nat (i - 1)) + 1) with i by lia. }
        constructor.
        rewrite (unpicked_ext
                   (fun j => (j =? Z.of_nat (0 + Z.to_nat (i - 1)) + 1)
                             || bool_decide (j ∈ sl))
                   (fun j => bool_decide (j ∈ i :: sl))).
        2:{ intros j _.
            replace (Z.of_nat (0 + Z.to_nat (i - 1)) + 1) with i by lia.
            destruct (Z.eqb_spec j i) as [->|Hne]; cbn [orb].
            - symmetry. apply bool_decide_eq_true. left.
            - apply bool_decide_ext. rewrite elem_of_cons. tauto. }
        rewrite <- (IH (i :: sl)).
        apply Permutation_app; [reflexivity|].
        rewrite (unpicked_ext (fun j => bool_decide (j ∈ sl ++ i :: ids))
                   (fun j => bool_decide (j ∈ (i :: sl) ++ ids))); [reflexivity|].
        intros j _. apply bool_decide_ext.
        repeat (rewrite elem_of_app || rewrite elem_of_cons). tauto.
    + rewrite <- (IH sl).
      rewrite (unpicked_ext (fun j => bool_decide (j ∈ sl ++ i :: ids))
                 (fun j => bool_decide (j ∈ sl ++ ids))); [reflexivity|].
      intros j Hj. apply bool_decide_ext.
      rewrite !elem_of_app, elem_of_cons. split; [|tauto].
      intros [?|[->|?]]; try tauto.
      exfalso. assert (vb i = true) by (apply Hvb; lia). congruence.
Qed.

(** The reconciled order is a reordering of the candidates followed by the
    untouched tail. *)
Lemma reconcile_local (results : list RetrievalResult) (keep_n : Z)
    (order : list json) :
  1 <= keep_n <= Z.of_nat (length results) ->
  exists front,
    reconcile results keep_n order = front ++ drop (Z.to_nat keep_n) results
    /\ front ≡ₚ take (Z.to_nat keep_n) results.
Proof.
  intros Hk. unfold reconcile.
  set (cands := take (Z.to_nat keep_n) results).
  set (ids := omap py_int order).
  assert (Hlen : Z.of_nat (length cands) = keep_n)
    by (unfold cands; rewrite length_take; lia).
  eexists. split; [now rewrite app_assoc|].
  rewrite (imap_ext pair (fun j x => ((0 + j)%nat, x))) by reflexivity.
  rewrite unpicked_imap.
  assert (Hvb : forall i, valid_id keep_n (length results) i = true
                          <-> 1 <= i <= Z.of_nat (length cands)).
  { intros i. unfold valid_id. rewrite !andb_true_iff, !Z.leb_le. lia. }
  rewrite (ranked_unpicked_perm cands _ Hvb ids []).
  now rewrite unpicked_none
    by (intros; apply bool_decide_eq_false, not_elem_of_nil).
Qed.

(** Whatever the reply, the outcome reorders the first candidates and leaves
    the rest in place. *)
Lemma rerank_results_local (loads : string -> decoded json)
    (results : list RetrievalResult) (keep_n : Z) (resp : http_result) :
  exists out,
    rerank_results loads results keep_n resp = Ok out
    /\ take (clamped results keep_n) out ≡ₚ take (clamped results keep_n) results
    /\ drop (clamped results keep_n) out = drop (clamped results keep_n) results.
Proof.
  destruct results as [|r0 rest] eqn:Er; [now exists []|]. rewrite <- Er.
  assert (Hne : results <> []) by (rewrite Er; discriminate).
  assert (Hn : 1 <= Z.of_nat (length results)) by (rewrite Er; cbn; lia).
  destruct (chat_content loads resp) as [content|] eqn:Ec.
  2:{ exists results. split; [|now repeat split].
      unfold rerank_results. rewrite Er at 1. now rewrite Ec. }
  destruct (_extract_json_array loads content) as [order|] eqn:Ee.
  2:{ exists results. split; [|now repeat split].
      unfold rerank_results. rewrite Er at 1. now rewrite Ec, Ee. }
  rewrite (rerank_results_reconcile loads results keep_n resp content order Hne Ec Ee).
  rewrite <- reconcile_clamp by exact Hne.
  destruct (reconcile_local results
              (Z.max 1 (Z.min keep_n (Z.of_nat (length results)))) order)
    as (front & -> & Hp); [lia|].
  fold (clamped results keep_n) in *.
  assert (Hl : length front = clamped results keep_n).
  { rewrite (Permutation_length Hp), length_take. unfold clamped. lia. }
  eexists. split; [reflexivity|]. split.
  - now rewrite take_app_length' by (symmetry; exact Hl).
  - now rewrite drop_app_length' by (symmetry; exact Hl).
Qed.

(** X1.  Whatever the reply of the model, [rerank_results] returns a
    reordering of its input: the first [max(1, min(keep_n, len(results)))]
    results are permuted among themselves and every later result keeps its
    place; in particular no result is lost or duplicated. *)
Theorem rerank_reorders_candidates_only (loads : string -> decoded json)
    (results : list RetrievalResult) (keep_n : Z) (resp : http_result) :
  exists out,
    rerank_results loads results keep_n resp = Ok out
    /\ take (clamped results keep_n) out ≡ₚ take (clamped results keep_n) results
    /\ drop (clamped results keep_n) out = drop (clamped results keep_n) results
    /\ out ≡ₚ results
    /\ length out = length results.
Proof.
  destruct (rerank_results_local loads results keep_n resp) as (out & E & Ht & Hd).
  assert (Hp : out ≡ₚ results).
  { set (k := clamped results keep_n) in *.
    pose proof (take_drop k out) as E1. pose proof (take_drop k results) as E2.
    rewrite <- E1, <- E2, Hd. now apply Permutation_app. }
  exists out. repeat split; try assumption. now apply Permutation_length.
Qed.

(** X2.  With [keep_n <= 1] there is a single candidate, and the outcome is
    the input list whatever the model replies. *)
Theorem rerank_single_candidate_identity (loads : string -> decoded json)
    (results : list RetrievalResult) (keep_n : Z) (resp : http_result) :
  keep_n <= 1 ->
  rerank_results loads results keep_n resp = Ok results.
Proof.
  intros Hk.
  destruct (rerank_results_local loads results keep_n resp) as (out & E & Ht & Hd).
  rewrite E. f_equal.
  destruct results as [|r0 rest]; [now injection E as <-|].
  assert (Hc : clamped (r0 :: rest) keep_n = 1%nat)
    by (unfold clamped; cbn [length]; lia).
  rewrite Hc in *. cbn [take] in Ht. rewrite take_0 in Ht.
  apply Permutation_singleton_r in Ht.
  rewrite <- (take_drop 1 out), Ht, Hd. reflexivity.
Qed.

(** X2, witness: [keep_n = 0] and a reply that ranks the third result first. *)
Lemma rerank_single_candidate_identity_witness :
  rerank_results Json.loads three_results 0 (chat_reply "[3, 1]") = Ok three_results.
Proof.
  apply (rerank_single_candidate_identity Json.loads three_results 0
           (chat_reply "[3, 1]")).
  lia.
Defined.

Lemma first_mentions_nodup (ids : list Z) : forall sl,
  NoDup ids -> (forall i, i ∈ ids -> i ∉ sl) -> first_mentions sl ids = ids.
Proof.
  induction ids as [|a ids IH]; intros sl Hnd Hsl; [reflexivity|].
  apply NoDup_cons in Hnd as [Ha Hnd]. cbn [first_mentions].
  rewrite bool_decide_eq_false_2 by (apply Hsl; left).
  f_equal. apply IH; [exact Hnd|].
  intros i Hi [->|Hin]%elem_of_cons; [contradiction|].
  apply (Hsl i); [now right | exact Hin].
Qed.

Lemma filter_all (vb : Z -> bool) (l : list Z) :
  (forall i, i ∈ l -> vb i = true) -> List.filter vb l = l.
Proof.
  induction l as [|a l IH]; intros H; [reflexivity|].
  cbn [List.filter]. rewrite (H a) by left.
  f_equal. apply IH. intros i Hi. apply H. now right.
Qed.

Lemma omap_lookup_all_some {A B} (f : A -> option B) (rest : list B) :
  forall (l : list A) p a,
    (forall x, x ∈ l -> is_Some (f x)) ->
    l !! p = Some a ->
    (omap f l ++ rest) !! p = f a.
Proof.
  induction l as [|x l IH]; intros p a H Hp; [discriminate|].
  cbn [omap list_omap]. destruct (H x) as [y Hy]; [left|]. rewrite Hy.
  destruct p as [|p].
  - injection Hp as <-. now rewrite Hy.
  - cbn. apply IH; [|exact Hp]. intros z Hz. apply H. now right.
Qed.

(** X3.  When the ids of the reply are all valid and none is repeated, the
    outcome starts with the candidates in exactly the order of the reply:
    its [p]-th result is the result whose id stands at position [p]. *)
Theorem rerank_follows_reply_order (loads : string -> decoded json)
    (results : list RetrievalResult) (keep_n : Z) (resp : http_result)
    (content : string) (order : list json) :
  results <> [] ->
  chat_content loads resp = Ok content ->
  _extract_json_array loads content = Some order ->
  NoDup (omap py_int order) ->
  (forall i, i ∈ omap py_int order -> valid_id keep_n (length results) i = true) ->
  exists out,
    rerank_results loads results keep_n resp = Ok out
    /\ forall p i, omap py_int order !! p = Some i ->
                   out !! p = results !! Z.to_nat (i - 1).
Proof.
  intros Hne Hc He Hnd Hv.
  rewrite (rerank_results_reconcile loads results keep_n resp content order Hne Hc He).
  eexists. split; [reflexivity|]. intros p i Hp.
  unfold reconcile. rewrite (filter_all _ _ Hv).
  rewrite first_mentions_nodup by (exact Hnd || (intros; apply not_elem_of_nil)).
  assert (Hin : forall j, j ∈ omap py_int order ->
                  candidate_at (take (Z.to_nat keep_n) results) j
                  = results !! Z.to_nat (j - 1)
                  /\ is_Some (results !! Z.to_nat (j - 1))).
  { intros j Hj. apply Hv in Hj. unfold valid_id in Hj.
    rewrite !andb_true_iff, !Z.leb_le in Hj. unfold candidate_at.
    rewrite lookup_take_lt by lia. split; [reflexivity|].
    apply lookup_lt_is_Some. lia. }
  rewrite (omap_lookup_all_some _ _ _ p i).
  - apply Hin. apply list_elem_of_lookup. eauto.
  - intros j Hj. destruct (Hin j Hj) as [-> ?]. assumption.
  - exact Hp.
Qed.

(** X3, witness: the candidates 1, 2, 3 and the reply [[3, 1]]. *)
Lemma rerank_follows_reply_order_witness :
  exists out,
    rerank_results Json.loads three_results 3 (chat_reply "[3, 1]") = Ok out
    /\ forall p i, omap py_int [JInt 3; JInt 1] !! p = Some i ->
                   out !! p = three_results !! Z.to_nat (i - 1).
Proof.
  apply (rerank_follows_reply_order Json.loads three_results 3
           (chat_reply "[3, 1]") "[3, 1]" [JInt 3; JInt 1]).
  - discriminate.
  - now vm_compute.
  - now vm_compute.
  - cbn. apply NoDup_cons. split.
    + intros [H|H]%elem_of_cons; [discriminate H | now apply elem_of_nil in H].
    + apply NoDup_singleton.
  - intros i Hi. cbn in Hi.
    repeat (apply elem_of_cons in Hi as [-> | Hi]; [reflexivity|]).
    now apply elem_of_nil in Hi.
Defined.

Lemma length_str_take (n : nat) (s : string) :
  (String.length (str_take n s) <= n)%nat.
Proof.
  revert s. induction n as [|n IH]; intros s; [now destruct s|].
  destruct s as [|c s]; cbn [str_take String.length]; [lia|].
  specialize (IH s). lia.
Qed.

Lemma str_or_self (t : string) :
  str_or_empty (or_str (Some t) (Some EmptyString)) = t.
Proof. now destruct t. Qed.

Lemma candidate_item_text (idx : Z) (r : RetrievalResult) :
  assoc_get "text" (RerankPrompt.candidate_item idx r)
  = Some (JStr (str_take 1200 (text r))).
Proof. unfold RerankPrompt.candidate_item. now rewrite str_or_self. Qed.

(** X4.  The list of candidates shown to the model matches the ids that the
    reconciliation accepts: for a non-empty result list there is one item per
    candidate, the item at position [p] carries the id [p + 1] and the first
    1200 characters of the text of result [p], and an id is accepted by
    [by_id] exactly when some item carries it. *)
Theorem candidate_items_match_ids (results : list RetrievalResult) (keep_n : Z) :
  results <> [] ->
  length (RerankPrompt.candidate_items results keep_n) = clamped results keep_n
  /\ (forall p item,
        RerankPrompt.candidate_items results keep_n !! p = Some item ->
        exists r t,
          results !! p = Some r
          /\ assoc_get "id" item = Some (JInt (Z.of_nat p + 1))
          /\ assoc_get "text" item = Some (JStr t)
          /\ t = str_take 1200 (text r)
          /\ len t <= 1200)
  /\ (forall i,
        is_Some ((list_to_map (enumerate1 (take (clamped results keep_n) results))
                    : gmap Z RetrievalResult) !! i)
        <-> exists item, item ∈ RerankPrompt.candidate_items results keep_n
                         /\ assoc_get "id" item = Some (JInt i)).
Proof.
  intros Hne.
  assert (Hn : 1 <= Z.of_nat (length results))
    by (destruct results; [contradiction | cbn; lia]).
  unfold RerankPrompt.candidate_items. fold (clamped results keep_n).
  set (k := clamped results keep_n).
  assert (Hk : (1 <= k <= length results)%nat) by (unfold k, clamped; lia).
  assert (Hitem : forall p item,
            map (fun ir : Z * RetrievalResult => RerankPrompt.candidate_item ir.1 ir.2)
              (enumerate1 (take k results)) !! p = Some item ->
            exists r, take k results !! p = Some r
                      /\ item = RerankPrompt.candidate_item (Z.of_nat p + 1) r).
  { intros p item Hp. rewrite list_lookup_fmap in Hp. unfold enumerate1 in Hp.
    rewrite list_lookup_imap in Hp.
    destruct (take k results !! p) as [r|]; [|discriminate].
    injection Hp as <-. now exists r. }
  split; [|split].
  - rewrite length_map. unfold enumerate1. rewrite length_imap, length_take. lia.
  - intros p item Hp. destruct (Hitem p item Hp) as (r & Hr & ->).
    exists r, (str_take 1200 (text r)).
    apply lookup_take_Some in Hr as [Hr _].
    split; [exact Hr|]. split; [reflexivity|].
    split; [apply candidate_item_text|]. split; [reflexivity|].
    unfold len. pose proof (length_str_take 1200 (text r)). lia.
  - intros i. rewrite by_id_is_some, length_take. split.
    + intros Hi.
      destruct (lookup_lt_is_Some_2 (take k results) (Z.to_nat (i - 1))) as [r Hr];
        [rewrite length_take; lia|].
      exists (RerankPrompt.candidate_item i r). split; [|reflexivity].
      apply list_elem_of_lookup. exists (Z.to_nat (i - 1)).
      rewrite list_lookup_fmap. unfold enumerate1. rewrite list_lookup_imap, Hr.
      cbn. do 2 f_equal. lia.
    + intros (item & Hin & Hid).
      apply list_elem_of_lookup in Hin as (p & Hp).
      destruct (Hitem p item Hp) as (r & Hr & ->).
      cbn in Hid. injection Hid as <-.
      apply lookup_lt_Some in Hr. rewrite length_take in Hr. lia.
Qed.

(** X4, witness: the three sample results with [keep_n = 2]. *)
Lemma candidate_items_match_ids_witness :
  length (RerankPrompt.candidate_items three_results 2) = clamped three_results 2
  /\ clamped three_results 2 = 2%nat.
Proof.
  split; [|reflexivity].
  apply (candidate_items_match_ids three_results 2). discriminate.
Defined.

End RerankFurther.

(* ===================================================================== *)
(** * Stripping: auxiliary facts *)
(* ===================================================================== *)

Section StripFacts.
Import Py Facts.

Lemma lstrip_first (s : string) (c : ascii) :
  first_char (lstrip s) = Some c -> isspace c = false.
Proof.
  induction s as [|a s IH]; cbn [lstrip]; [discriminate|].
  destruct (isspace a) eqn:E; [exact IH|]. cbn. now intros [= <-].
Qed.

Lemma rstrip_first (s : string) (c : ascii) :
  first_char (rstrip s) = Some c -> first_char s = Some c.
Proof.
  destruct s as [|a s]; cbn [rstrip]; [discriminate|].
  destruct (rstrip s); [destruct (isspace a)|]; cbn; congruence.
Qed.

Lemma rstrip_last (s : string) (c : ascii) :
  last_char (rstrip s) = Some c -> isspace c = false.
Proof.
  induction s as [|a s IH]; cbn [rstrip]; [discriminate|].
  destruct (rstrip s) as [|b r] eqn:E.
  - destruct (isspace a) eqn:Ea; cbn; [discriminate|now intros [= <-]].
  - cbn [last_char]. exact IH.
Qed.

Lemma strip_trimmed (s : string) : trimmed (strip s).
Proof.
  split; intros c H.
  - apply rstrip_first in H. now apply lstrip_first in H.
  - now apply rstrip_last in H.
Qed.

Lemma lstrip_fixed (s : string) :
  (forall c, first_char s = Some c -> isspace c = false) -> lstrip s = s.
Proof.
  destruct s as [|a s]; [reflexivity|]. intros H. cbn [lstrip].
  now rewrite (H a eq_refl).
Qed.

Lemma rstrip_idem (s : string) : rstrip (rstrip s) = rstrip s.
Proof.
  induction s as [|a s IH]; [reflexivity|]. cbn [rstrip].
  destruct (rstrip s) as [|b r] eqn:E.
  - destruct (isspace a) eqn:Ea; [reflexivity|]. cbn [rstrip]. now rewrite Ea.
  - change (rstrip (String a (String b r)))
      with (match rstrip (String b r) with
            | EmptyString => if isspace a then EmptyString else String a EmptyString
            | String x y => String a (String x y)
            end).
    now rewrite IH.
Qed.

Lemma strip_idem (s : string) : strip (strip s) = strip s.
Proof.
  unfold strip. rewrite (lstrip_fixed (rstrip (lstrip s))).
  - apply rstrip_idem.
  - intros c H. apply rstrip_first in H. now apply lstrip_first in H.
Qed.

Lemma lstrip_pad (p s : string) :
  all_space p = true -> lstrip (p +:+ s) = lstrip s.
Proof.
  induction p as [|a p IH]; [reflexivity|]. cbn [all_space].
  intros [Ha Hp]%andb_true_iff. rewrite append_cons. cbn [lstrip]. rewrite Ha.
  now apply IH.
Qed.

Lemma rstrip_all_space (p : string) : all_space p = true -> rstrip p = "".
Proof.
  induction p as [|a p IH]; [reflexivity|]. cbn [all_space rstrip].
  intros [Ha Hp]%andb_true_iff. now rewrite IH, Ha.
Qed.

Lemma rstrip_pad (s p : string) :
  all_space p = true -> rstrip (s +:+ p) = rstrip s.
Proof.
  intros Hp. induction s as [|a s IH].
  - rewrite append_nil_l. now apply rstrip_all_space.
  - rewrite append_cons. cbn [rstrip]. now rewrite IH.
Qed.

Lemma strip_pad_r (s p : string) :
  all_space p = true -> strip (s +:+ p) = strip s.
Proof.
  intros Hp. unfold strip. induction s as [|a s IH].
  - rewrite append_nil_l. rewrite (rstrip_all_space (lstrip p)); [reflexivity|].
    clear -Hp. induction p as [|b p IHp]; [reflexivity|].
    cbn [all_space] in Hp. apply andb_true_iff in Hp as [Hb Hp].
    cbn [lstrip]. rewrite Hb. now apply IHp.
  - rewrite append_cons. cbn [lstrip]. destruct (isspace a); [exact IH|].
    rewrite <- append_cons. now apply rstrip_pad.
Qed.

(** Blanks around a text do not change what stripping leaves. *)
Lemma strip_pad (p1 s p2 : string) :
  all_space p1 = true -> all_space p2 = true ->
  strip (p1 +:+ s +:+ p2) = strip s.
Proof.
  intros H1 H2. rewrite <- (strip_pad_r s p2 H2).
  unfold strip. now rewrite lstrip_pad.
Qed.

End StripFacts.

(* ===================================================================== *)
(** * Further properties of the extractors and of the chat reply *)
(* ===================================================================== *)

Section ExtractorFurther.
Import Py Chat RagRouting Rerank Spec Facts Inputs.

(** X5.  Blanks before and after the reply do not change what the array
    extractor returns. *)
Theorem extract_array_ignores_padding (loads : string -> decoded json)
    (p1 text p2 : string) :
  all_space p1 = true -> all_space p2 = true ->
  _extract_json_array loads (p1 +:+ text +:+ p2) = _extract_json_array loads text.
Proof.
  intros H1 H2. unfold _extract_json_array. now rewrite strip_pad.
Qed.

(** X5, witness: a reply between a line break and two spaces. *)
Lemma extract_array_ignores_padding_witness :
  _extract_json_array Json.loads (String "010" "" +:+ "[3, 1]" +:+ "  ")
  = _extract_json_array Json.loads "[3, 1]".
Proof.
  apply (extract_array_ignores_padding Json.loads (String "010" "") "[3, 1]" "  ");
    reflexivity.
Defined.

(** X6.  The size cap of the object extractor acts only as the guard on the
    length of the text: any two caps that admit the text give the same
    result, so the bound [i + max_size] of the inner loop never cuts a scan
    short. *)
Theorem obj_extractor_cap_is_only_a_guard (loads : string -> decoded json)
    (text : string) (m1 m2 : Z) :
  len text <= m1 -> len text <= m2 ->
  _json_obj_from_text loads text m1 = _json_obj_from_text loads text m2.
Proof. apply obj_from_text_cap. Qed.

(** X6, witness: the noisy text under a cap equal to its length and under a
    cap of 2000000. *)
Lemma obj_extractor_cap_is_only_a_guard_witness :
  _json_obj_from_text Json.loads noisy_object (len noisy_object)
  = _json_obj_from_text Json.loads noisy_object 2000000.
Proof.
  apply (obj_extractor_cap_is_only_a_guard Json.loads noisy_object).
  - lia.
  - vm_compute. discriminate.
Defined.

(** What the object extractor hands to the decoder starts with a brace. *)
Lemma obj_from_text_shape (loads : string -> decoded json) (text : string)
    (max_size : Z) :
  _json_obj_from_text loads text max_size = Ok None
  \/ exists body, _json_obj_from_text loads text max_size
                  = loads_or_none loads (String lbrace body).
Proof.
  destruct (String.eqb text "") eqn:E0.
  { left. apply String.eqb_eq in E0. apply obj_from_text_guard. now left. }
  destruct (Z.ltb max_size (len text)) eqn:E1.
  { left. apply Z.ltb_lt in E1. apply obj_from_text_guard. now right. }
  apply Z.ltb_ge in E1.
  destruct (find lbrace text) as [i|] eqn:F.
  - destruct (find_some_split _ _ _ F) as (pre & span & E & <- & Hpre).
    destruct (closes_from_first_or_never (String lbrace span) scan_init)
      as [(k & Hk & Hmin) | Hnever].
    + right. exists (str_take k span).
      rewrite (obj_from_text_balanced loads text max_size (String.length pre) k E1)
        by now exists pre, span.
      rewrite E. now rewrite slice_incl_append.
    + left. apply obj_from_text_unbalanced.
      intros i k (pre' & span' & E' & <- & Hpre' & Hk' & _).
      assert (String.length pre' = String.length pre).
      { pose proof (find_append_first lbrace pre span Hpre) as P1.
        pose proof (find_append_first lbrace pre' span' Hpre') as P2.
        rewrite <- E in P1. rewrite <- E' in P2. congruence. }
      assert (Hs : String lbrace span' = String lbrace span).
      { pose proof (str_drop_append pre' (String lbrace span')) as D1.
        pose proof (str_drop_append pre (String lbrace span)) as D2.
        rewrite <- E' in D1. rewrite <- E in D2. congruence. }
      apply (Hnever k). rewrite <- Hs. exact Hk'.
  - left. apply String.eqb_neq in E0. rewrite obj_from_text_scan by assumption.
    now apply scan_from_none.
Qed.

(** The members of an object decode to a dict. *)
Lemma scan_members_object : forall fuel s acc v rest,
  Json.scan_members fuel s acc = Decoded (v, rest) -> exists o, v = JObj o.
Proof.
  induction fuel as [|fuel IH]; intros s acc v rest H; [discriminate|].
  cbn [Json.scan_members] in H.
  repeat match type of H with
         | match ?x with _ => _ end = _ => destruct x eqn:?; try discriminate
         | (if ?x then _ else _) = _ => destruct x eqn:?; try discriminate
         | (let '(_, _) := ?x in _) = _ => destruct x eqn:?
         end.
  - injection H as <- _. eauto.
  - eapply IH. exact H.
Qed.

Lemma scan_once_brace_object (fuel : nat) (body : string) (v : json)
    (rest : string) :
  Json.scan_once fuel (String lbrace body) = Decoded (v, rest) ->
  exists o, v = JObj o.
Proof.
  destruct fuel as [|fuel]; [discriminate|]. unfold lbrace.
  cbn -[Json.scan_members Json.skip_ws Json.scan_string Json.scan_elems
        Json.scan_atom].
  destruct (Json.skip_ws body) as [|c1 r1]; [discriminate|].
  destruct (Ascii.eqb c1 "}").
  - intros [= <- _]. eauto.
  - destruct (Ascii.eqb c1 dquote); [|discriminate].
    apply scan_members_object.
Qed.

Lemma loads_brace_object (body : string) (v : json) :
  Json.loads (String lbrace body) = Decoded v -> exists o, v = JObj o.
Proof.
  unfold Json.loads.
  change (Json.skip_ws (String lbrace body)) with (String lbrace body).
  destruct (Json.scan_once _ (String lbrace body)) as [[w rest]| |] eqn:E;
    [|discriminate|discriminate].
  destruct (Json.skip_ws rest); [|discriminate].
  intros [= <-]. eapply scan_once_brace_object. exact E.
Qed.

(** X7.  With the standard decoder, whatever the object extractor returns is
    a dict: the span it decodes starts with a brace, so the only way for
    [route_rag] to see a non-dict is to see nothing. *)
Theorem obj_extractor_returns_dict (text : string) (max_size : Z) (v : json) :
  _json_obj_from_text Json.loads text max_size = Ok (Some v) ->
  exists o, v = JObj o.
Proof.
  destruct (obj_from_text_shape Json.loads text max_size) as [-> | (body & ->)];
    [discriminate|].
  unfold loads_or_none.
  destruct (Json.loads (String lbrace body)) as [w| |] eqn:E; try discriminate.
  intros [= <-]. exact (loads_brace_object body w E).
Qed.

(** X7, witness: the noisy text of section 8. *)
Lemma obj_extractor_returns_dict_witness :
  exists o, JObj [("a", JInt 1); ("b", JStr "x}y")] = JObj o.
Proof.
  apply (obj_extractor_returns_dict noisy_object 64).
  now vm_compute.
Defined.

(** X8.  The content read from a chat reply is always stripped: it neither
    starts nor ends with a blank, and stripping it again changes nothing. *)
Theorem chat_content_is_stripped (loads : string -> decoded json)
    (resp : http_result) (content : string) :
  chat_content loads resp = Ok content ->
  trimmed content /\ strip content = content.
Proof.
  destruct resp as [|status body]; [discriminate|]. cbn [chat_content].
  destruct (is_success status); [|discriminate].
  destruct (loads body) as [j| |]; [|discriminate|discriminate].
  destruct (py_get j "message") as [msg|]; [|discriminate]. cbn [exn_bind].
  destruct (py_get (py_or msg (JObj [])) "content") as [c|]; [|discriminate].
  cbn [exn_bind].
  destruct (py_or c (JStr "")); try discriminate.
  intros [= <-]. split; [apply strip_trimmed | apply strip_idem].
Qed.

(** X8, witness: the reply whose content is [[3, 1]] between blanks. *)
Lemma chat_content_is_stripped_witness :
  trimmed "[3, 1]" /\ strip "[3, 1]" = "[3, 1]".
Proof.
  apply (chat_content_is_stripped Json.loads (chat_reply "  [3, 1] ")).
  now vm_compute.
Defined.

Lemma chat_content_empty (loads : string -> decoded json)
    (status : Z) (body : string) (o : list (string * json)) :
  200 <= status < 300 ->
  loads body = Decoded (JObj o) ->
  assoc_get "message" o = None
  \/ (exists m, assoc_get "message" o = Some (JObj m)
                /\ assoc_get "content" m = None) ->
  chat_content loads (Response status body) = Ok "".
Proof.
  intros Hs Hb H. cbn [chat_content]. unfold is_success.
  replace (200 <=? status) with true by (symmetry; apply Z.leb_le; lia).
  replace (status <? 300) with true by (symmetry; apply Z.ltb_lt; lia).
  cbn [andb]. rewrite Hb.
  destruct H as [Hm | (m & Hmsg & Hm)].
  - cbn -[assoc_get strip]. rewrite Hm. reflexivity.
  - cbn -[assoc_get strip]. rewrite Hmsg.
    destruct m as [|kv m]; [reflexivity|].
    cbn -[assoc_get strip]. rewrite Hm. reflexivity.
Qed.

(** X9.  A 2xx reply that decodes to an object without a [message], or whose
    [message] is an object without [content], is not an error of the chat
    call: the content read is the empty string; the reranker then returns its
    input and the router a copy of the defaults. *)
Theorem chat_reply_without_content (loads : string -> decoded json)
    (status : Z) (body : string) (o : list (string * json)) :
  200 <= status < 300 ->
  loads body = Decoded (JObj o) ->
  assoc_get "message" o = None
  \/ (exists m, assoc_get "message" o = Some (JObj m)
                /\ assoc_get "content" m = None) ->
  chat_content loads (Response status body) = Ok ""
  /\ (forall results keep_n,
        rerank_results loads results keep_n (Response status body) = Ok results)
  /\ (forall q l max_size (h : heap) (d : pydict),
        h !! l = Some d ->
        exists l' h',
          route_rag loads q l (Response status body) max_size h
          = Some (Ok l', h')
          /\ h' !! l' = Some d).
Proof.
  intros Hs Hb H.
  pose proof (chat_content_empty loads status body o Hs Hb H) as Hc.
  split; [exact Hc|]. split.
  - intros results keep_n. unfold rerank_results. rewrite Hc.
    now destruct results.
  - intros q l max_size h d Hd. eexists _, _. split.
    + apply (route_rag_fallback loads q l _ max_size h d Hd).
      right. right. exists "", None. split; [exact Hc|].
      split; [reflexivity|]. intros obj. discriminate.
    + apply lookup_insert_eq.
Qed.

(** X9, witness: the reply [{}]. *)
Lemma chat_reply_without_content_witness :
  chat_content Json.loads (Response 200 "{}") = Ok ""
  /\ rerank_results Json.loads three_results 3 (Response 200 "{}") = Ok three_results.
Proof.
  destruct (chat_reply_without_content Json.loads 200 "{}" []) as (H1 & H2 & _).
  - lia.
  - now vm_compute.
  - now left.
  - split; [exact H1 | exact (H2 three_results 3)].
Defined.

End ExtractorFurther.

(* ===================================================================== *)
(** * Further properties of route_rag *)
(* ===================================================================== *)

Section RouteFurther.
Import Py Chat RagRouting Spec Facts Inputs.

(** The outcome of [route_rag]: it raises, with the heap as it was, or it
    returns a dict, given by whether a merge takes place. *)
Lemma route_rag_result (loads : string -> decoded json) (q : string) (l : loc)
    (resp : http_result) (max_size : Z) (h : heap) (d : pydict) :
  h !! l = Some d ->
  route_rag loads q l resp max_size h = Some (Raise, h)
  \/ exists out : pydict,
       route_rag loads q l resp max_size h
       = Some (Ok (fresh (dom h)), <[fresh (dom h) := out]> h)
       /\ match merged_object loads q resp max_size with
          | None => out = d
          | Some obj => forall key, out !! key = merged_field d obj key
          end.
Proof.
  intros Hd. unfold merged_object.
  destruct (String.eqb (strip q) "") eqn:Eq.
  { apply String.eqb_eq in Eq. right. exists d. split; [|reflexivity].
    apply route_rag_fallback; auto. }
  apply String.eqb_neq in Eq.
  destruct (chat_content loads resp) as [content|] eqn:Ec.
  2:{ right. exists d. split; [|reflexivity]. apply route_rag_fallback; auto. }
  destruct (_json_obj_from_text loads content max_size) as [r|] eqn:Eo.
  2:{ left. eapply route_rag_raise; eauto. }
  right. destruct r as [[| | | | | |obj]|].
  all: try (exists d; split; [|reflexivity]; apply route_rag_fallback; [exact Hd|];
            right; right; eexists content, _; split; [exact Ec|];
            split; [exact Eo|]; intros obj'; discriminate).
  eexists. split.
  - eapply route_rag_merge; eauto.
  - intros key. apply merged_field_lookup.
Qed.

(** X10.  For a blank query the reply is never looked at: whatever the chat
    call returned, the decision is a copy of the defaults. *)
Theorem route_rag_blank_query (loads : string -> decoded json) (q : string)
    (l : loc) (resp : http_result) (max_size : Z) (h : heap) (d : pydict) :
  strip q = "" ->
  h !! l = Some d ->
  exists l' h',
    route_rag loads q l resp max_size h = Some (Ok l', h') /\ h' !! l' = Some d.
Proof.
  intros Hq Hd. eexists _, _. split.
  - apply (route_rag_fallback loads q l resp max_size h d Hd). now left.
  - apply lookup_insert_eq.
Qed.

(** X10, witness: a query of blanks with a reply that would set [use_web]. *)
Lemma route_rag_blank_query_witness :
  exists l' h',
    route_rag Json.loads "   " 1%positive (chat_reply web_only_decision) 2000000
      {[ 1%positive := cats_defaults ]} = Some (Ok l', h')
    /\ h' !! l' = Some cats_defaults.
Proof.
  apply (route_rag_blank_query Json.loads "   " 1%positive
           (chat_reply web_only_decision) 2000000 _ cats_defaults).
  - reflexivity.
  - apply lookup_singleton_eq.
Defined.

Lemma merged_field_idem (d d' : pydict) obj :
  (forall key, d' !! key = merged_field d obj key) ->
  forall key, merged_field d' obj key = merged_field d obj key.
Proof.
  intros H key. specialize (H key). unfold merged_field in *.
  destruct (bool_decide (key ∈ bool_keys)).
  - now destruct (obj_get obj key).
  - destruct (bool_decide (key ∈ str_keys)); [|exact H].
    now destruct (obj_get obj key).
Qed.

(** X11.  Routing is idempotent: unless the call raises, in which case the
    heap is left as it was, a decision passed back as the defaults of a
    second call, with the same query and the same reply, comes out
    unchanged. *)
Theorem route_rag_idempotent (loads : string -> decoded json) (q : string)
    (l : loc) (resp : http_result) (max_size : Z) (h : heap) (d : pydict) :
  h !! l = Some d ->
  route_rag loads q l resp max_size h = Some (Raise, h)
  \/ exists l1 h1 (out : pydict) l2 h2,
       route_rag loads q l resp max_size h = Some (Ok l1, h1)
       /\ h1 !! l1 = Some out
       /\ route_rag loads q l1 resp max_size h1 = Some (Ok l2, h2)
       /\ h2 !! l2 = Some out.
Proof.
  intros Hd.
  destruct (route_rag_result loads q l resp max_size h d Hd)
    as [E | (out & E1 & H1)]; [now left | right].
  assert (Hout : (<[fresh (dom h) := out]> h : heap) !! fresh (dom h) = Some out)
    by apply lookup_insert_eq.
  destruct (route_rag_result loads q (fresh (dom h)) resp max_size _ out Hout)
    as [E2 | (out2 & E2 & H2)].
  { exfalso.
    destruct (route_rag_raise_inv loads q _ resp max_size _ _ out Hout E2)
      as (Hq & content & Hc & Ho).
    rewrite (route_rag_raise loads q l resp max_size h content Hq Hc Ho) in E1.
    discriminate E1. }
  exists (fresh (dom h)), (<[fresh (dom h) := out]> h), out.
  eexists _, _. split; [exact E1|]. split; [exact Hout|]. split; [exact E2|].
  rewrite lookup_insert_eq. f_equal.
  destruct (merged_object loads q resp max_size) as [obj|].
  - apply map_eq. intros key. rewrite H2, H1. now apply merged_field_idem.
  - exact H2.
Qed.

(** X11, witness: the defaults of the example and a reply that sets
    [use_web]; this call does not raise. *)
Lemma route_rag_idempotent_witness :
  exists l1 h1 (out : pydict) l2 h2,
    route_rag Json.loads "cats" 1%positive (chat_reply web_only_decision) 2000000
      {[ 1%positive := cats_defaults ]} = Some (Ok l1, h1)
    /\ h1 !! l1 = Some out
    /\ route_rag Json.loads "cats" l1 (chat_reply web_only_decision) 2000000 h1
       = Some (Ok l2, h2)
    /\ h2 !! l2 = Some out.
Proof.
  destruct (route_rag_idempotent Json.loads "cats" 1%positive
              (chat_reply web_only_decision) 2000000 _ cats_defaults
              cats_heap_lookup) as [E | H].
  - rewrite (route_rag_merge Json.loads "cats" 1%positive
               (chat_reply web_only_decision) 2000000 _ cats_defaults
               web_only_decision [("use_web", JBool true)] cats_heap_lookup
               ltac:(vm_compute; discriminate) web_only_reply_content
               web_only_reply_object) in E.
    discriminate E.
  - exact H.
Defined.

(** X12.  A text field that the reply sets is never stored blank or padded:
    when the extracted object holds a string or null for one of the five
    text keys, the decision holds for that key either null or a non-empty
    string without leading or trailing blanks. *)
Theorem route_rag_text_fields_clean (loads : string -> decoded json)
    (q : string) (l : loc) (resp : http_result) (max_size : Z) (h : heap)
    (d : pydict) (content : string) (obj : list (string * json)) (key : string) :
  h !! l = Some d ->
  strip q <> "" ->
  chat_content loads resp = Ok content ->
  _json_obj_from_text loads content max_size = Ok (Some (JObj obj)) ->
  key ∈ str_keys ->
  obj_get obj key = JNull \/ (exists v, obj_get obj key = JStr v) ->
  exists l' h' (out : pydict),
    route_rag loads q l resp max_size h = Some (Ok l', h')
    /\ h' !! l' = Some out
    /\ (out !! key = Some JNull
        \/ exists s, out !! key = Some (JStr s) /\ s <> "" /\ trimmed s).
Proof.
  intros Hd Hq Hc Ho Hkey Hv.
  eexists _, _, _. split;
    [now apply (route_rag_merge loads q l resp max_size h d content obj)|].
  split; [apply lookup_insert_eq|].
  rewrite merged_field_lookup. unfold merged_field.
  assert (Hb : bool_decide (key ∈ bool_keys) = false).
  { apply bool_decide_eq_false. intros Hb. unfold bool_keys, str_keys in *.
    repeat (apply elem_of_cons in Hkey as [-> | Hkey];
            [repeat (apply elem_of_cons in Hb as [Hb | Hb]; [discriminate Hb|]);
             now apply elem_of_nil in Hb|]).
    now apply elem_of_nil in Hkey. }
  rewrite Hb, bool_decide_eq_true_2 by exact Hkey.
  destruct Hv as [-> | (v & ->)]; [now left|].
  destruct (String.eqb (strip v) "") eqn:E; [now left|].
  right. exists (strip v). split; [reflexivity|]. split.
  - now apply String.eqb_neq.
  - apply strip_trimmed.
Qed.

(** X13.  Complete, well-typed defaults give a complete, well-typed
    decision on every path that returns: the three flags stay booleans and
    the five text fields stay strings or null, whatever the reply contains.
    The only other outcome is that the call raises, with the heap as it
    was. *)
Theorem route_rag_keeps_decision_shape (loads : string -> decoded json)
    (q : string) (l : loc) (resp : http_result) (max_size : Z) (h : heap)
    (d : pydict) :
  h !! l = Some d ->
  route_decision d ->
  route_rag loads q l resp max_size h = Some (Raise, h)
  \/ exists l' h' (out : pydict),
       route_rag loads q l resp max_size h = Some (Ok l', h')
       /\ h' !! l' = Some out
       /\ route_decision out.
Proof.
  intros Hd [Hb Hs].
  destruct (route_rag_result loads q l resp max_size h d Hd)
    as [E | (out & E & H)]; [now left | right].
  eexists _, _, out. split; [exact E|]. split; [apply lookup_insert_eq|].
  destruct (merged_object loads q resp max_size) as [obj|]; [|subst out; now split].
  split.
  - intros key Hkey. rewrite H. unfold merged_field.
    rewrite bool_decide_eq_true_2 by exact Hkey.
    destruct (obj_get obj key); try apply (Hb key Hkey). eauto.
  - intros key Hkey. rewrite H. unfold merged_field.
    destruct (bool_decide (key ∈ bool_keys)) eqn:B.
    + apply bool_decide_eq_true in B. exfalso. unfold bool_keys, str_keys in *.
      repeat (apply elem_of_cons in Hkey as [-> | Hkey];
              [repeat (apply elem_of_cons in B as [B | B]; [discriminate B|]);
               now apply elem_of_nil in B|]).
      now apply elem_of_nil in Hkey.
    + rewrite bool_decide_eq_true_2 by exact Hkey.
      destruct (obj_get obj key); try apply (Hs key Hkey); [now left|].
      destruct (String.eqb (strip s) ""); [now left | right; eauto].
Qed.

(** X12, witness: the reply sets [doc_query] to [tigers] between blanks. *)
Lemma route_rag_text_fields_clean_witness :
  exists l' h' (out : pydict),
    route_rag Json.loads "cats" 1%positive (chat_reply padded_decision) 2000000
      {[ 1%positive := full_defaults ]} = Some (Ok l', h')
    /\ h' !! l' = Some out
    /\ (out !! "doc_query" = Some JNull
        \/ exists s, out !! "doc_query" = Some (JStr s) /\ s <> "" /\ trimmed s).
Proof.
  apply (route_rag_text_fields_clean Json.loads "cats" 1%positive
           (chat_reply padded_decision) 2000000 _ full_defaults
           padded_decision [("doc_query", JStr "  tigers ")] "doc_query").
  - apply lookup_singleton_eq.
  - now vm_compute.
  - now vm_compute.
  - now vm_compute.
  - unfold str_keys. do 2 right. left.
  - right. now exists "  tigers ".
Defined.

Lemma full_defaults_shape : route_decision full_defaults.
Proof.
  split; intros key Hkey; unfold bool_keys, str_keys in Hkey;
    repeat (apply elem_of_cons in Hkey as [-> | Hkey];
            [vm_compute; eauto|]);
    now apply elem_of_nil in Hkey.
Qed.

Lemma padded_reply_content :
  chat_content Json.loads (chat_reply padded_decision) = Ok padded_decision.
Proof. now vm_compute. Qed.

Lemma padded_reply_object :
  _json_obj_from_text Json.loads padded_decision 2000000
  = Ok (Some (JObj [("doc_query", JStr "  tigers ")])).
Proof. now vm_compute. Qed.

(** X13, witness: the complete defaults and a reply that rewrites one field;
    this call does not raise. *)
Lemma route_rag_keeps_decision_shape_witness :
  exists l' h' (out : pydict),
    route_rag Json.loads "cats" 1%positive (chat_reply padded_decision) 2000000
      {[ 1%positive := full_defaults ]} = Some (Ok l', h')
    /\ h' !! l' = Some out
    /\ route_decision out.
Proof.
  destruct (route_rag_keeps_decision_shape Json.loads "cats" 1%positive
              (chat_reply padded_decision) 2000000 _ full_defaults
              (lookup_singleton_eq _ _) full_defaults_shape) as [E | H].
  - rewrite (route_rag_merge Json.loads "cats" 1%positive
               (chat_reply padded_decision) 2000000 _ full_defaults
               padded_decision [("doc_query", JStr "  tigers ")]
               (lookup_singleton_eq _ _)
               ltac:(vm_compute; discriminate) padded_reply_content
               padded_reply_object) in E.
    discriminate E.
  - exact H.
Defined.

End RouteFurther.

(* ===================================================================== *)
(** * Further properties of the providers *)
(* ===================================================================== *)

Section ProvidersFurther.
Import Py Retrieval Providers Facts Inputs.
Local Open Scope list_scope.

Lemma prefix_cancel (p a b : string) : p +:+ a = p +:+ b -> a = b.
Proof.
  induction p as [|c p IH]; [trivial|]. rewrite !append_cons.
  intros [= H]. now apply IH.
Qed.

(** A source-qualified [ref_id] tells the source type and the chunk id. *)
Lemma source_qualified_inj (r1 r2 : RetrievalResult) :
  source_qualified r1 -> source_qualified r2 ->
  ref_id r1 = ref_id r2 ->
  source_type r1 = source_type r2 /\ chunk_id r1 = chunk_id r2.
Proof.
  intros [S1 R1] [S2 R2] E. rewrite R1, R2 in E.
  destruct S1 as [S1|[S1|S1]], S2 as [S2|[S2|S2]]; rewrite S1, S2 in *;
    try discriminate E; (split; [reflexivity|]);
    apply (prefix_cancel _ _ _) in E; apply (prefix_cancel ":" _ _) in E;
    now apply (inj pretty) in E.
Qed.

Lemma Forall_insert_desc (P : RetrievalResult -> Prop) x l :
  P x -> Forall P l -> Forall P (insert_desc x l).
Proof.
  intros Hx. induction 1 as [|y l Hy Hl IH]; cbn [insert_desc].
  - now repeat constructor.
  - destruct (SFltb (score x) (score y)); repeat constructor; assumption.
Qed.

Lemma Forall_sort_desc (P : RetrievalResult -> Prop) l :
  Forall P l -> Forall P (sort_desc l).
Proof.
  induction 1 as [|x l Hx Hl IH]; [constructor|].
  unfold sort_desc. cbn [foldr]. now apply Forall_insert_desc.
Qed.

Lemma Forall_py_take {A} (P : A -> Prop) (k : Z) (l : list A) :
  Forall P l -> Forall P (py_take k l).
Proof. intros H. unfold py_take. destruct (0 <=? k); now apply Forall_take. Qed.

Variables embedding array store : Type.
Variable kiwix_search : string -> string -> Z -> list SearchItem.
Variable kiwix_fetch_page : string -> string -> option Page.
Variable embed_texts : list string -> string -> list embedding.
Variable embedding_to_array : embedding -> array.
Variable cosine : array -> array -> spec_float.
Variable DEFAULT_EMBED_MODEL : string.
Variable add_document : store -> DocArgs -> Z * store.
Variable ragstore_retrieve : store -> string -> Z -> list Z -> string -> list Hit.
Variable json_dumps : json -> string.
Variable url_hash : string -> Z.
Variable doc_store_retrieve :
  string -> Z -> json -> json -> json -> option string -> json -> json -> list DocHit.
Variable web_store_retrieve : string -> Z -> json -> option string -> list WebHit.
Variable dash_separator : string.

Local Abbreviation kiwix_retrieve :=
  (retrieve embedding array store kiwix_search kiwix_fetch_page embed_texts
     embedding_to_array cosine DEFAULT_EMBED_MODEL add_document
     ragstore_retrieve json_dumps url_hash).

Lemma kiwix_results_qualified base_url st query top_k embed_model persist pages_kw
    out st' :
  kiwix_retrieve base_url st query top_k embed_model persist pages_kw = Ok (out, st') ->
  Forall source_qualified out.
Proof.
  unfold retrieve.
  destruct (String.eqb base_url ""); [intros [= <- _]; constructor|].
  destruct (String.eqb (strip query) ""); [intros [= <- _]; constructor|].
  destruct (kiwix_search base_url (strip query) top_k) as [|it its];
    [intros [= <- _]; constructor|].
  destruct persist; cbn [negb].
  - unfold retrieve_persistent.
    destruct (fold_left _ _ _) as [st1 ids]. destruct ids.
    + intros [= <- _]. constructor.
    + intros [= <- _]. apply Forall_fmap, Forall_forall. intros h _.
      split; [now right; right | reflexivity].
  - unfold retrieve_transient.
    destruct (omap _ _) as [|m pm]; [intros [= <- _]; constructor|].
    destruct (embed_texts _ _) as [|qe ?]; [discriminate|].
    cbn [exn_bind]. intros [= <- _].
    apply Forall_py_take, Forall_sort_desc, Forall_fmap, Forall_forall.
    intros [m' e] _. split; [now right; right | reflexivity].
Qed.

(** X14.  Every result of the three providers is source-qualified -- its
    [ref_id] is ["doc:"], ["web:"] or ["kiwix:"] followed by its chunk id in
    decimal -- so two results of any providers that share a [ref_id] have
    the same source type and the same chunk id. *)
Theorem provider_ref_ids_identify_results
    (query : string) (top_k : Z) (embed_model : option string)
    (doc_ids use_mmr : json) (mmr_lambda : option json)
    (group_name source domain_whitelist : json)
    (base_url : string) (st : store) (persist : bool) (pages_kw : option Z) :
  let docs := doc_retrieve doc_store_retrieve dash_separator query top_k
                embed_model doc_ids use_mmr mmr_lambda group_name source in
  let webs := web_retrieve web_store_retrieve query top_k embed_model
                domain_whitelist in
  Forall source_qualified docs
  /\ Forall source_qualified webs
  /\ forall kiwixes st',
       kiwix_retrieve base_url st query top_k embed_model persist pages_kw
       = Ok (kiwixes, st') ->
       Forall source_qualified kiwixes
       /\ forall r1 r2,
            r1 ∈ docs ++ webs ++ kiwixes -> r2 ∈ docs ++ webs ++ kiwixes ->
            ref_id r1 = ref_id r2 ->
            source_type r1 = source_type r2 /\ chunk_id r1 = chunk_id r2.
Proof.
  intros docs webs.
  assert (Hd : Forall source_qualified docs).
  { apply Forall_fmap, Forall_forall. intros h _. split; [now left | reflexivity]. }
  assert (Hw : Forall source_qualified webs).
  { apply Forall_fmap, Forall_forall. intros h _.
    split; [now right; left | reflexivity]. }
  split; [exact Hd|]. split; [exact Hw|].
  intros kiwixes st' E.
  pose proof (kiwix_results_qualified _ _ _ _ _ _ _ _ _ E) as Hk.
  split; [exact Hk|].
  assert (Hall : Forall source_qualified (docs ++ webs ++ kiwixes))
    by (repeat apply Forall_app_2; assumption).
  rewrite Forall_forall in Hall.
  intros r1 r2 H1 H2. apply source_qualified_inj; auto.
Qed.

End ProvidersFurther.

Section ProvidersExamples.
Import Py Retrieval Providers Facts Inputs ProviderInputs.
Local Open Scope list_scope.

(** X14, witness: one document chunk and one web chunk, both numbered 7,
    beside the two pages of the Kiwix site. *)
Lemma provider_ref_ids_identify_results_witness :
  exists kiwixes,
    sample_retrieve fetch_all 5 false = Ok (kiwixes, 0)
    /\ Forall source_qualified kiwixes
    /\ forall r1 r2,
         r1 ∈ doc_retrieve sample_doc_store " - " "q" 5 None JNull JNull None
                JNull JNull
              ++ web_retrieve sample_web_store "q" 5 None JNull ++ kiwixes ->
         r2 ∈ doc_retrieve sample_doc_store " - " "q" 5 None JNull JNull None
                JNull JNull
              ++ web_retrieve sample_web_store "q" 5 None JNull ++ kiwixes ->
         ref_id r1 = ref_id r2 ->
         source_type r1 = source_type r2 /\ chunk_id r1 = chunk_id r2.
Proof.
  destruct (sample_retrieve fetch_all 5 false) as [[kiwixes st']|] eqn:E;
    [|vm_compute in E; discriminate E].
  assert (st' = 0) as -> by (vm_compute in E; now injection E).
  exists kiwixes. split; [reflexivity|].
  exact (proj2 (proj2 (provider_ref_ids_identify_results
                         (list spec_float) (list spec_float) Z
                         sample_search fetch_all sample_embed (fun e => e)
                         sample_cosine "embed" sample_add_document
                         sample_store_retrieve sample_dumps sample_url_hash
                         sample_doc_store sample_web_store " - "
                         "q" 5 None JNull JNull None JNull JNull JNull
                         (init_base_url (Some "http://kiwix/")) 0 false None))
           kiwixes 0 E).
Defined.

End ProvidersExamples.

(* ===================================================================== *)
(** * Further properties of the Kiwix provider *)
(* ===================================================================== *)

Section KiwixFurther.
Import Py Retrieval Facts.
Local Open Scope list_scope.

(** [<] on floats is asymmetric. *)
Lemma SFltb_asym (x y : spec_float) : SFltb x y = true -> SFltb y x = false.
Proof.
  unfold SFltb, SFcompare.
  destruct x as [sx|sx| |sx mx ex], y as [sy|sy| |sy my ey];
    try destruct sx; try destruct sy; try discriminate; try reflexivity.
  - rewrite (Z.compare_antisym ex ey).
    destruct (ex ?= ey); cbn [CompOpp]; try discriminate; try reflexivity.
    pose proof (Pos.compare_cont_antisym mx my Eq) as A. cbn [CompOpp] in A.
    rewrite <- A.
    destruct (Pos.compare_cont Eq mx my); cbn [CompOpp]; discriminate || reflexivity.
  - rewrite (Z.compare_antisym ex ey).
    destruct (ex ?= ey); cbn [CompOpp]; try discriminate; try reflexivity.
    pose proof (Pos.compare_cont_antisym mx my Eq) as A. cbn [CompOpp] in A.
    rewrite <- A.
    destruct (Pos.compare_cont Eq mx my); cbn [CompOpp]; discriminate || reflexivity.
Qed.

Lemma HdRel_insert_desc x y l :
  not_below y x -> HdRel not_below y l -> HdRel not_below y (insert_desc x l).
Proof.
  intros Hyx Hl. destruct l as [|z l]; cbn [insert_desc]; [now constructor|].
  destruct (SFltb (score x) (score z)); [|now constructor].
  inversion Hl; now constructor.
Qed.

Lemma Sorted_insert_desc x l :
  Sorted not_below l -> Sorted not_below (insert_desc x l).
Proof.
  induction 1 as [|y l Hl IH Hy]; cbn [insert_desc]; [now repeat constructor|].
  destruct (SFltb (score x) (score y)) eqn:E.
  - constructor; [exact IH|]. apply HdRel_insert_desc; [|exact Hy].
    now apply SFltb_asym.
  - constructor; [now constructor|]. now constructor.
Qed.

Lemma Sorted_sort_desc l : Sorted not_below (sort_desc l).
Proof.
  induction l as [|x l IH]; [constructor|].
  unfold sort_desc. cbn [foldr]. now apply Sorted_insert_desc.
Qed.

Lemma Sorted_take_prefix (n : nat) : forall l,
  Sorted not_below l -> Sorted not_below (take n l).
Proof.
  induction n as [|n IH]; intros l H; [rewrite take_0; constructor|].
  destruct l as [|x l]; [constructor|]. cbn [take].
  inversion H as [|? ? Hl Hx]; subst. constructor; [now apply IH|].
  destruct l as [|y l]; [rewrite take_nil; constructor|].
  destruct n; [rewrite take_0; constructor|]. cbn [take].
  inversion Hx; now constructor.
Qed.

Lemma rstrip_char_all (c : ascii) (s : string) :
  all_char c s = true -> rstrip_char c s = "".
Proof.
  induction s as [|d s IH]; [reflexivity|]. cbn [all_char rstrip_char].
  intros [Hd Hs]%andb_true_iff. now rewrite IH, Hd.
Qed.

Variables embedding array store : Type.
Variable kiwix_search : string -> string -> Z -> list SearchItem.
Variable kiwix_fetch_page : string -> string -> option Page.
Variable embed_texts : list string -> string -> list embedding.
Variable embedding_to_array : embedding -> array.
Variable cosine : array -> array -> spec_float.
Variable DEFAULT_EMBED_MODEL : string.
Variable add_document : store -> DocArgs -> Z * store.
Variable ragstore_retrieve : store -> string -> Z -> list Z -> string -> list Hit.
Variable json_dumps : json -> string.
Variable url_hash : string -> Z.

Local Abbreviation kiwix_retrieve :=
  (retrieve embedding array store kiwix_search kiwix_fetch_page embed_texts
     embedding_to_array cosine DEFAULT_EMBED_MODEL add_document
     ragstore_retrieve json_dumps url_hash).

(** X15.  Under the embedding contract the transient mode returns its
    results best first: no result has a score below that of the result
    after it. *)
Theorem kiwix_transient_best_first
    (base_url : string) (st : store) (query : string) (top_k : Z)
    (embed_model : option string) (pages_kw : option Z) :
  one_vector_per_text embedding embed_texts ->
  exists items,
    kiwix_retrieve base_url st query top_k embed_model false pages_kw
    = Ok (items, st)
    /\ Sorted not_below items.
Proof.
  intros Hemb. unfold retrieve.
  destruct (String.eqb base_url ""); [exists []; split; [reflexivity|constructor]|].
  destruct (String.eqb (strip query) "");
    [exists []; split; [reflexivity|constructor]|].
  destruct (kiwix_search base_url (strip query) top_k) as [|it its];
    [exists []; split; [reflexivity|constructor]|].
  cbn [negb]. unfold retrieve_transient.
  destruct (omap _ _) as [|m pm]; [exists []; split; [reflexivity|constructor]|].
  pose proof (Hemb [strip query]
                (str_or_empty (or_str embed_model (Some DEFAULT_EMBED_MODEL)))) as Hq.
  destruct (embed_texts [strip query] _) as [|qe ?]; [discriminate|].
  cbn [exn_bind]. eexists. split; [reflexivity|].
  unfold py_take. destruct (0 <=? top_k);
    apply Sorted_take_prefix, Sorted_sort_desc.
Qed.

(** X16.  The provider returns the empty list, raises nothing and leaves the
    store alone, in both modes, when it was built without a base URL (none,
    or slashes only), when the query is blank, and when the search lists
    nothing. *)
Theorem kiwix_nothing_to_search
    (st : store) (query : string) (top_k : Z) (embed_model : option string)
    (persist : bool) (pages_kw : option Z) :
  (forall base, base = None \/ (exists s, base = Some s /\ all_char "/" s = true) ->
     kiwix_retrieve (init_base_url base) st query top_k embed_model persist pages_kw
     = Ok ([], st))
  /\ (forall base_url, strip query = "" ->
        kiwix_retrieve base_url st query top_k embed_model persist pages_kw
        = Ok ([], st))
  /\ (forall base_url, kiwix_search base_url (strip query) top_k = [] ->
        kiwix_retrieve base_url st query top_k embed_model persist pages_kw
        = Ok ([], st)).
Proof.
  split; [|split].
  - intros base Hb.
    assert (E : init_base_url base = "").
    { destruct Hb as [-> | (s & -> & Hs)]; [reflexivity|].
      unfold init_base_url. now apply rstrip_char_all. }
    unfold retrieve. now rewrite E.
  - intros base_url Hq. unfold retrieve. rewrite Hq.
    now destruct (String.eqb base_url "").
  - intros base_url Hs. unfold retrieve. rewrite Hs.
    destruct (String.eqb base_url ""); [reflexivity|].
    now destruct (String.eqb (strip query) "").
Qed.

Lemma run_adds_cons (st : store) (a : DocArgs) (docs : list DocArgs) :
  run_adds add_document st (a :: docs)
  = ((run_adds add_document (add_document st a).2 docs).1,
     (add_document st a).1 :: (run_adds add_document (add_document st a).2 docs).2).
Proof.
  cbn [run_adds]. destruct (add_document st a) as [doc_id st1]. cbn [fst snd].
  now destruct (run_adds add_document st1 docs).
Qed.

(** The persistent loop changes the store by adding documents, one for each
    listed item at most, each tagged as a Kiwix document. *)
Lemma persist_loop_adds (base_url embed_model : string) : forall items st0 ids0,
  exists docs,
    fold_left (persist_page store kiwix_fetch_page add_document json_dumps
                 base_url embed_model) items (st0, ids0)
    = ((run_adds add_document st0 docs).1,
       ids0 ++ (run_adds add_document st0 docs).2)
    /\ (length docs <= length items)%nat
    /\ Forall (kiwix_document embed_model) docs.
Proof.
  induction items as [|item items IH]; intros st0 ids0.
  - exists []. cbn. rewrite app_nil_r. repeat split; [lia | constructor].
  - cbn [fold_left]. unfold persist_page at 2.
    destruct (kiwix_fetch_page base_url (item_fetch_path item)) as [page|].
    2:{ destruct (IH st0 ids0) as (docs & E & Hl & Hf).
        exists docs. cbn [length]. repeat split; [exact E | lia | exact Hf]. }
    destruct (String.eqb (strip (str_or_empty (or_str (page_text page)
                                                 (Some EmptyString)))) "") eqn:Et.
    { destruct (IH st0 ids0) as (docs & E & Hl & Hf).
      exists docs. cbn [length]. repeat split; [exact E | lia | exact Hf]. }
    match goal with
    | |- context [add_document st0 ?a] =>
        set (args := a); destruct (add_document st0 args) as [doc_id st1] eqn:Ea
    end.
    destruct (IH st1 (ids0 ++ [doc_id])) as (docs & E & Hl & Hf).
    exists (args :: docs). rewrite run_adds_cons, Ea. cbn [fst snd length].
    split; [|split; [lia|]].
    + rewrite E. now rewrite <- app_assoc.
    + constructor; [|exact Hf]. unfold kiwix_document, args.
      cbn [da_group_name da_source da_embed_model da_text da_filename da_title].
      repeat split; try apply strip_trimmed.
      now apply String.eqb_neq.
Qed.

(** X17.  In persistent mode the store changes only through
    [add_document]: the provider adds at most 10 documents, each in group and
    source [kiwix], with the requested embedding model and a non-blank
    stripped text, and then queries the store for exactly the documents it
    added; when it added none it returns the empty list. *)
Theorem kiwix_persistent_ingests_documents
    (base_url : string) (st : store) (query : string) (top_k : Z)
    (embed_model : option string) (pages_kw : option Z) :
  let model := str_or_empty (or_str embed_model (Some DEFAULT_EMBED_MODEL)) in
  let domain := remove_all "https://" 0 (remove_all "http://" 0 base_url) in
  exists out docs,
    kiwix_retrieve base_url st query top_k embed_model true pages_kw
    = Ok (out, (run_adds add_document st docs).1)
    /\ (length docs <= 10)%nat
    /\ Forall (kiwix_document model) docs
    /\ out = match (run_adds add_document st docs).2 with
             | [] => []
             | ids => map (persistent_item domain)
                        (ragstore_retrieve (run_adds add_document st docs).1
                           (strip query) top_k ids model)
             end.
Proof.
  intros model domain. unfold retrieve.
  destruct (String.eqb base_url "");
    [exists [], []; cbn; repeat split; [lia | constructor]|].
  destruct (String.eqb (strip query) "");
    [exists [], []; cbn; repeat split; [lia | constructor]|].
  destruct (kiwix_search base_url (strip query) top_k) as [|it its] eqn:Es;
    [exists [], []; cbn; repeat split; [lia | constructor]|].
  cbn [negb]. unfold retrieve_persistent. fold model. fold domain.
  match goal with
  | |- context [fold_left _ (take ?n ?l) _] =>
      destruct (persist_loop_adds base_url model (take n l) st [])
        as (docs & E & Hl & Hf);
      assert (Hn : (length (take n l) <= 10)%nat)
        by (rewrite length_take;
            destruct pages_kw as [p|]; [destruct (p =? 0)|]; lia)
  end.
  rewrite E. cbn [app].
  exists (match (run_adds add_document st docs).2 with
          | [] => []
          | ids => map (persistent_item domain)
                     (ragstore_retrieve (run_adds add_document st docs).1
                        (strip query) top_k ids model)
          end), docs.
  split; [|split; [lia|split; [exact Hf|reflexivity]]].
  destruct (run_adds add_document st docs) as [st' ids]. cbn [fst snd].
  now destruct ids.
Qed.

End KiwixFurther.

Section KiwixFurtherExamples.
Import Py Retrieval Facts Inputs.
Local Open Scope list_scope.

(** X15, witness: the sample site in transient mode. *)
Lemma kiwix_transient_best_first_witness :
  exists items,
    sample_retrieve fetch_all 5 false = Ok (items, 0) /\ Sorted not_below items.
Proof.
  exact (kiwix_transient_best_first (list spec_float) (list spec_float) Z
           sample_search fetch_all sample_embed (fun e => e) sample_cosine "embed"
           sample_add_document sample_store_retrieve sample_dumps sample_url_hash
           (init_base_url (Some "http://kiwix/")) 0 "q" 5 None None
           sample_embed_contract).
Defined.

(** X16, witness: a provider built without a base URL, and a blank query. *)
Lemma kiwix_nothing_to_search_witness :
  retrieve (list spec_float) (list spec_float) Z
    sample_search fetch_all sample_embed (fun e => e) sample_cosine "embed"
    sample_add_document sample_store_retrieve sample_dumps sample_url_hash
    (init_base_url None) 0 "q" 5 None true None = Ok ([], 0)
  /\ retrieve (list spec_float) (list spec_float) Z
       sample_search fetch_all sample_embed (fun e => e) sample_cosine "embed"
       sample_add_document sample_store_retrieve sample_dumps sample_url_hash
       "http://kiwix" 0 "  " 5 None false None = Ok ([], 0).
Proof.
  split.
  - apply (proj1 (kiwix_nothing_to_search (list spec_float) (list spec_float) Z
                    sample_search fetch_all sample_embed (fun e => e) sample_cosine
                    "embed" sample_add_document sample_store_retrieve sample_dumps
                    sample_url_hash 0 "q" 5 None true None)).
    now left.
  - apply (proj1 (proj2 (kiwix_nothing_to_search (list spec_float) (list spec_float) Z
                    sample_search fetch_all sample_embed (fun e => e) sample_cosine
                    "embed" sample_add_document sample_store_retrieve sample_dumps
                    sample_url_hash 0 "  " 5 None false None))).
    reflexivity.
Defined.

End KiwixFurtherExamples.

(* ===================================================================== *)
(** * Further properties: provenance and unrecognized keys *)
(* ===================================================================== *)

Section Provenance.
Import Py Chat RagRouting Retrieval Spec Facts Inputs.
Local Open Scope list_scope.

Variables embedding array : Type.
Variable kiwix_fetch_page : string -> string -> option Page.
Variable embed_texts : list string -> string -> list embedding.
Variable embedding_to_array : embedding -> array.
Variable cosine : array -> array -> spec_float.
Variable url_hash : string -> Z.

(** X18.  Under the embedding contract, every result of the transient branch
    comes from a page that was fetched for one of the first [pages] listed
    items: it carries the URL and the text of that page and the title of
    that item. *)
Theorem kiwix_transient_results_come_from_pages
    (base_url host q : string) (top_k : Z) (embed_model : string) (pages : Z)
    (results : list SearchItem) :
  one_vector_per_text embedding embed_texts ->
  exists items,
    retrieve_transient embedding array kiwix_fetch_page embed_texts
      embedding_to_array cosine url_hash base_url host q top_k embed_model
      pages results = Ok items
    /\ Forall (fun r =>
         exists item page,
           item ∈ take (Z.to_nat pages) results
           /\ kiwix_fetch_page base_url (item_fetch_path item) = Some page
           /\ url r = page_url page
           /\ text r = str_or_empty (or_str (page_text page) (Some EmptyString))
           /\ title r = or_str (item_title item) (item_path item)
           /\ domain r = Some host) items.
Proof.
  intros Hemb. unfold retrieve_transient.
  set (pm := omap (transient_page kiwix_fetch_page base_url host)
               (take (Z.to_nat pages) results)).
  assert (Hpm : forall m, m ∈ pm ->
            exists item page,
              item ∈ take (Z.to_nat pages) results
              /\ kiwix_fetch_page base_url (item_fetch_path item) = Some page
              /\ pm_url m = page_url page
              /\ pm_text m = str_or_empty (or_str (page_text page) (Some EmptyString))
              /\ pm_title m = or_str (item_title item) (item_path item)
              /\ pm_domain m = host).
  { intros m Hm. unfold pm in Hm.
    apply list_elem_of_omap in Hm as (item & Hi & Ht).
    unfold transient_page in Ht.
    destruct (kiwix_fetch_page base_url (item_fetch_path item)) as [page|] eqn:Ef;
      [|discriminate].
    injection Ht as <-. exists item, page. now repeat split. }
  destruct pm as [|m0 pm'] eqn:Epm; [exists []; split; [reflexivity|constructor]|].
  pose proof (Hemb [q] embed_model) as Hq.
  destruct (embed_texts [q] embed_model) as [|qe ?]; [discriminate|].
  eexists. split; [reflexivity|].
  apply Forall_py_take, Forall_sort_desc, Forall_fmap, Forall_forall.
  intros [m e] Hme.
  assert (Hm : m ∈ m0 :: pm').
  { apply list_elem_of_lookup in Hme as (i & Hi).
    apply lookup_zip_with_Some in Hi as (m' & e' & [= <- <-] & Hm' & _).
    apply list_elem_of_lookup. eauto. }
  destruct (Hpm m Hm) as (item & page & Hin & Hf & Hu & Ht & Hti & Hdo).
  exists item, page. cbn.
  repeat split; try assumption; try congruence.
  rewrite <- Ht. now destruct (pm_text m).
Qed.

End Provenance.

Section UnrecognizedKeys.
Import Py Chat RagRouting Spec Facts Inputs.

(** X19.  Keys of the reply other than the eight of the schema are never
    looked at: two replies whose objects agree on those eight keys give the
    same decision. *)
Theorem route_rag_ignores_other_keys (loads : string -> decoded json)
    (q : string) (l : loc) (resp1 resp2 : http_result) (max_size : Z)
    (h : heap) (d : pydict) (content1 content2 : string)
    (obj1 obj2 : list (string * json)) :
  h !! l = Some d ->
  strip q <> "" ->
  chat_content loads resp1 = Ok content1 ->
  chat_content loads resp2 = Ok content2 ->
  _json_obj_from_text loads content1 max_size = Ok (Some (JObj obj1)) ->
  _json_obj_from_text loads content2 max_size = Ok (Some (JObj obj2)) ->
  (forall key, key ∈ (bool_keys ++ str_keys)%list ->
     obj_get obj1 key = obj_get obj2 key) ->
  route_rag loads q l resp1 max_size h = route_rag loads q l resp2 max_size h.
Proof.
  intros Hd Hq Hc1 Hc2 Ho1 Ho2 Hagree.
  rewrite (route_rag_merge loads q l resp1 max_size h d content1 obj1) by assumption.
  rewrite (route_rag_merge loads q l resp2 max_size h d content2 obj2) by assumption.
  do 3 f_equal. apply map_eq. intros key. rewrite !merged_field_lookup.
  unfold merged_field.
  destruct (bool_decide (key ∈ bool_keys)) eqn:B.
  - apply bool_decide_eq_true in B.
    now rewrite (Hagree key) by (apply elem_of_app; now left).
  - destruct (bool_decide (key ∈ str_keys)) eqn:S; [|reflexivity].
    apply bool_decide_eq_true in S.
    now rewrite (Hagree key) by (apply elem_of_app; now right).
Qed.

End UnrecognizedKeys.

Section ProvenanceExamples.
Import Py Chat RagRouting Retrieval Spec Facts Inputs.
Local Open Scope list_scope.

(** X18, witness: the sample site on which only [/b] is served. *)
Lemma kiwix_transient_results_come_from_pages_witness :
  exists items,
    retrieve_transient (list spec_float) (list spec_float) fetch_second sample_embed
      (fun e => e) sample_cosine sample_url_hash "http://kiwix" "kiwix" "q" 5
      "embed" 4 (sample_search "http://kiwix" "q" 5) = Ok items
    /\ Forall (fun r =>
         exists item page,
           item ∈ take (Z.to_nat 4) (sample_search "http://kiwix" "q" 5)
           /\ fetch_second "http://kiwix" (item_fetch_path item) = Some page
           /\ url r = page_url page
           /\ text r = str_or_empty (or_str (page_text page) (Some EmptyString))
           /\ title r = or_str (item_title item) (item_path item)
           /\ domain r = Some "kiwix") items.
Proof.
  exact (kiwix_transient_results_come_from_pages (list spec_float) (list spec_float)
           fetch_second sample_embed (fun e => e) sample_cosine sample_url_hash
           "http://kiwix" "kiwix" "q" 5 "embed" 4
           (sample_search "http://kiwix" "q" 5) sample_embed_contract).
Defined.

(** X19, witness: a reply with the extra key [mood]. *)
Lemma route_rag_ignores_other_keys_witness :
  route_rag Json.loads "cats" 1%positive (chat_reply web_only_decision) 2000000
    {[ 1%positive := cats_defaults ]}
  = route_rag Json.loads "cats" 1%positive (chat_reply chatty_decision) 2000000
      {[ 1%positive := cats_defaults ]}.
Proof.
  apply (route_rag_ignores_other_keys Json.loads "cats" 1%positive
           (chat_reply web_only_decision) (chat_reply chatty_decision) 2000000
           _ cats_defaults web_only_decision chatty_decision
           [("use_web", JBool true)]
           [("use_web", JBool true); ("mood", JStr "curious")]).
  - apply lookup_singleton_eq.
  - now vm_compute.
  - now vm_compute.
  - now vm_compute.
  - now vm_compute.
  - now vm_compute.
  - intros key Hkey. unfold bool_keys, str_keys in Hkey. cbn [app] in Hkey.
    repeat (apply elem_of_cons in Hkey as [-> | Hkey]; [reflexivity|]).
    now apply elem_of_nil in Hkey.
Defined.

End ProvenanceExamples.
